(** * Airly collector and CSV migration: a shallow embedding

    Source files: [src/airly_collector.py] (the collector: normalizer,
    sinks, collection cycle) and [src/db_setup.py] (schema bootstrap and
    CSV migration).

    Python values are embedded as the inductive [pyval]; Python exceptions
    as the [Raise] branch of [res].  What the repository calls but does not
    define is a parameter: the built-ins [str], [float], [int] and
    [datetime.strptime] are the fields of [Runtime], the HTTP endpoints,
    the clock and the file system those of [World], the MariaDB server
    those of [Server]; the writer and the reader of the [csv] module are
    modelled on the characters of the file. *)

From Stdlib Require Import ZArith Floats Ascii.
From stdpp Require Import gmap strings list pretty.

Local Open Scope Z_scope.

(** ** Python values *)

(** What [response.json()] can return, and what a [Measurement] field can
    hold.  A JSON object is a [dict] with string keys. *)
#[warnings="-register-all"]
Inductive pyval :=
| VNone
| VBool (b : bool)
| VInt (z : Z)
| VFloat (x : float)
| VStr (s : string)
| VList (l : list pyval)
| VDict (d : gmap string pyval).

Inductive exn :=
  AttributeError | KeyError | TypeError | IndexError | OverflowError
  | OSError | MySQLError.

(** A computation that returns a value or raises. *)
Inductive res (A : Type) :=
| Val (a : A)
| Raise (e : exn).
Arguments Val {A} a.
Arguments Raise {A} e.

#[global] Instance res_ret : MRet res := λ A a, Val a.
#[global] Instance res_bind : MBind res := λ A B f r,
  match r with Val a => f a | Raise e => Raise e end.

(** [bool(v)] *)
Definition truthy (v : pyval) : bool :=
  match v with
  | VNone => false
  | VBool b => b
  | VInt z => negb (Z.eqb z 0)
  | VFloat x => negb (PrimFloat.eqb x 0%float)
  | VStr s => negb (String.eqb s "")
  | VList l => match l with [] => false | _ :: _ => true end
  | VDict d => negb (bool_decide (d = ∅))
  end.

(** [v.get(k, dflt)]: only a dict has the method. *)
Definition py_get (v : pyval) (k : string) (dflt : pyval) : res pyval :=
  match v with
  | VDict d => Val (default dflt (d !! k))
  | _ => Raise AttributeError
  end.

(** [v[k]] for a string key [k]. *)
Definition py_getitem (v : pyval) (k : string) : res pyval :=
  match v with
  | VDict d => match d !! k with Some x => Val x | None => Raise KeyError end
  | _ => Raise TypeError
  end.

(** [v[0]].  The keys of a JSON object are strings, so a dict never has
    the key [0]. *)
Definition py_getitem0 (v : pyval) : res pyval :=
  match v with
  | VList (x :: _) => Val x
  | VList [] => Raise IndexError
  | VStr (String c _) => Val (VStr (String c EmptyString))
  | VStr EmptyString => Raise IndexError
  | VDict _ => Raise KeyError
  | _ => Raise TypeError
  end.

(** [len(v)] *)
Definition py_len (v : pyval) : res Z :=
  match v with
  | VList l => Val (Z.of_nat (length l))
  | VStr s => Val (Z.of_nat (String.length s))
  | VDict d => Val (Z.of_nat (size d))
  | _ => Raise TypeError
  end.

(** The items a [for] loop visits. *)
Definition py_iter (v : pyval) : res (list pyval) :=
  match v with
  | VList l => Val l
  | VStr s => Val ((λ c, VStr (String c EmptyString)) <$> String.list_ascii_of_string s)
  | VDict d => Val ((λ kv, VStr kv.1) <$> map_to_list d)
  | _ => Raise TypeError
  end.

(** ** Data model *)

(** A naive [datetime] (no tzinfo). *)
Record datetime := mkDatetime {
  year : Z; month : Z; day : Z;
  hour : Z; minute : Z; second : Z; microsecond : Z
}.

(** The fields of [Config] the modelled code reads. *)
Record Config := mkConfig {
  airly_api_key : string;
  installation_id : Z;
  latitude : float;
  longitude : float;
  city_name : string;
  enable_database : bool;
  enable_csv : bool;
  hsbi_api_url : string;
  hsbi_sensor_id : Z;
  hsbi_altitude : float;
  enable_hsbi : bool
}.

(** [Measurement].  The six optional readings hold whatever the payload
    carried; [VNone] is Python's [None] (absent). *)
Record Measurement := mkMeasurement {
  m_timestamp : datetime;
  m_city : string;
  m_latitude : float;
  m_longitude : float;
  m_pm25 : pyval;
  m_pm10 : pyval;
  m_temperature : pyval;
  m_humidity : pyval;
  m_pressure : pyval;
  m_aqi : pyval;
  m_station_id : option Z
}.

Definition hour_utc (m : Measurement) : Z := hour (m_timestamp m).
Definition minute_utc (m : Measurement) : Z := minute (m_timestamp m).

(** ** Normalizer: [AirlyCollector.parse_measurement] *)

(** [values[v["name"]] = v["value"]]: the right-hand side is evaluated
    first, then the key, then the key is hashed.  [values] is only ever
    read at string keys, so a hashable key that is not a string leaves
    the modelled mapping as it is. *)
Definition store_value (values : gmap string pyval) (v : pyval)
  : res (gmap string pyval) :=
  x ← py_getitem v "value";
  n ← py_getitem v "name";
  match n with
  | VStr k => Val (<[k := x]> values)
  | VList _ | VDict _ => Raise TypeError
  | _ => Val values
  end.

(** [for v in items: values[v["name"]] = v["value"]] *)
Fixpoint flatten_values (items : list pyval) (values : gmap string pyval)
  : res (gmap string pyval) :=
  match items with
  | [] => Val values
  | v :: rest => values' ← store_value values v; flatten_values rest values'
  end.

(** [a and b] where only the truth value of the result is used. *)
Definition select_source (data : pyval) : res pyval :=
  cur ← py_get data "current" VNone;
  cur_ok ←
    (if truthy cur then
       c ← py_getitem data "current";
       vs ← py_get c "values" VNone;
       mret (truthy vs)
     else mret false);
  if cur_ok : bool then py_getitem data "current"
  else
    hist ← py_get data "history" VNone;
    hist_ok ←
      (if truthy hist then
         h ← py_getitem data "history";
         n ← py_len h;
         mret (bool_decide (0 < n))
       else mret false);
    if hist_ok : bool then
      h ← py_getitem data "history"; py_getitem0 h
    else mret VNone.

Definition parse_measurement (cfg : Config) (now : datetime) (data : pyval)
  : res (option Measurement) :=
  if negb (truthy data) then mret None
  else
    source ← select_source data;
    if negb (truthy source) then mret None
    else
      items ← py_get source "values" (VList []);
      items ← py_iter items;
      values ← flatten_values items ∅;
      indexes ← py_get source "indexes" (VList []);
      aqi ←
        (if truthy indexes then
           i0 ← py_getitem0 indexes; py_get i0 "value" VNone
         else mret VNone);
      mret (Some {|
        m_timestamp := now;
        m_city := city_name cfg;
        m_latitude := latitude cfg;
        m_longitude := longitude cfg;
        m_pm25 := default VNone (values !! "PM25");
        m_pm10 := default VNone (values !! "PM10");
        m_temperature := default VNone (values !! "TEMPERATURE");
        m_humidity := default VNone (values !! "HUMIDITY");
        m_pressure := default VNone (values !! "PRESSURE");
        m_aqi := aqi;
        m_station_id := Some (installation_id cfg)
      |}).

(** ** Serialization of a [Measurement] *)

Definition digit (n : Z) : Ascii.ascii :=
  Ascii.ascii_of_nat (48 + Z.to_nat (n `mod` 10)).
Definition pad2 (n : Z) : string :=
  String (digit (n `div` 10)) (String (digit n) EmptyString).
Definition pad4 (n : Z) : string :=
  String (digit (n `div` 1000)) (String (digit (n `div` 100)) (pad2 n)).

(** [t.strftime("%Y-%m-%d %H:%M:%S")] for a [datetime] whose fields are in
    range (years of four digits): the microsecond is not written. *)
Definition strftime (t : datetime) : string :=
  pad4 (year t) +:+ "-" +:+ pad2 (month t) +:+ "-" +:+ pad2 (day t) +:+ " "
  +:+ pad2 (hour t) +:+ ":" +:+ pad2 (minute t) +:+ ":" +:+ pad2 (second t).

(** [x if x is not None else ""] *)
Definition or_empty (v : pyval) : pyval :=
  match v with VNone => VStr "" | _ => v end.

(** [Measurement.to_csv_row] *)
Definition to_csv_row (m : Measurement) : list pyval :=
  [ VStr (strftime (m_timestamp m));
    VStr (m_city m);
    VFloat (m_latitude m);
    VFloat (m_longitude m);
    VInt (hour_utc m);
    VInt (minute_utc m);
    or_empty (m_pm25 m);
    or_empty (m_pm10 m);
    or_empty (m_temperature m);
    or_empty (m_humidity m);
    or_empty (m_pressure m);
    or_empty (m_aqi m) ].

(** [AirlyCollector.CSV_HEADERS] *)
Definition CSV_HEADERS : list string :=
  [ "datetime_utc"; "city"; "lat"; "lon"; "hour_utc"; "minute_utc";
    "PM25"; "PM10"; "TEMPERATURE"; "HUMIDITY"; "PRESSURE"; "AQI" ].

(** The Python built-ins the two programs call on strings: [str(v)],
    [float(s)], [int(s)] and
    [datetime.strptime(s, "%Y-%m-%d %H:%M:%S")]; [None] stands for the
    exception the built-in raises. *)
Record Runtime := mkRuntime {
  py_str : pyval → string;
  py_float : string → option float;
  py_int : string → option Z;
  strptime : string → option datetime
}.

(** A CSV file as its readers see it: the list of rows [csv.reader] yields
    from it; [None] is a path at which no file exists. *)
Definition csv_file := option (list (list string)).

(** The text [csv.writer] puts in a field. *)
Definition csv_field (rt : Runtime) (v : pyval) : string :=
  match v with
  | VNone => ""
  | VStr s => s
  | _ => py_str rt v
  end.

(** ** The [csv] module, dialect "excel" *)

Definition delimiter : Ascii.ascii := ","%char.
Definition quotechar : Ascii.ascii := "034"%char.
Definition CR : Ascii.ascii := "013"%char.
Definition LF : Ascii.ascii := "010"%char.

(** A character that makes [csv.writer] quote the field it occurs in: the
    delimiter, the quote character, and the characters of the line
    terminator. *)
Definition needs_quoting (c : Ascii.ascii) : bool :=
  bool_decide (c = delimiter ∨ c = quotechar ∨ c = CR ∨ c = LF).

(** A quote character inside a quoted field is doubled. *)
Definition escape (c : Ascii.ascii) : list Ascii.ascii :=
  if bool_decide (c = quotechar) then [quotechar; quotechar] else [c].

(** The text of one field under QUOTE_MINIMAL. *)
Definition write_field (s : string) : list Ascii.ascii :=
  let cs := String.list_ascii_of_string s in
  if existsb needs_quoting cs
  then quotechar :: (cs ≫= escape) ++ [quotechar]
  else cs.

Fixpoint join_fields (fs : list (list Ascii.ascii)) : list Ascii.ascii :=
  match fs with
  | [] => []
  | [f] => f
  | f :: fs => f ++ delimiter :: join_fields fs
  end.

(** [csv.writer(f).writerow(row)]: the text written, for a row of strings.
    A record that would be empty text, a single empty field, is written
    as two quote characters. *)
Definition csv_writerow (row : list string) : string :=
  let record := join_fields (write_field <$> row) in
  String.string_of_list_ascii
    ((match row, record with
      | [_], [] => [quotechar; quotechar]
      | _, _ => record
      end) ++ [CR; LF]).

(** The states of the parser of [csv.reader].  The reader is handed the
    lines of a file opened with [newline=''], which end at a carriage
    return, a line feed, or a carriage return followed by a line feed, and
    processes an end-of-line mark after each.  Here the parser runs over
    the characters of the text: [EAT_CRNL] is its state between a carriage
    return that ended a record and the next character, which belongs to the
    same line exactly when it is a line feed. *)
Inductive parser_state :=
| START_RECORD
| START_FIELD
| IN_FIELD
| IN_QUOTED_FIELD
| QUOTE_IN_QUOTED_FIELD
| EAT_CRNL.

Record Reader := mkReader {
  state : parser_state;
  field : list Ascii.ascii;        (* the field being read *)
  fields : list string;            (* the fields of the record being read *)
  records : list (list string)     (* the records yielded so far *)
}.

(** [parse_add_char] *)
Definition add_char (r : Reader) (c : Ascii.ascii) (st : parser_state)
  : Reader :=
  mkReader st (field r ++ [c]) (fields r) (records r).

(** [parse_save_field] and the next state. *)
Definition save_field (r : Reader) (st : parser_state) : Reader :=
  mkReader st [] (fields r ++ [String.string_of_list_ascii (field r)])
           (records r).

(** The record ends at the line end [c]: the reader yields its fields. *)
Definition end_record (r : Reader) (c : Ascii.ascii) : Reader :=
  mkReader (if bool_decide (c = CR) then EAT_CRNL else START_RECORD) [] []
           (records r ++ [fields r]).

Definition is_newline (c : Ascii.ascii) : bool :=
  bool_decide (c = CR ∨ c = LF).

Definition start_field (r : Reader) (c : Ascii.ascii) : Reader :=
  if is_newline c then end_record (save_field r START_RECORD) c
  else if bool_decide (c = quotechar) then
    mkReader IN_QUOTED_FIELD (field r) (fields r) (records r)
  else if bool_decide (c = delimiter) then save_field r START_FIELD
  else add_char r c IN_FIELD.

Definition start_record (r : Reader) (c : Ascii.ascii) : Reader :=
  if is_newline c then end_record r c else start_field r c.

(** [parse_process_char], without an escape character, not strict. *)
Definition process_char (r : Reader) (c : Ascii.ascii) : Reader :=
  match state r with
  | START_RECORD => start_record r c
  | START_FIELD => start_field r c
  | IN_FIELD =>
    if is_newline c then end_record (save_field r START_RECORD) c
    else if bool_decide (c = delimiter) then save_field r START_FIELD
    else add_char r c IN_FIELD
  | IN_QUOTED_FIELD =>
    if bool_decide (c = quotechar) then
      mkReader QUOTE_IN_QUOTED_FIELD (field r) (fields r) (records r)
    else add_char r c IN_QUOTED_FIELD
  | QUOTE_IN_QUOTED_FIELD =>
    if bool_decide (c = quotechar) then add_char r c IN_QUOTED_FIELD
    else if bool_decide (c = delimiter) then save_field r START_FIELD
    else if is_newline c then end_record (save_field r START_RECORD) c
    else add_char r c IN_FIELD
  | EAT_CRNL =>
    if bool_decide (c = LF) then
      mkReader START_RECORD (field r) (fields r) (records r)
    else start_record r c
  end.

(** The end of the text: a record that is under way is yielded. *)
Definition end_of_input (r : Reader) : list (list string) :=
  match state r with
  | START_RECORD | EAT_CRNL => records r
  | _ => records r ++ [fields r ++ [String.string_of_list_ascii (field r)]]
  end.

(** The parser after the characters [cs]. *)
Definition feed (r : Reader) (cs : list Ascii.ascii) : Reader :=
  foldl process_char r cs.

(** [list(csv.reader(f))] for a file with the given text. *)
Definition csv_reader (text : string) : list (list string) :=
  end_of_input
    (feed (mkReader START_RECORD [] [] [])
          (String.list_ascii_of_string text)).

(** The text of a file of records. *)
Definition csv_text (rows : list (list string)) : string :=
  foldr (λ row text, csv_writerow row +:+ text) "" rows.

(** The state in which a written field leaves the parser, started at the
    beginning of a field. *)
Definition after_field (s : string) : parser_state :=
  let cs := String.list_ascii_of_string s in
  if existsb needs_quoting cs then QUOTE_IN_QUOTED_FIELD
  else match cs with [] => START_FIELD | _ => IN_FIELD end.

(** The states in which the end of a field can be met. *)
Definition field_open (st : parser_state) : Prop :=
  st = START_FIELD ∨ st = IN_FIELD ∨ st = QUOTE_IN_QUOTED_FIELD.

(** ** File sink: [AirlyCollector.save_to_csv] *)

(** A file on disk is its text; [None] is a path at which no file
    exists. *)
Definition text_file := option string.

(** What the file system does during one call of [save_to_csv]. *)
Inductive file_io :=
| IoOk
| MakedirsFails           (* [os.makedirs] raises [OSError], before the [try] *)
| OpenFails               (* [open] raises [IOError] *)
| WriteFails (n : nat).   (* [IOError] with [n] characters in the file *)

(** [AirlyCollector.save_to_csv]: what it returns or raises, and the file
    afterwards.  The file is opened for appending, so the text goes after
    whatever the file holds. *)
Definition save_to_csv (rt : Runtime) (io : file_io) (file : text_file)
    (m : Measurement) : res bool * text_file :=
  match io with
  | MakedirsFails => (Raise OSError, file)
  | _ =>
    let file_exists := bool_decide (is_Some file) in
    match io with
    | OpenFails => (Val false, file)
    | _ =>
      let text :=
        (if negb file_exists then csv_writerow CSV_HEADERS else "")
        +:+ csv_writerow (csv_field rt <$> to_csv_row m) in
      match io with
      | WriteFails n =>
        (Val false, Some (default "" file +:+ String.substring 0 n text))
      | _ => (Val true, Some (default "" file +:+ text))
      end
    end
  end.

(** ** Forwarding sink: [AirlyCollector.send_to_hsbi] *)

(** [int] to [float], to nearest even. *)
Definition float_of_Z (z : Z) : float :=
  SF2Prim (binary_normalize 53 1024 z 0 false).

(** The literal [0.7]: the binary64 value nearest to it. *)
#[warnings="-inexact-float"]
Definition approximation : float := 0.7%float.

(** [v or 0] *)
Definition or_zero (v : pyval) : pyval := if truthy v then v else VInt 0.

(** [float(z)] for an [int]: too large an [int] raises. *)
Definition py_float_of_int (z : Z) : res float :=
  let x := float_of_Z z in
  if PrimFloat.is_infinity x then Raise OverflowError else Val x.

(** [v * f] for a float [f] *)
Definition py_mul_float (v : pyval) (f : float) : res pyval :=
  match v with
  | VFloat x => Val (VFloat (x * f)%float)
  | VInt z => x ← py_float_of_int z; mret (VFloat (x * f)%float)
  | VBool b => Val (VFloat (float_of_Z (if b then 1 else 0) * f)%float)
  | _ => Raise TypeError
  end.

Definition hsbi_payload (rt : Runtime) (cfg : Config) (m : Measurement)
  : res (gmap string pyval) :=
  pm1 ← py_mul_float (or_zero (m_pm25 m)) approximation;
  mret (
    <["id" := VInt (hsbi_sensor_id cfg)]> $
    <["ts" := VStr (strftime (m_timestamp m))]> $
    <["pos" := VStr ("POINTZ(" +:+ py_str rt (VFloat (latitude cfg)) +:+ " "
                     +:+ py_str rt (VFloat (longitude cfg)) +:+ " "
                     +:+ py_str rt (VFloat (hsbi_altitude cfg)) +:+ ")")]> $
    <["temp" := or_zero (m_temperature m)]> $
    <["hum" := or_zero (m_humidity m)]> $
    <["pres" := or_zero (m_pressure m)]> $
    <["mass_pm2_5" := or_zero (m_pm25 m)]> $
    <["mass_pm10" := or_zero (m_pm10 m)]> $
    <["mass_pm1_0" := pm1]> $
    <["mass_pm4" := or_zero (m_pm10 m)]> $
    <["number_pm0_5" := VInt 0]> $
    <["number_pm1_0" := VInt 0]> $
    <["number_pm2_5" := VInt 0]> $
    <["number_pm4" := VInt 0]> $
    <["number_pm10" := VInt 0]> ∅).

(** [post payload] is whether the POST returned a 2xx status. *)
Definition send_to_hsbi (rt : Runtime) (cfg : Config)
    (post : gmap string pyval → bool) (m : Measurement) : res bool :=
  if String.eqb (hsbi_api_url cfg) "" then mret false
  else payload ← hsbi_payload rt cfg m; mret (post payload).

(** ** Collection cycle: [AirlyCollector.collect_once] *)

(** What surrounds one cycle. *)
Record World := mkWorld {
  http_get : pyval;                      (* the provider's JSON, [VNone] when the GET fails *)
  clock : datetime;                      (* [datetime.now(timezone.utc)] *)
  db_insert : Measurement → res bool;    (* outcome of [save_to_database] *)
  csv_io : file_io;
  csv_on_disk : text_file;
  http_post : gmap string pyval → bool
}.

Inductive sink_call :=
| ToRelational (m : Measurement)
| ToFile (m : Measurement)
| ToForwarding (m : Measurement).

(** [AirlyCollector.fetch_from_airly] *)
Definition fetch_from_airly (cfg : Config) (w : World) : pyval :=
  if String.eqb (airly_api_key cfg) "" then VNone else http_get w.

(** Result of one cycle: the sinks invoked in order, the file afterwards,
    and what [collect_once] returns. *)
Record Cycle := mkCycle {
  calls : list sink_call;
  file_after : text_file;
  returned : res bool
}.

Definition collect_once (rt : Runtime) (cfg : Config) (w : World) : Cycle :=
  let data := fetch_from_airly cfg w in
  if negb (truthy data) then mkCycle [] (csv_on_disk w) (Val false)
  else
    match parse_measurement cfg (clock w) data with
    | Raise e => mkCycle [] (csv_on_disk w) (Raise e)
    | Val None => mkCycle [] (csv_on_disk w) (Val false)
    | Val (Some measurement) =>
      let success := true in
      let '(calls1, stored) :=
        if enable_database cfg then
          ([ToRelational measurement], db_insert w measurement)
        else ([], Val true) in
      match stored with
      | Raise e => mkCycle calls1 (csv_on_disk w) (Raise e)
      | Val stored =>
        let success := if negb stored then false else success in
        let '(calls2, file, saved) :=
          if enable_csv cfg then
            let '(saved, file) :=
              save_to_csv rt (csv_io w) (csv_on_disk w) measurement in
            ([ToFile measurement], file, saved)
          else ([], csv_on_disk w, Val true) in
        match saved with
        | Raise e => mkCycle (calls1 ++ calls2) file (Raise e)
        | Val saved =>
          let success := if negb saved then false else success in
          if enable_hsbi cfg then
            mkCycle (calls1 ++ calls2 ++ [ToForwarding measurement]) file
              (_ ← send_to_hsbi rt cfg (http_post w) measurement;
               mret success)
          else mkCycle (calls1 ++ calls2) file (Val success)
        end
      end
    end.

(** ** Migration engine: [db_setup.migrate_csv] *)


(** The tuple handed to [insert_query]. *)
Record db_row := mkRow {
  datetime_utc : datetime;
  city : option string;
  lat : option float;
  lon : option float;
  r_hour_utc : option Z;
  r_minute_utc : option Z;
  pm25 : option float;
  pm10 : option float;
  temperature : option float;
  humidity : option float;
  pressure : option float;
  aqi : option float;
  station_id : Z
}.

(** The database server as the migration sees it.  On a connection that
    is gone the ROLLBACK fails like every other statement: then
    [rollback_ok] is [false]. *)
Record Server := mkServer {
  connect_ok : bool;               (* [get_db_connection] returns a connection *)
  link_budget : option nat;        (* statements the connection survives; [None]: it never drops *)
  same_city : string → string → bool;   (* [=] on the [city] column under its collation *)
  accepts : db_row → bool;         (* the server takes a row that meets the NOT NULL constraints *)
  rollback_ok : bool               (* a ROLLBACK after a failed commit gets through *)
}.

(** The NOT NULL columns of [SCHEMA_SQL] among those the migration sets. *)
Definition not_null_ok (r : db_row) : bool :=
  bool_decide (is_Some (city r)) && bool_decide (is_Some (lat r))
  && bool_decide (is_Some (lon r)) && bool_decide (is_Some (r_hour_utc r))
  && bool_decide (is_Some (r_minute_utc r)).

#[global] Instance datetime_eq_dec : EqDecision datetime.
Proof. solve_decision. Defined.

(** [WHERE datetime_utc = %s AND city = %s]; a NULL never compares equal. *)
Definition key_matches (srv : Server) (dt : datetime) (c : option string)
    (r : db_row) : bool :=
  bool_decide (datetime_utc r = dt)
  && match city r, c with
     | Some a, Some b => same_city srv a b
     | _, _ => false
     end.

(** [cursor.execute(check_query, (dt, city)); cursor.fetchone()] is truthy. *)
Definition has_key (srv : Server) (tbl : list db_row) (dt : datetime)
    (c : option string) : bool :=
  existsb (key_matches srv dt c) tbl.

(** One statement on the connection: whether it got through, and what is
    left of the budget. *)
Definition execute (budget : option nat) : bool * option nat :=
  match budget with
  | None => (true, None)
  | Some O => (false, Some O)
  | Some (S n) => (true, Some n)
  end.

(** [csv.DictReader]: a row as a dict from column name to field; a column
    the row is too short for maps to [None]. *)
Fixpoint zip_row (fieldnames row : list string)
    (d : gmap string (option string)) : gmap string (option string) :=
  match fieldnames, row with
  | [], _ => d
  | n :: fieldnames, [] => zip_row fieldnames [] (<[n := None]> d)
  | n :: fieldnames, c :: row => zip_row fieldnames row (<[n := Some c]> d)
  end.

Definition DictReader (rows : list (list string))
  : list (gmap string (option string)) :=
  match rows with
  | [] => []
  | fieldnames :: rest =>
    (λ r, zip_row fieldnames r ∅) <$> filter (λ r, r ≠ []) rest
  end.

(** The statements of the [try] block of one row; [None] is an exception
    raised inside it. *)

(** [dt = datetime.strptime(row['datetime_utc'], ...); city = row['city']] *)
Definition parse_key (rt : Runtime) (row : gmap string (option string))
  : option (datetime * option string) :=
  field ← row !! "datetime_utc";
  text ← field;
  dt ← strptime rt text;
  c ← row !! "city";
  Some (dt, c).

(** [float(row[k]) if row[k] else None] *)
Definition float_or_none (rt : Runtime) (row : gmap string (option string))
    (k : string) : option (option float) :=
  field ← row !! k;
  match field with
  | None => Some None
  | Some text =>
    if String.eqb text "" then Some None else x ← py_float rt text; Some (Some x)
  end.

(** [int(row[k]) if row[k] else None] *)
Definition int_or_none (rt : Runtime) (row : gmap string (option string))
    (k : string) : option (option Z) :=
  field ← row !! k;
  match field with
  | None => Some None
  | Some text =>
    if String.eqb text "" then Some None else x ← py_int rt text; Some (Some x)
  end.

(** [int(row.get('station_id', D)) if row.get('station_id') else D] *)
Definition station_or_default (rt : Runtime) (dflt : Z)
    (row : gmap string (option string)) : option Z :=
  match row !! "station_id" with
  | Some (Some text) => if String.eqb text "" then Some dflt else py_int rt text
  | _ => Some dflt
  end.

Definition parse_values (rt : Runtime) (dflt : Z)
    (row : gmap string (option string)) (dt : datetime) (c : option string)
  : option db_row :=
  la ← float_or_none rt row "lat";
  lo ← float_or_none rt row "lon";
  h ← int_or_none rt row "hour_utc";
  mi ← int_or_none rt row "minute_utc";
  p25 ← float_or_none rt row "PM25";
  p10 ← float_or_none rt row "PM10";
  te ← float_or_none rt row "TEMPERATURE";
  hu ← float_or_none rt row "HUMIDITY";
  pr ← float_or_none rt row "PRESSURE";
  aq ← float_or_none rt row "AQI";
  st ← station_or_default rt dflt row;
  Some (mkRow dt c la lo h mi p25 p10 te hu pr aq st).

(** The transaction while the file is read. *)
Record Txn := mkTxn {
  table : list db_row;        (* the rows this connection sees *)
  budget : option nat;
  rows_imported : nat;
  rows_skipped : nat;
  rows_duplicate : nat
}.

Definition skip_row (b : option nat) (st : Txn) : Txn :=
  mkTxn (table st) b (rows_imported st) (S (rows_skipped st)) (rows_duplicate st).
Definition duplicate_row (b : option nat) (st : Txn) : Txn :=
  mkTxn (table st) b (rows_imported st) (rows_skipped st) (S (rows_duplicate st)).
Definition import_row (b : option nat) (values : db_row) (st : Txn) : Txn :=
  mkTxn (table st ++ [values]) b (S (rows_imported st)) (rows_skipped st)
        (rows_duplicate st).

(** The body of [for row in reader]. *)
Definition migrate_row (rt : Runtime) (srv : Server) (dflt : Z)
    (skip_duplicates : bool) (st : Txn) (row : gmap string (option string))
  : Txn :=
  match parse_key rt row with
  | None => skip_row (budget st) st
  | Some (dt, c) =>
    let '(probe, b) :=
      if skip_duplicates then
        let '(ok, b) := execute (budget st) in
        ((if ok then Some (has_key srv (table st) dt c) else None), b)
      else (Some false, budget st) in
    match probe with
    | None => skip_row b st
    | Some true => duplicate_row b st
    | Some false =>
      match parse_values rt dflt row dt c with
      | None => skip_row b st
      | Some values =>
        let '(ok, b) := execute b in
        if ok && not_null_ok values && accepts srv values
        then import_row b values st
        else skip_row b st
      end
    end
  end.

(** The three counts the engine logs after the commit. *)
Record Counts := mkCounts { imported : nat; duplicate : nat; skipped : nat }.

Record Migration := mkMigration {
  succeeded : res bool;           (* what is returned, or the exception *)
  reported : option Counts;       (* logged only after a commit *)
  stored : list db_row            (* the committed table afterwards *)
}.

(** [migrate_csv]; [db] is the committed table beforehand, [file] the CSV
    file at the path.  When the commit fails the [except] block rolls
    back, outside any [try]: a rollback that fails as well leaves the
    function as [MySQLError]. *)
Definition migrate_csv (rt : Runtime) (srv : Server) (dflt : Z)
    (db : list db_row) (file : csv_file) (skip_duplicates : bool) : Migration :=
  match file with
  | None => mkMigration (Val false) None db
  | Some rows =>
    if negb (connect_ok srv) then mkMigration (Val false) None db
    else
      let st :=
        foldl (migrate_row rt srv dflt skip_duplicates)
              (mkTxn db (link_budget srv) 0 0 0) (DictReader rows) in
      let '(ok, _) := execute (budget st) in
      if ok then
        mkMigration (Val true)
          (Some (mkCounts (rows_imported st) (rows_duplicate st) (rows_skipped st)))
          (table st)
      else if rollback_ok srv then mkMigration (Val false) None db
      else mkMigration (Raise MySQLError) None db
  end.

(** ** A reference runtime

    Executable stand-ins for the built-ins of [Runtime], used to run the
    programs on concrete inputs.  On ASCII text they follow CPython:
    [int] and [float] strip white space and read a sign and decimal digits
    (no digit-group underscores); [float] rounds to nearest even; [str] of a
    float is the shortest decimal that reads back; [strptime] reads the
    format ["%Y-%m-%d %H:%M:%S"] and validates the date.  [str] of a list or
    a dict is not implemented. *)
Module Reference.

Definition is_space (c : Ascii.ascii) : bool :=
  let n := Ascii.nat_of_ascii c in
  bool_decide (n = 32 ∨ 9 ≤ n ≤ 13)%nat.

Fixpoint lstrip (cs : list Ascii.ascii) : list Ascii.ascii :=
  match cs with
  | c :: cs' => if is_space c then lstrip cs' else cs
  | [] => []
  end.

Definition strip (cs : list Ascii.ascii) : list Ascii.ascii :=
  reverse (lstrip (reverse (lstrip cs))).

Definition digit_value (c : Ascii.ascii) : option Z :=
  let n := Z.of_nat (Ascii.nat_of_ascii c) in
  if bool_decide (48 ≤ n ≤ 57) then Some (n - 48) else None.

(** Reads at most [width] leading digits: their value, how many were read,
    and the rest. *)
Fixpoint read_digits (width : nat) (cs : list Ascii.ascii) (acc : Z) (n : nat)
  : Z * nat * list Ascii.ascii :=
  match width, cs with
  | S width, c :: cs' =>
    match digit_value c with
    | Some d => read_digits width cs' (10 * acc + d) (S n)
    | None => (acc, n, cs)
    end
  | _, _ => (acc, n, cs)
  end.

Definition read_all_digits (cs : list Ascii.ascii) :=
  read_digits (length cs) cs 0 0.

Definition read_sign (cs : list Ascii.ascii) : bool * list Ascii.ascii :=
  match cs with
  | "-"%char :: cs' => (true, cs')
  | "+"%char :: cs' => (false, cs')
  | _ => (false, cs)
  end.

(** [int(s)] *)
Definition int_of_string (s : string) : option Z :=
  let '(neg, cs) := read_sign (strip (String.list_ascii_of_string s)) in
  match read_all_digits cs with
  | (v, S _, []) => Some (if neg : bool then - v else v)
  | _ => None
  end.

(** The float nearest to [a / b], for [0 ≤ a] and [0 < b]. *)
Definition float_of_ratio (neg : bool) (a b : Z) : float :=
  let p := Z.max 0 (64 + Z.log2 b - Z.log2 a) in
  let q := (a * 2 ^ p) `div` b in
  let sticky := if Z.eqb ((a * 2 ^ p) `mod` b) 0 then 0 else 1 in
  let m := 2 * q + sticky in
  SF2Prim (binary_normalize 53 1024 (if neg then - m else m) (- p - 1) neg).

Definition lower (c : Ascii.ascii) : Ascii.ascii :=
  let n := Ascii.nat_of_ascii c in
  if bool_decide (65 ≤ n ≤ 90)%nat then Ascii.ascii_of_nat (n + 32) else c.

Definition read_exponent (cs : list Ascii.ascii) : option Z :=
  match cs with
  | [] => Some 0
  | c :: cs' =>
    if bool_decide (lower c = "e"%char) then
      let '(neg, ds) := read_sign cs' in
      match read_all_digits ds with
      | (v, S _, []) => Some (if neg : bool then - v else v)
      | _ => None
      end
    else None
  end.

(** [float(s)] *)
Definition float_of_string (s : string) : option float :=
  let '(neg, cs) := read_sign (strip (String.list_ascii_of_string s)) in
  let word := String.string_of_list_ascii (lower <$> cs) in
  if bool_decide (word = "inf" ∨ word = "infinity") then
    Some (if neg then neg_infinity else infinity)
  else if bool_decide (word = "nan") then Some nan
  else
    let '(v1, n1, rest) := read_all_digits cs in
    let '(v2, n2, rest) :=
      match rest with
      | "."%char :: rest' => read_all_digits rest'
      | _ => (0, O, rest)
      end in
    if bool_decide (n1 + n2 = 0)%nat then None
    else
      e ← read_exponent rest;
      let mant := v1 * 10 ^ Z.of_nat n2 + v2 in
      let e10 := e - Z.of_nat n2 in
      Some (if 0 <=? e10 then float_of_ratio neg (mant * 10 ^ e10) 1
            else float_of_ratio neg mant (10 ^ (- e10))).

(** [a / b < 10 ^ k] *)
Definition below_pow10 (a b k : Z) : bool :=
  if 0 <=? k then a <? b * 10 ^ k else a * 10 ^ (- k) <? b.

Fixpoint decimal_point (fuel : nat) (a b k : Z) : Z :=
  match fuel with
  | O => k
  | S fuel => if below_pow10 a b k then k else decimal_point fuel a b (k + 1)
  end.

(** The [n]-digit decimals next to [a / b]: the nearest first. *)
Definition round_digits (a b k : Z) (n : Z) : list Z :=
  let num := a * 10 ^ Z.max 0 (n - k) in
  let den := b * 10 ^ Z.max 0 (k - n) in
  let q := num `div` den in
  let r := num `mod` den in
  if 2 * r <? den then [q; q + 1]
  else if den <? 2 * r then [q + 1; q]
  else if Z.even q then [q; q + 1] else [q + 1; q].

Definition reads_back (x : float) (k n c : Z) : bool :=
  let y := if 0 <=? k - n then float_of_ratio false (c * 10 ^ (k - n)) 1
           else float_of_ratio false c (10 ^ (n - k)) in
  PrimFloat.eqb x y.

(** The shortest digit string that reads back as [x], with the number of
    digits it was rounded to. *)
Fixpoint shortest (fuel : nat) (x : float) (a b k n : Z) : Z * Z :=
  match fuel with
  | O => (hd 0 (round_digits a b k n), n)
  | S fuel =>
    match filter (λ c, reads_back x k n c = true) (round_digits a b k n) with
    | c :: _ => (c, n)
    | [] => shortest fuel x a b k (n + 1)
    end
  end.

Fixpoint drop_zeros (fuel : nat) (c : Z) : Z :=
  match fuel with
  | O => c
  | S fuel => if Z.eqb (c `mod` 10) 0 then drop_zeros fuel (c `div` 10) else c
  end.

Definition zeros (n : Z) : string :=
  String.string_of_list_ascii (replicate (Z.to_nat n) "0"%char).

(** [repr] of the digits [ds] with the decimal point after [pt] of them. *)
Definition format_float (ds : string) (pt : Z) : string :=
  let len := Z.of_nat (String.length ds) in
  if bool_decide (-4 < pt ≤ 16) then
    if pt <=? 0 then "0." +:+ zeros (- pt) +:+ ds
    else if len <=? pt then ds +:+ zeros (pt - len) +:+ ".0"
    else String.substring 0 (Z.to_nat pt) ds +:+ "."
         +:+ String.substring (Z.to_nat pt) (Z.to_nat (len - pt)) ds
  else
    let e := pt - 1 in
    String.substring 0 1 ds
    +:+ (if 1 <? len then "." +:+ String.substring 1 (Z.to_nat (len - 1)) ds
         else "")
    +:+ "e" +:+ (if e <? 0 then "-" else "+")
    +:+ (if Z.abs e <? 10 then "0" else "") +:+ pretty (Z.abs e).

(** [repr(x)] *)
Definition string_of_float (x : float) : string :=
  match Prim2SF x with
  | S754_nan => "nan"
  | S754_infinity s => if s then "-inf" else "inf"
  | S754_zero s => if s then "-0.0" else "0.0"
  | S754_finite s m e =>
    let a := if 0 <=? e then Z.pos m * 2 ^ e else Z.pos m in
    let b := if 0 <=? e then 1 else 2 ^ (- e) in
    let k := decimal_point 700 a b (-330) in
    let '(c, n) := shortest 16 (PrimFloat.abs x) a b k 1 in
    let ds := pretty (drop_zeros 20 c) in
    let pt := k + (Z.of_nat (String.length (pretty c)) - n) in
    (if s then "-" else "") +:+ format_float ds pt
  end.

(** [str(v)] *)
Definition string_of_value (v : pyval) : string :=
  match v with
  | VNone => "None"
  | VBool b => if b then "True" else "False"
  | VInt z => pretty z
  | VFloat x => string_of_float x
  | VStr s => s
  | VList _ | VDict _ => ""
  end.

Definition is_leap (y : Z) : bool :=
  Z.eqb (y `mod` 4) 0 && (negb (Z.eqb (y `mod` 100) 0) || Z.eqb (y `mod` 400) 0).

Definition days_in_month (y m : Z) : Z :=
  if Z.eqb m 2 then (if is_leap y then 29 else 28)
  else if bool_decide (m = 4 ∨ m = 6 ∨ m = 9 ∨ m = 11) then 30 else 31.

(** A numeric field of at most two digits, then the rest. *)
Definition read_field (cs : list Ascii.ascii) : option (Z * list Ascii.ascii) :=
  match read_digits 2 cs 0 0 with
  | (v, S _, rest) => Some (v, rest)
  | _ => None
  end.

Definition expect (c : Ascii.ascii) (cs : list Ascii.ascii)
  : option (list Ascii.ascii) :=
  match cs with
  | c' :: rest => if bool_decide (c' = c) then Some rest else None
  | [] => None
  end.

(** [datetime.strptime(s, "%Y-%m-%d %H:%M:%S")] *)
Definition strptime (s : string) : option datetime :=
  let cs := String.list_ascii_of_string s in
  '(y, rest) ← match read_digits 4 cs 0 0 with
               | (v, 4%nat, rest) => Some (v, rest)
               | _ => None
               end;
  rest ← expect "-"%char rest;
  '(mo, rest) ← read_field rest;
  rest ← expect "-"%char rest;
  '(d, rest) ← match rest with
               | " "%char :: rest' =>
                 match read_digits 1 rest' 0 0 with
                 | (v, 1%nat, rest'') => Some (v, rest'')
                 | _ => None
                 end
               | _ => read_field rest
               end;
  rest ← match rest with
         | c :: rest' => if is_space c then Some (lstrip rest') else None
         | [] => None
         end;
  '(h, rest) ← read_field rest;
  rest ← expect ":"%char rest;
  '(mi, rest) ← read_field rest;
  rest ← expect ":"%char rest;
  '(sec, rest) ← read_field rest;
  if bool_decide (rest = [] ∧ 1 ≤ y ∧ 1 ≤ mo ≤ 12 ∧ 1 ≤ d ≤ days_in_month y mo
                  ∧ h ≤ 23 ∧ mi ≤ 59 ∧ sec ≤ 59)
  then Some (mkDatetime y mo d h mi sec 0)
  else None.

Definition runtime : Runtime :=
  mkRuntime string_of_value float_of_string int_of_string strptime.

(** A server that never drops the connection, compares city names
    exactly, and takes every row that meets the NOT NULL constraints. *)
Definition server : Server :=
  mkServer true None String.eqb (λ _, true) true.

End Reference.

(** ** Definitions used to state the properties *)

Definition with_post (w : World) (post : gmap string pyval → bool) : World :=
  mkWorld (http_get w) (clock w) (db_insert w) (csv_io w) (csv_on_disk w) post.

(** What [save_to_csv] returns or raises in world [w]. *)
Definition file_sink_ok (rt : Runtime) (w : World) (m : Measurement)
  : res bool :=
  (save_to_csv rt (csv_io w) (csv_on_disk w) m).1.

(** What the store sink and the file sink come to in world [w], a sink
    that is disabled counting as one that returned [True]. *)
Definition store_outcome (cfg : Config) (w : World) (m : Measurement)
  : res bool :=
  if enable_database cfg then db_insert w m else Val true.

Definition file_outcome (rt : Runtime) (cfg : Config) (w : World)
    (m : Measurement) : res bool :=
  if enable_csv cfg then file_sink_ok rt w m else Val true.

(** The PM2.5 reading is of the type [Measurement] declares:
    [Optional[float]]. *)
Definition pm25_as_declared (m : Measurement) : Prop :=
  m_pm25 m = VNone ∨ ∃ x, m_pm25 m = VFloat x.

(** The payload has no "current" section with a values list: the section
    is absent or falsy, or it is a dict whose "values" entry is absent or
    falsy. *)
Definition current_missing (d : gmap string pyval) : bool :=
  match d !! "current" with
  | None => true
  | Some (VDict c) =>
    match c !! "values" with None => true | Some vs => negb (truthy vs) end
  | Some cur => negb (truthy cur)
  end.


(** Runs the dictionary and sequencing steps whose operands are known. *)
Ltac py_step :=
  cbn [py_get py_getitem py_getitem0 py_len py_iter
       mbind mret res_bind res_ret from_option id negb].

(** An entry [{"name": n, "value": x}] of a values list, [n] a string. *)
Definition entry_of (v : pyval) : option (string * pyval) :=
  match v with
  | VDict e =>
    match e !! "name", e !! "value" with
    | Some (VStr n), Some x => Some (n, x)
    | _, _ => None
    end
  | _ => None
  end.

(** The specification's reading of the flattening: the value of the last
    entry called [name], if there is one. *)
Fixpoint last_occurrence (name : string) (entries : list (string * pyval))
  : option pyval :=
  match entries with
  | [] => None
  | (n, x) :: rest =>
    match last_occurrence name rest with
    | Some y => Some y
    | None => if decide (n = name) then Some x else None
    end
  end.

(** The value names the normalizer maps into a [Measurement]. *)
Definition known_names : list string :=
  ["PM25"; "PM10"; "TEMPERATURE"; "HUMIDITY"; "PRESSURE"].

Definition is_known (name : string) : bool :=
  bool_decide (name ∈ known_names).

(** The specification's reading of the index: the "value" of the first
    entry of "indexes", [None] when there is no entry. *)
Definition first_index (src : gmap string pyval) : pyval :=
  match src !! "indexes" with
  | Some (VList (VDict i0 :: _)) => default VNone (i0 !! "value")
  | _ => VNone
  end.

(** "indexes" is absent, falsy, or a list that starts with a dict. *)
Definition indexes_well_formed (src : gmap string pyval) : bool :=
  match src !! "indexes" with
  | None => true
  | Some (VList (VDict _ :: _)) => true
  | Some i => negb (truthy i)
  end.


(** The row [save_to_csv] appends for [m]. *)
Definition csv_row (rt : Runtime) (m : Measurement) : list string :=
  csv_field rt <$> to_csv_row m.

(** Every optional reading of [m] is absent. *)
Definition all_absent (m : Measurement) : Prop :=
  m_pm25 m = VNone ∧ m_pm10 m = VNone ∧ m_temperature m = VNone
  ∧ m_humidity m = VNone ∧ m_pressure m = VNone ∧ m_aqi m = VNone.


(** The text of the file after the file sink has appended [ms], starting
    from no file. *)
Definition written_text (rt : Runtime) (ms : list Measurement) : text_file :=
  foldl (λ file m, (save_to_csv rt IoOk file m).2) None ms.

(** The file after the file sink has appended [ms], starting from no
    file, as [csv.reader] reads it. *)
Definition written (rt : Runtime) (ms : list Measurement) : csv_file :=
  csv_reader <$> written_text rt ms.


(** [str] then [float] gives the float back, and [str] is not empty. *)
Definition reads_back_float (rt : Runtime) (x : float) : Prop :=
  py_str rt (VFloat x) ≠ "" ∧ py_float rt (py_str rt (VFloat x)) = Some x.

Definition reads_back_int (rt : Runtime) (z : Z) : Prop :=
  py_str rt (VInt z) ≠ "" ∧ py_int rt (py_str rt (VInt z)) = Some z.

(** An optional reading is absent or a float that reads back. *)
Definition reading_reads_back (rt : Runtime) (v : pyval) : Prop :=
  match v with
  | VNone => True
  | VFloat x => reads_back_float rt x
  | _ => False
  end.

(** [t] without its microsecond. *)
Definition to_seconds (t : datetime) : datetime :=
  mkDatetime (year t) (month t) (day t) (hour t) (minute t) (second t) 0.

(** The built-ins read back what they wrote for [m]. *)
Definition reads_back (rt : Runtime) (m : Measurement) : Prop :=
  strptime rt (strftime (m_timestamp m)) = Some (to_seconds (m_timestamp m))
  ∧ reads_back_float rt (m_latitude m) ∧ reads_back_float rt (m_longitude m)
  ∧ reads_back_int rt (hour_utc m) ∧ reads_back_int rt (minute_utc m)
  ∧ reading_reads_back rt (m_pm25 m) ∧ reading_reads_back rt (m_pm10 m)
  ∧ reading_reads_back rt (m_temperature m)
  ∧ reading_reads_back rt (m_humidity m)
  ∧ reading_reads_back rt (m_pressure m) ∧ reading_reads_back rt (m_aqi m).

Definition reading (v : pyval) : option float :=
  match v with VFloat x => Some x | _ => None end.

(** The tuple the migration builds from the row written for [m]. *)
Definition migrated_row (dflt : Z) (m : Measurement) : db_row :=
  mkRow (to_seconds (m_timestamp m)) (Some (m_city m))
    (Some (m_latitude m)) (Some (m_longitude m))
    (Some (hour_utc m)) (Some (minute_utc m))
    (reading (m_pm25 m)) (reading (m_pm10 m)) (reading (m_temperature m))
    (reading (m_humidity m)) (reading (m_pressure m)) (reading (m_aqi m))
    dflt.

(** What one row comes to: the spec's tagged outcome. *)
Inductive outcome :=
| Imported (values : db_row)
| Duplicate
| Skipped.

(** The row parses and the server takes it. *)
Definition insertable (rt : Runtime) (srv : Server) (dflt : Z)
    (row : gmap string (option string)) : option db_row :=
  '(dt, c) ← parse_key rt row;
  v ← parse_values rt dflt row dt c;
  if not_null_ok v && accepts srv v then Some v else None.

(** The identity key of the row is in the table. *)
Definition is_duplicate (rt : Runtime) (srv : Server) (tbl : list db_row)
    (row : gmap string (option string)) : bool :=
  match parse_key rt row with
  | Some (dt, c) => has_key srv tbl dt c
  | None => false
  end.

Definition classify (rt : Runtime) (srv : Server) (dflt : Z)
    (tbl : list db_row) (row : gmap string (option string)) : outcome :=
  match parse_key rt row with
  | None => Skipped
  | Some _ =>
    if is_duplicate rt srv tbl row then Duplicate
    else match insertable rt srv dflt row with
         | Some v => Imported v
         | None => Skipped
         end
  end.

Definition apply_outcome (st : Txn) (o : outcome) : Txn :=
  match o with
  | Imported v => import_row None v st
  | Duplicate => duplicate_row None st
  | Skipped => skip_row None st
  end.

(** The loop with duplicate detection, as a fold of outcomes. *)
Definition run (rt : Runtime) (srv : Server) (dflt : Z) (st : Txn)
    (rows : list (gmap string (option string))) : Txn :=
  foldl (λ st row, apply_outcome st (classify rt srv dflt (table st) row))
        st rows.

Fixpoint count_duplicates (rt : Runtime) (srv : Server) (tbl : list db_row)
    (rows : list (gmap string (option string))) : nat :=
  match rows with
  | [] => 0
  | row :: rest =>
    ((if is_duplicate rt srv tbl row then 1 else 0)
     + count_duplicates rt srv tbl rest)%nat
  end.

(** Two identity keys compare equal: the stored one first. *)
Definition key_eq (srv : Server) (k k' : datetime * option string) : bool :=
  bool_decide (k.1 = k'.1)
  && match k.2, k'.2 with
     | Some a, Some b => same_city srv a b
     | _, _ => false
     end.

(** No two keys of the list compare equal. *)
Fixpoint distinct_keys (srv : Server) (ks : list (datetime * option string))
  : bool :=
  match ks with
  | [] => true
  | k :: rest =>
    forallb (λ k', negb (key_eq srv k k') && negb (key_eq srv k' k)) rest
    && distinct_keys srv rest
  end.

(** No key of the list is in the table. *)
Definition fresh_keys (srv : Server) (tbl : list db_row)
    (ks : list (datetime * option string)) : bool :=
  forallb (λ k, negb (has_key srv tbl k.1 k.2)) ks.

(** The identity keys of the rows of a file that have one. *)
Definition file_keys (rt : Runtime) (rows : list (list string))
  : list (datetime * option string) :=
  omap (parse_key rt) (DictReader rows).

(** No row of [new] has the key of a row stored before it. *)
Fixpoint fresh_inserts (srv : Server) (tbl new : list db_row) : bool :=
  match new with
  | [] => true
  | v :: rest =>
    negb (has_key srv tbl (datetime_utc v) (city v))
    && fresh_inserts srv (tbl ++ [v]) rest
  end.

(** The counters do not steer the loop: two transactions with the same
    table and budget treat a batch alike. *)
Definition same_store (a b : Txn) : Prop :=
  table a = table b ∧ budget a = budget b.

Definition same_progress (a a' b b' : Txn) : Prop :=
  (rows_imported a' + rows_imported b = rows_imported b' + rows_imported a)%nat
  ∧ (rows_duplicate a' + rows_duplicate b
     = rows_duplicate b' + rows_duplicate a)%nat
  ∧ (rows_skipped a' + rows_skipped b = rows_skipped b' + rows_skipped a)%nat.

(** ** Concrete inputs *)

Module Example.

Definition config : Config :=
  mkConfig "key" 3387 54.375%float 18.625%float "Gdansk"
           true false "https://hsbi.example/ingest" 1 10%float true.

Definition now : datetime := mkDatetime 2024 5 1 12 30 7 250000.

Definition entry (name : string) (x : pyval) : pyval :=
  VDict (<["name" := VStr name]> (<["value" := x]> ∅)).

(** PM25 occurs twice; NO2 is not a known name. *)
Definition items : list pyval :=
  [ entry "PM25" (VFloat 10%float); entry "PM10" (VFloat 20.5%float);
    entry "PM25" (VFloat 12.5%float); entry "NO2" (VFloat 3%float) ].

Definition entries : list (string * pyval) :=
  [ ("PM25", VFloat 10%float); ("PM10", VFloat 20.5%float);
    ("PM25", VFloat 12.5%float); ("NO2", VFloat 3%float) ].

Definition indexes : list pyval := [ entry "AIRLY_CAQI" (VFloat 35.25%float) ].

Definition current : gmap string pyval :=
  <["values" := VList items]> (<["indexes" := VList indexes]> ∅).

Definition old : pyval :=
  VDict (<["values" := VList (entry "PM25" (VFloat 99%float) :: nil)]> ∅).

(** A payload with both sections. *)
Definition payload : gmap string pyval :=
  <["current" := VDict current]> (<["history" := VList (old :: nil)]> ∅).

(** The store takes the row, the file sink is disabled, the POST fails. *)
Definition world : World :=
  mkWorld (VDict payload) now (λ _, Val true) IoOk None (λ _, false).

Definition measurement : Measurement :=
  mkMeasurement now "Gdansk" 54.375%float 18.625%float
    (VFloat 12.5%float) (VFloat 20.5%float) VNone VNone VNone
    (VFloat 35.25%float) (Some 3387).

(** No optional reading, and a station other than the default. *)
Definition bare : Measurement :=
  mkMeasurement now "Gdansk" 54.375%float 18.625%float
    VNone VNone VNone VNone VNone VNone (Some 42).

Definition row_a : list string :=
  [ "2024-05-01 12:00:00"; "Gdansk"; "54.375"; "18.625"; "12"; "0";
    "10.0"; "20.0"; ""; ""; ""; "30.0" ].

(** The key of [row_a], another PM2.5. *)
Definition row_b : list string :=
  [ "2024-05-01 12:00:00"; "Gdansk"; "54.375"; "18.625"; "12"; "0";
    "99.9"; "20.0"; ""; ""; ""; "30.0" ].

Definition row_c : list string :=
  [ "2024-05-01 14:00:00"; "Gdansk"; "54.375"; "18.625"; "14"; "0";
    "11.0"; "21.0"; ""; ""; ""; "31.0" ].

(** A latitude that is not a number. *)
Definition row_bad : list string :=
  [ "2024-05-01 13:00:00"; "Gdansk"; "north"; "18.625"; "13"; "0";
    ""; ""; ""; ""; ""; "" ].

Definition stored_a : db_row :=
  mkRow (mkDatetime 2024 5 1 12 0 0 0) (Some "Gdansk")
    (Some 54.375%float) (Some 18.625%float) (Some 12) (Some 0)
    (Some 10%float) (Some 20%float) None None None (Some 30%float) 3387.

(** [row_a] twice under two values of PM2.5. *)
Definition repeated_file : csv_file := Some [CSV_HEADERS; row_a; row_b].

Definition distinct_file : csv_file :=
  Some [CSV_HEADERS; row_a; row_bad; row_c].

End Example.

(** ** Entry point and loop: [main], [AirlyCollector.run] *)

(** The exit status of [main] when [sys.argv[1] == "--once"]: [sys.exit(1)]
    on [False]; an exception that [collect_once] raises is not caught and
    ends the process with status 1 as well. *)
Definition main_once (rt : Runtime) (cfg : Config) (w : World) : Z :=
  match returned (collect_once rt cfg w) with
  | Val true => 0
  | Val false => 1
  | Raise _ => 1
  end.


(** One of the three lines [run] logs after a cycle. *)
Inductive cycle_log :=
| LogSuccessful
| LogFailed
| LogUnexpected (e : exn).

(** [w] with [file] at the CSV path. *)
Definition on_disk (w : World) (file : text_file) : World :=
  mkWorld (http_get w) (clock w) (db_insert w) (csv_io w) file (http_post w).

Module AirlyCollector.

(** The body of [while True] in [run], up to the sleep: [try] the cycle,
    log its outcome, and catch whatever it raises. *)
Definition run_iteration (rt : Runtime) (cfg : Config) (w : World)
  : cycle_log * text_file :=
  let cycle := collect_once rt cfg w in
  (match returned cycle with
   | Val true => LogSuccessful
   | Val false => LogFailed
   | Raise e => LogUnexpected e
   end,
   file_after cycle).

(** The first iterations of [run], one world for each: what the cycle
    meets, except that the file on disk is the one the iterations before
    left.  Gives the lines logged and the file afterwards. *)
Fixpoint run (rt : Runtime) (cfg : Config) (ws : list World)
    (file : text_file) : list cycle_log * text_file :=
  match ws with
  | [] => ([], file)
  | w :: ws =>
    let '(line, file) := run_iteration rt cfg (on_disk w file) in
    let '(lines, file) := run rt cfg ws file in
    (line :: lines, file)
  end.

End AirlyCollector.

(** [file'] is [file] with text appended: what [file] held is still
    there, at the start. *)
Definition extends_file (file file' : text_file) : Prop :=
  file' = file ∨ ∃ text, file' = Some (default "" file +:+ text).

(** [file'] is [file] with whole records of twelve fields appended, after
    the header when [file] is absent. *)
Definition appends_records (file file' : text_file) : Prop :=
  match file with
  | None =>
    file' = None
    ∨ ∃ new, Forall (λ r, length r = 12%nat) new
        ∧ file' = Some (csv_text (CSV_HEADERS :: new))
  | Some text =>
    ∃ new, Forall (λ r, length r = 12%nat) new
      ∧ file' = Some (text +:+ csv_text new)
  end.

(** No write to the file is cut short in world [w]. *)
Definition writes_whole (w : World) : Prop :=
  match csv_io w with WriteFails _ => False | _ => True end.

(** The fields of the forwarded payload. *)
Definition payload_fields : list string :=
  [ "id"; "ts"; "pos"; "temp"; "hum"; "pres"; "mass_pm2_5"; "mass_pm10";
    "mass_pm1_0"; "mass_pm4"; "number_pm0_5"; "number_pm1_0"; "number_pm2_5";
    "number_pm4"; "number_pm10" ].


(** ** Relational sink: [AirlyCollector.save_to_database] *)

(** The parameters of the INSERT statement. *)
Record sink_row := mkSinkRow {
  sr_datetime_utc : datetime;
  sr_city : string;
  sr_lat : float;
  sr_lon : float;
  sr_hour_utc : Z;
  sr_minute_utc : Z;
  sr_pm25 : pyval;
  sr_pm10 : pyval;
  sr_temperature : pyval;
  sr_humidity : pyval;
  sr_pressure : pyval;
  sr_aqi : pyval;
  sr_station_id : option Z
}.

Definition insert_params (m : Measurement) : sink_row :=
  mkSinkRow (m_timestamp m) (m_city m) (m_latitude m) (m_longitude m)
    (hour_utc m) (minute_utc m)
    (m_pm25 m) (m_pm10 m) (m_temperature m) (m_humidity m) (m_pressure m)
    (m_aqi m) (m_station_id m).

(** The calls made on the connector, in order. *)
Inductive db_call :=
| CallConnect
| CallCursor
| CallExecute (row : sink_row)
| CallCommit
| CallRollback
| CallCursorClose
| CallClose.

(** Which of the calls of one delivery go through; the others raise
    [MySQLError]. *)
Record Session := mkSession {
  connects : bool;
  opens_cursor : bool;
  executes : bool;
  commits : bool;
  rolls_back : bool
}.

(** [save_to_database] returns, or the [MySQLError] of [conn.rollback()]
    leaves the [except] block. *)
Inductive delivery :=
| Returned (ok : bool)
| Propagated.

(** [save_to_database]: the result, the calls made, and the committed
    table afterwards. *)
Definition save_to_database (ss : Session) (tbl : list sink_row)
    (m : Measurement) : delivery * list db_call * list sink_row :=
  if negb (connects ss) then (Returned false, [CallConnect], tbl)
  else
    (* try *)
    let '(done, cursor, calls) :=
      if negb (opens_cursor ss) then (false, false, [CallCursor])
      else if negb (executes ss) then
        (false, true, [CallCursor; CallExecute (insert_params m)])
      else
        (commits ss, true,
         [CallCursor; CallExecute (insert_params m); CallCommit]) in
    (* except MySQLError *)
    let '(result, calls) :=
      if done : bool then (Returned true, calls)
      else ((if rolls_back ss then Returned false else Propagated),
            calls ++ [CallRollback]) in
    (* finally *)
    (result,
     CallConnect :: calls
       ++ (if cursor : bool then [CallCursorClose] else []) ++ [CallClose],
     if done then tbl ++ [insert_params m] else tbl).

Definition is_call (c c' : db_call) : bool :=
  match c, c' with
  | CallConnect, CallConnect | CallCursor, CallCursor
  | CallExecute _, CallExecute _ | CallCommit, CallCommit
  | CallRollback, CallRollback | CallCursorClose, CallCursorClose
  | CallClose, CallClose => true
  | _, _ => false
  end.

(** How often a call of the kind of [c] was made. *)
Definition times (c : db_call) (calls : list db_call) : nat :=
  length (filter (λ c', is_call c c' = true) calls).


(** ** Schema bootstrap: [db_setup] *)

(** The MariaDB server as [db_setup] meets it: whether it can be reached,
    and the database [DB_NAME] on it: [None] when there is none,
    [Some None] when it has no [measurements] table, [Some (Some rows)]
    otherwise.  [permits] tells whether the server executes the statements
    of the account; where it does not, [execute] raises [MySQLError]. *)
Record Mysql := mkMysql {
  reachable : bool;
  permits : bool;
  database : option (option (list db_row))
}.

(** [get_db_connection(database)]: whether a connection is returned.
    Connecting to a database that does not exist is refused. *)
Definition get_db_connection (use_db_name : bool) (s : Mysql) : bool :=
  reachable s && (negb use_db_name || bool_decide (is_Some (database s))).

(** [check_connection] *)
Definition check_connection (s : Mysql) : bool := get_db_connection true s.



(** Lexicographic order on the fields of a [datetime], as DATETIME values
    compare. *)
Fixpoint lex_leb (a b : list Z) : bool :=
  match a, b with
  | [], _ => true
  | _ :: _, [] => false
  | x :: a', y :: b' => (x <? y) || ((x =? y) && lex_leb a' b')
  end.

Definition datetime_fields (t : datetime) : list Z :=
  [year t; month t; day t; hour t; minute t; second t; microsecond t].

Definition datetime_leb (a b : datetime) : bool :=
  lex_leb (datetime_fields a) (datetime_fields b).

(** [MIN(datetime_utc)] and [MAX(datetime_utc)]: NULL on an empty table. *)
Fixpoint min_datetime (rows : list db_row) : option datetime :=
  match rows with
  | [] => None
  | r :: rest =>
    match min_datetime rest with
    | None => Some (datetime_utc r)
    | Some t => Some (if datetime_leb (datetime_utc r) t then datetime_utc r else t)
    end
  end.

Fixpoint max_datetime (rows : list db_row) : option datetime :=
  match rows with
  | [] => None
  | r :: rest =>
    match max_datetime rest with
    | None => Some (datetime_utc r)
    | Some t => Some (if datetime_leb t (datetime_utc r) then datetime_utc r else t)
    end
  end.

(** The dict [get_table_info] returns. *)
Record table_info := mkTableInfo {
  row_count : nat;
  first_record : option datetime;
  last_record : option datetime
}.

(** [get_table_info]: [None] without a connection, and when a query
    raises, as it does without the table. *)
Definition get_table_info (s : Mysql) : option table_info :=
  if negb (get_db_connection true s) then None
  else if negb (permits s) then None
  else
    match database s with
    | Some (Some rows) =>
      Some (mkTableInfo (length rows) (min_datetime rows) (max_datetime rows))
    | _ => None
    end.

(** [clear_table(confirm)]: [TRUNCATE TABLE measurements]. *)
Definition clear_table (confirm : bool) (s : Mysql) : bool * Mysql :=
  if negb confirm then (false, s)
  else if negb (get_db_connection true s) then (false, s)
  else if negb (permits s) then (false, s)
  else
    match database s with
    | Some (Some _) =>
      (true, mkMysql (reachable s) (permits s) (Some (Some [])))
    | _ => (false, s)
    end.


(** ** Configuration: [Config.from_env] *)

(** [Config] as a whole: the settings of the collector, and those that
    only reach the connector, the file system and the HTTP client. *)
Record Settings := mkSettings {
  collector : Config;
  interval_seconds : Z;
  db_host : string;
  db_port : Z;
  db_name : string;
  db_user : string;
  db_password : string;
  csv_path : string;
  hsbi_verify_ssl : bool
}.

(** [os.getenv(k, dflt)] *)
Definition getenv (env : gmap string string) (k dflt : string) : string :=
  default dflt (env !! k).

(** [s.lower()] on the ASCII letters.  No other character is turned into
    an ASCII letter of "true", so the comparison below is the one of
    [str.lower]. *)
Definition str_lower (s : string) : string :=
  String.string_of_list_ascii
    (Reference.lower <$> String.list_ascii_of_string s).

(** [os.getenv(k, dflt).lower() == "true"] *)
Definition getenv_flag (env : gmap string string) (k dflt : string) : bool :=
  String.eqb (str_lower (getenv env k dflt)) "true".

(** [Config.from_env]; [None] is the [ValueError] of [int] or [float]. *)
Definition from_env (rt : Runtime) (env : gmap string string)
  : option Settings :=
  let airly_api_key := getenv env "AIRLY_API_KEY" "" in
  installation_id ← py_int rt (getenv env "INSTALLATION_ID" "3387");
  latitude ← py_float rt (getenv env "LATITUDE" "54.3520");
  longitude ← py_float rt (getenv env "LONGITUDE" "18.6466");
  let city_name := getenv env "CITY_NAME" "Gdansk" in
  interval_seconds ← py_int rt (getenv env "INTERVAL_SECONDS" "3600");
  let db_host := getenv env "DB_HOST" "localhost" in
  db_port ← py_int rt (getenv env "DB_PORT" "3306");
  let db_name := getenv env "DB_NAME" "airly" in
  let db_user := getenv env "DB_USER" "airly" in
  let db_password := getenv env "DB_PASSWORD" "airly_pass" in
  let enable_database := getenv_flag env "ENABLE_DATABASE" "true" in
  let csv_file := getenv env "CSV_FILE" "/data/airly_gdansk.csv" in
  let enable_csv := getenv_flag env "ENABLE_CSV" "false" in
  let hsbi_api_url := getenv env "HSBI_API_URL" "" in
  hsbi_sensor_id ← py_int rt (getenv env "HSBI_SENSOR_ID" "1");
  hsbi_altitude ← py_float rt (getenv env "HSBI_ALTITUDE" "10.0");
  let hsbi_verify_ssl := getenv_flag env "HSBI_VERIFY_SSL" "true" in
  let enable_hsbi := getenv_flag env "ENABLE_HSBI_API" "false" in
  Some (mkSettings
          (mkConfig airly_api_key installation_id latitude longitude city_name
             enable_database enable_csv hsbi_api_url hsbi_sensor_id
             hsbi_altitude enable_hsbi)
          interval_seconds db_host db_port db_name db_user db_password
          csv_file hsbi_verify_ssl).

(** ** Further example inputs *)

Module Scenario.

(** All three sinks enabled. *)
Definition all_sinks : Config :=
  mkConfig "key" 3387 54.375%float 18.625%float "Gdansk"
           true true "https://hsbi.example/ingest" 1 10%float true.

(** The store and the file sink enabled, forwarding disabled. *)
Definition store_and_file : Config :=
  mkConfig "key" 3387 54.375%float 18.625%float "Gdansk"
           true true "https://hsbi.example/ingest" 1 10%float false.

(** A PM2.5 reading that is a string. *)
Definition text_reading : gmap string pyval :=
  <["current" :=
      VDict (<["values" :=
                 VList [Example.entry "PM25" (VStr "n/a")]]> ∅)]> ∅.

(** Every sink would succeed; there is no file yet. *)
Definition text_world : World :=
  mkWorld (VDict text_reading) Example.now (λ _, Val true) IoOk None
    (λ _, true).

Definition text_measurement : Measurement :=
  mkMeasurement Example.now "Gdansk" 54.375%float 18.625%float
    (VStr "n/a") VNone VNone VNone VNone VNone (Some 3387).

Definition older : pyval :=
  VDict (<["values" :=
            VList [Example.entry "PM25" (VFloat 98%float)]]> ∅).

(** No "current" section, two elements of history. *)
Definition history_only : gmap string pyval :=
  <["history" := VList [Example.old; older]]> ∅.

(** A first element of history with indexes and no values. *)
Definition indexes_only : gmap string pyval :=
  <["indexes" := VList Example.indexes]> ∅.

Definition without_values : World :=
  mkWorld (VDict (<["history" := VList [VDict indexes_only]]> ∅)) Example.now
    (λ _, Val true) IoOk None (λ _, true).

(** The second entry has a name and no value. *)
Definition nameless : gmap string pyval := <["name" := VStr "PM10"]> ∅.

Definition broken_entry : gmap string pyval :=
  <["values" :=
      VList [Example.entry "PM25" (VFloat 10%float); VDict nameless;
             Example.entry "PM10" (VFloat 20.5%float)]]> ∅.

Definition broken : World :=
  mkWorld (VDict (<["current" := VDict broken_entry]> ∅)) Example.now
    (λ _, Val true) IoOk None (λ _, true).

(** A file without a "city" column. *)
Definition cityless : list (list string) :=
  [ ["datetime_utc"; "lat"; "lon"];
    ["2024-05-01 12:00:00"; "54.375"; "18.625"]; [];
    ["2024-05-01 13:00:00"; "54.375"; "18.625"] ].

(** [Example.row_a] with a "station_id" column that holds 42. *)
Definition stationed : gmap string (option string) :=
  zip_row (CSV_HEADERS ++ ["station_id"]) (Example.row_a ++ ["42"]) ∅.

Definition mysql : Mysql :=
  mkMysql true true (Some (Some [Example.stored_a])).

(** ENABLE_CSV in capitals, no API key, a store switched off. *)
Definition env : gmap string string :=
  <["ENABLE_CSV" := "TRUE"]> (<["ENABLE_DATABASE" := "no"]> ∅).

(** No optional reading and an empty city label, as CITY_NAME set to the
    empty string gives. *)
Definition unlabelled : Measurement :=
  mkMeasurement Example.now "" 54.375%float 18.625%float
    VNone VNone VNone VNone VNone VNone (Some 3387).

(** The connection drops at the first statement and is gone for the
    rollback too. *)
Definition gone : Server :=
  mkServer true (Some 0%nat) String.eqb (λ _, true) false.

End Scenario.

(** * Properties *)

(** ** The [csv] module: reading back what the writer wrote *)

Lemma feed_app r cs1 cs2 : feed r (cs1 ++ cs2) = feed (feed r cs1) cs2.
Proof. apply foldl_app. Qed.

Lemma list_ascii_of_string_app s1 s2 :
  String.list_ascii_of_string (s1 +:+ s2)
  = String.list_ascii_of_string s1 ++ String.list_ascii_of_string s2.
Proof.
  induction s1 as [|c s1 IH]; [done|].
  change (String c s1 +:+ s2) with (String c (s1 +:+ s2)).
  cbn [String.list_ascii_of_string app]. by rewrite IH.
Qed.

Lemma needs_quoting_newline c : needs_quoting c = false → is_newline c = false.
Proof.
  unfold needs_quoting, is_newline. intros H%bool_decide_eq_false.
  apply bool_decide_eq_false. tauto.
Qed.

Lemma plain_char c :
  needs_quoting c = false →
  is_newline c = false ∧ bool_decide (c = quotechar) = false
  ∧ bool_decide (c = delimiter) = false.
Proof.
  intros H. split; [by apply needs_quoting_newline|].
  apply bool_decide_eq_false in H.
  split; apply bool_decide_eq_false; tauto.
Qed.

(** Plain characters are added to the field under way. *)
Lemma feed_plain cs : ∀ f fs rs,
  existsb needs_quoting cs = false →
  feed (mkReader IN_FIELD f fs rs) cs = mkReader IN_FIELD (f ++ cs) fs rs.
Proof.
  induction cs as [|c cs IH]; intros f fs rs H.
  - by rewrite app_nil_r.
  - cbn in H. apply orb_false_iff in H as [Hc Hcs].
    destruct (plain_char c Hc) as (H1 & H2 & H3).
    cbn [feed foldl]. unfold process_char at 2. cbn [state].
    rewrite H1, H3. unfold add_char. cbn [field fields records].
    fold (feed (mkReader IN_FIELD (f ++ [c]) fs rs) cs).
    rewrite IH by done. by rewrite <- app_assoc.
Qed.

(** Inside quotes every character is added, a doubled quote once. *)
Lemma feed_quoted cs : ∀ f fs rs,
  feed (mkReader IN_QUOTED_FIELD f fs rs) (cs ≫= escape)
  = mkReader IN_QUOTED_FIELD (f ++ cs) fs rs.
Proof.
  induction cs as [|c cs IH]; intros f fs rs.
  - by rewrite app_nil_r.
  - rewrite bind_cons, feed_app.
    assert (feed (mkReader IN_QUOTED_FIELD f fs rs) (escape c)
            = mkReader IN_QUOTED_FIELD (f ++ [c]) fs rs) as ->.
    { unfold escape. destruct (bool_decide (c = quotechar)) eqn:Hq.
      - apply bool_decide_eq_true in Hq as ->. reflexivity.
      - cbn [feed foldl]. unfold process_char. cbn [state]. by rewrite Hq. }
    rewrite IH. by rewrite <- app_assoc.
Qed.

Lemma feed_field s fs rs :
  feed (mkReader START_FIELD [] fs rs) (write_field s)
  = mkReader (after_field s) (String.list_ascii_of_string s) fs rs.
Proof.
  unfold write_field, after_field.
  destruct (existsb needs_quoting (String.list_ascii_of_string s)) eqn:Hq.
  - change (quotechar :: (String.list_ascii_of_string s ≫= escape)
                ++ [quotechar])
      with ([quotechar] ++ (String.list_ascii_of_string s ≫= escape)
              ++ [quotechar]).
    rewrite !feed_app.
    change (feed (mkReader START_FIELD [] fs rs) [quotechar])
      with (mkReader IN_QUOTED_FIELD [] fs rs).
    by rewrite feed_quoted.
  - destruct (String.list_ascii_of_string s) as [|c cs]; [done|].
    cbn in Hq. apply orb_false_iff in Hq as [Hc Hcs].
    destruct (plain_char c Hc) as (H1 & H2 & H3).
    cbn [feed foldl]. unfold process_char at 2. cbn [state].
    unfold start_field. rewrite H1, H2, H3. unfold add_char.
    cbn [field fields records app].
    fold (feed (mkReader IN_FIELD [c] fs rs) cs).
    by rewrite feed_plain.
Qed.

Lemma after_field_open s : field_open (after_field s).
Proof.
  unfold after_field, field_open.
  destruct (existsb _ _); [tauto|]. destruct (String.list_ascii_of_string s); tauto.
Qed.

(** At the end of a field the delimiter saves it. *)
Lemma save_at_delimiter st f fs rs :
  field_open st →
  process_char (mkReader st f fs rs) delimiter
  = mkReader START_FIELD [] (fs ++ [String.string_of_list_ascii f]) rs.
Proof. intros [-> | [-> | ->]]; reflexivity. Qed.

(** At the end of a field the line terminator yields the record. *)
Lemma yield_at_terminator st f fs rs :
  field_open st →
  feed (mkReader st f fs rs) [CR; LF]
  = mkReader START_RECORD [] []
      (rs ++ [fs ++ [String.string_of_list_ascii f]]).
Proof. intros [-> | [-> | ->]]; reflexivity. Qed.

Lemma feed_delimiter s fs rs :
  process_char
    (mkReader (after_field s) (String.list_ascii_of_string s) fs rs) delimiter
  = mkReader START_FIELD [] (fs ++ [s]) rs.
Proof.
  rewrite save_at_delimiter by apply after_field_open.
  by rewrite String.string_of_list_ascii_of_string.
Qed.

Lemma feed_terminator s fs rs :
  feed (mkReader (after_field s) (String.list_ascii_of_string s) fs rs)
       [CR; LF]
  = mkReader START_RECORD [] [] (rs ++ [fs ++ [s]]).
Proof.
  rewrite yield_at_terminator by apply after_field_open.
  by rewrite String.string_of_list_ascii_of_string.
Qed.

(** The fields of a record that has at least one, read from the start of
    a field. *)
Lemma feed_fields row : ∀ s fs rs,
  feed (mkReader START_FIELD [] fs rs)
       (join_fields (write_field <$> s :: row) ++ [CR; LF])
  = mkReader START_RECORD [] [] (rs ++ [fs ++ s :: row]).
Proof.
  induction row as [|s' row IH]; intros s fs rs.
  - cbn [fmap list_fmap join_fields].
    by rewrite feed_app, feed_field, feed_terminator.
  - change (join_fields (write_field <$> s :: s' :: row))
      with (write_field s ++ delimiter
              :: join_fields (write_field <$> s' :: row)).
    rewrite <- app_assoc, feed_app, feed_field. cbn [app feed foldl].
    rewrite feed_delimiter.
    fold (feed (mkReader START_FIELD [] (fs ++ [s]) rs)
               (join_fields (write_field <$> s' :: row) ++ [CR; LF])).
    rewrite IH. by rewrite <- app_assoc.
Qed.

(** At the start of a record the first character of a written record is
    never a line end, so the parser goes on as at the start of a field. *)
Lemma start_record_field rs cs c :
  is_newline c = false →
  feed (mkReader START_RECORD [] [] rs) (c :: cs)
  = feed (mkReader START_FIELD [] [] rs) (c :: cs).
Proof.
  intros H. cbn [feed foldl]. unfold process_char at 2 4. cbn [state].
  unfold start_record. by rewrite H.
Qed.

Lemma feed_row row rs :
  feed (mkReader START_RECORD [] [] rs)
       (String.list_ascii_of_string (csv_writerow row))
  = mkReader START_RECORD [] [] (rs ++ [row]).
Proof.
  unfold csv_writerow. rewrite String.list_ascii_of_string_of_list_ascii.
  destruct row as [|s row]; [done|].
  destruct (join_fields (write_field <$> s :: row)) as [|c cs] eqn:Hj.
  - (* a single empty field *)
    destruct row as [|s' row].
    + cbn in Hj. unfold write_field in Hj.
      destruct (existsb _ _); [done|].
      assert (s = "") as ->.
      { rewrite <- (String.string_of_list_ascii_of_string s). by rewrite Hj. }
      done.
    + change (join_fields (write_field <$> s :: s' :: row))
        with (write_field s ++ delimiter
                :: join_fields (write_field <$> s' :: row)) in Hj.
      by destruct (write_field s).
  - assert (Hc : is_newline c = false).
    { destruct row as [|s' row].
      - cbn in Hj. unfold write_field in Hj.
        destruct (existsb needs_quoting (String.list_ascii_of_string s)) eqn:Hq.
        + by injection Hj as <- _.
        + rewrite Hj in Hq. cbn in Hq. apply orb_false_iff in Hq as [Hq _].
          by apply needs_quoting_newline.
      - change (join_fields (write_field <$> s :: s' :: row))
          with (write_field s ++ delimiter
                  :: join_fields (write_field <$> s' :: row)) in Hj.
        unfold write_field in Hj.
        destruct (existsb needs_quoting (String.list_ascii_of_string s)) eqn:Hq.
        + by injection Hj as <- _.
        + destruct (String.list_ascii_of_string s) as [|c0 cs0].
          * by injection Hj as <- _.
          * injection Hj as <- _. cbn in Hq.
            apply orb_false_iff in Hq as [Hq _].
            by apply needs_quoting_newline. }
    assert ((match s :: row, c :: cs with
             | [_], [] => [quotechar; quotechar]
             | _, _ => c :: cs
             end) = c :: cs) as -> by (by destruct row).
    cbn [app]. rewrite start_record_field by done.
    change (c :: cs ++ [CR; LF]) with ((c :: cs) ++ [CR; LF]).
    rewrite <- Hj. apply feed_fields.
Qed.

Lemma feed_text rows : ∀ rs,
  feed (mkReader START_RECORD [] [] rs)
       (String.list_ascii_of_string (csv_text rows))
  = mkReader START_RECORD [] [] (rs ++ rows).
Proof.
  induction rows as [|row rows IH]; intros rs.
  - by rewrite app_nil_r.
  - cbn [csv_text foldr]. rewrite list_ascii_of_string_app, feed_app.
    rewrite feed_row. fold (csv_text rows). rewrite IH.
    by rewrite <- app_assoc.
Qed.

(** [csv.reader] yields the records [csv.writer] was given. *)
Lemma csv_reader_writer rows : csv_reader (csv_text rows) = rows.
Proof.
  unfold csv_reader. fold (feed (mkReader START_RECORD [] [] [])
                                (String.list_ascii_of_string (csv_text rows))).
  by rewrite feed_text.
Qed.

Lemma string_app_assoc (s1 s2 s3 : string) :
  (s1 +:+ s2) +:+ s3 = s1 +:+ s2 +:+ s3.
Proof.
  induction s1 as [|c s1 IH]; [done|].
  change (String c s1 +:+ s2) with (String c (s1 +:+ s2)).
  change (String c (s1 +:+ s2) +:+ s3) with (String c ((s1 +:+ s2) +:+ s3)).
  change (String c s1 +:+ s2 +:+ s3) with (String c (s1 +:+ s2 +:+ s3)).
  by rewrite IH.
Qed.

Lemma string_app_nil_r (s : string) : s +:+ "" = s.
Proof.
  induction s as [|c s IH]; [done|].
  change (String c s +:+ "") with (String c (s +:+ "")). by rewrite IH.
Qed.

Lemma csv_text_app rows1 rows2 :
  csv_text (rows1 ++ rows2) = csv_text rows1 +:+ csv_text rows2.
Proof.
  induction rows1 as [|row rows1 IH]; [done|].
  cbn [app csv_text foldr]. fold (csv_text (rows1 ++ rows2)).
  fold (csv_text rows1). by rewrite IH, string_app_assoc.
Qed.

(** ** The collection cycle *)

Lemma send_to_hsbi_returns rt cfg post post' m b :
  send_to_hsbi rt cfg post m = Val b →
  ∃ b', send_to_hsbi rt cfg post' m = Val b'.
Proof.
  unfold send_to_hsbi. destruct (String.eqb _ _); [eauto|].
  destruct (hsbi_payload rt cfg m) as [p|e]; simpl; [eauto|discriminate].
Qed.

(** A reading of the declared type never makes the forwarding sink
    raise. *)
Lemma send_to_hsbi_declared rt cfg post m :
  pm25_as_declared m → ∃ b, send_to_hsbi rt cfg post m = Val b.
Proof.
  intros Hpm. unfold send_to_hsbi. destruct (String.eqb _ _); [by eexists|].
  unfold hsbi_payload.
  assert (∃ x, py_mul_float (or_zero (m_pm25 m)) approximation = Val x)
    as [x ->]; [|by eexists].
  destruct Hpm as [-> | [x ->]]; [by eexists|].
  unfold or_zero. destruct (truthy (VFloat x)); by eexists.
Qed.

(** The cycle once a [Measurement] has been obtained: the sinks in order,
    each run only if the ones before it returned. *)
Lemma collect_once_measured rt cfg w m :
  truthy (fetch_from_airly cfg w) = true →
  parse_measurement cfg (clock w) (fetch_from_airly cfg w) = Val (Some m) →
  returned (collect_once rt cfg w)
  = (stored ← store_outcome cfg w m;
     saved ← file_outcome rt cfg w m;
     if enable_hsbi cfg
     then _ ← send_to_hsbi rt cfg (http_post w) m; mret (stored && saved)
     else mret (stored && saved)).
Proof.
  intros Hd Hp.
  unfold collect_once, store_outcome, file_outcome, file_sink_ok.
  rewrite Hd, Hp. cbn [negb].
  destruct (save_to_csv rt (csv_io w) (csv_on_disk w) m) as [saved file].
  cbn [fst].
  destruct (enable_database cfg), (db_insert w m) as [[]|],
    (enable_csv cfg), saved as [[]|], (enable_hsbi cfg);
    cbn [mbind res_bind mret res_ret negb andb returned]; try done;
    by destruct (send_to_hsbi rt cfg (http_post w) m).
Qed.

Lemma outcome_with_post rt cfg w post' m :
  store_outcome cfg (with_post w post') m = store_outcome cfg w m
  ∧ file_outcome rt cfg (with_post w post') m = file_outcome rt cfg w m.
Proof. done. Qed.

Lemma outcome_true (enabled : bool) (r : res bool) :
  (if enabled then r else Val true) = Val true
  ↔ (enabled = true → r = Val true).
Proof. destruct enabled; naive_solver. Qed.

(** C1 (amended). Let the payload have been fetched and normalized into
    [m], with a PM2.5 reading of the declared type.  Then [collect_once]
    returns exactly when the store and the file sink, where enabled,
    return, and what it returns is the conjunction of what they returned:
    it returns [True] exactly when every enabled sink among the two
    returned [True].  What the POST of the forwarding sink comes to does
    not change the result.  In particular: relational success, file
    disabled, forwarding failure gives [True]; relational failure with file
    success gives [False]. *)
Theorem collect_once_outcome rt cfg w m :
  truthy (fetch_from_airly cfg w) = true →
  parse_measurement cfg (clock w) (fetch_from_airly cfg w) = Val (Some m) →
  pm25_as_declared m →
  (∀ b, returned (collect_once rt cfg w) = Val b
        ↔ ∃ b1 b2, store_outcome cfg w m = Val b1
                   ∧ file_outcome rt cfg w m = Val b2 ∧ b = b1 && b2)
  ∧ (returned (collect_once rt cfg w) = Val true
     ↔ (enable_database cfg = true → db_insert w m = Val true)
       ∧ (enable_csv cfg = true → file_sink_ok rt w m = Val true))
  ∧ (∀ post', returned (collect_once rt cfg (with_post w post'))
              = returned (collect_once rt cfg w))
  ∧ (enable_database cfg = true → db_insert w m = Val true →
     enable_csv cfg = false →
     enable_hsbi cfg = true → send_to_hsbi rt cfg (http_post w) m = Val false →
     returned (collect_once rt cfg w) = Val true)
  ∧ (enable_database cfg = true → db_insert w m = Val false →
     enable_csv cfg = true → file_sink_ok rt w m = Val true →
     returned (collect_once rt cfg w) = Val false).
Proof.
  intros Hdata Hparse Hpm.
  assert (Hret : ∀ post',
    returned (collect_once rt cfg (with_post w post'))
    = (stored ← store_outcome cfg w m;
       saved ← file_outcome rt cfg w m; mret (stored && saved))).
  { intros post'.
    rewrite (collect_once_measured rt cfg (with_post w post') m) by done.
    destruct (outcome_with_post rt cfg w post' m) as [-> ->].
    destruct (store_outcome cfg w m) as [b1|]; [|done].
    destruct (file_outcome rt cfg w m) as [b2|]; [|done].
    cbn [mbind res_bind]. destruct (enable_hsbi cfg); [|done].
    by destruct (send_to_hsbi_declared rt cfg
                   (http_post (with_post w post')) m Hpm) as [b ->]. }
  assert (Hw : with_post w (http_post w) = w) by (by destruct w).
  pose proof (Hret (http_post w)) as Hr. rewrite Hw in Hr.
  assert (Hall : ∀ b, returned (collect_once rt cfg w) = Val b
            ↔ ∃ b1 b2, store_outcome cfg w m = Val b1
                       ∧ file_outcome rt cfg w m = Val b2 ∧ b = b1 && b2).
  { intros b. rewrite Hr.
    destruct (store_outcome cfg w m) as [b1|e1]; cbn [mbind res_bind].
    - destruct (file_outcome rt cfg w m) as [b2|e2]; cbn [mbind res_bind].
      + split; [intros [= <-]; by eexists _, _|].
        by intros (? & ? & [= <-] & [= <-] & ->).
      + split; [done|]. by intros (? & ? & _ & ? & _).
    - split; [done|]. by intros (? & ? & ? & _). }
  assert (Htrue : returned (collect_once rt cfg w) = Val true
     ↔ (enable_database cfg = true → db_insert w m = Val true)
       ∧ (enable_csv cfg = true → file_sink_ok rt w m = Val true)).
  { rewrite Hall, <- !outcome_true.
    fold (store_outcome cfg w m). fold (file_outcome rt cfg w m). split.
    - intros (b1 & b2 & -> & -> & Hb). symmetry in Hb.
      apply andb_true_iff in Hb as [-> ->]. done.
    - intros [-> ->]. by exists true, true. }
  split; [done|]. split; [done|]. split; [|split].
  - intros post'. by rewrite Hret, Hr.
  - intros Hd Hdb Hc _ _. apply Htrue. split; [done|congruence].
  - intros Hd Hdb Hc Hf. apply Hall. exists false, true.
    unfold store_outcome, file_outcome. by rewrite Hd, Hdb, Hc, Hf.
Qed.

(** ** The normalizer *)

Lemma truthy_dict_lookup (c : gmap string pyval) k v :
  c !! k = Some v → truthy (VDict c) = true.
Proof.
  intros H. cbn. apply negb_true_iff, bool_decide_eq_false.
  intros ->. by rewrite lookup_empty in H.
Qed.


Lemma select_source_skips_current (d : gmap string pyval) :
  current_missing d = true →
  select_source (VDict d)
  = (hist ← py_get (VDict d) "history" VNone;
     hist_ok ←
       (if truthy hist then
          h ← py_getitem (VDict d) "history";
          n ← py_len h;
          mret (bool_decide (0 < n))
        else mret false);
     if hist_ok : bool then
       h ← py_getitem (VDict d) "history"; py_getitem0 h
     else mret VNone).
Proof.
  unfold current_missing, select_source. py_step.
  destruct (d !! "current") as [cur|] eqn:Hc; py_step.
  - destruct cur; intros H;
      try (apply negb_true_iff in H; rewrite H; reflexivity).
    destruct (truthy (VDict d0)) eqn:Ht; [|reflexivity].
    py_step.
    destruct (d0 !! "values") as [vs|]; py_step.
    + apply negb_true_iff in H. rewrite H. reflexivity.
    + reflexivity.
  - reflexivity.
Qed.

Lemma select_source_history (d : gmap string pyval) h hs :
  current_missing d = true →
  d !! "history" = Some (VList (h :: hs)) →
  select_source (VDict d) = Val h.
Proof.
  intros Hc Hh. rewrite (select_source_skips_current _ Hc).
  py_step. rewrite Hh. py_step. cbn [truthy]. py_step.
  rewrite bool_decide_eq_true_2 by (cbn [length]; lia). reflexivity.
Qed.


Lemma store_value_entry values v n x :
  entry_of v = Some (n, x) → store_value values v = Val (<[n := x]> values).
Proof.
  unfold entry_of, store_value. destruct v as [| | | | | |e]; try done.
  destruct (e !! "name") as [[| | | |k| |]|] eqn:Hn; try done.
  destruct (e !! "value") as [y|] eqn:Hv; [|done].
  intros [= -> ->]. py_step. rewrite Hv. py_step. rewrite Hn. reflexivity.
Qed.

Lemma flatten_values_last items : ∀ entries (acc : gmap string pyval),
  mapM entry_of items = Some entries →
  ∃ values, flatten_values items acc = Val values
    ∧ ∀ name, values !! name
        = match last_occurrence name entries with
          | Some y => Some y
          | None => acc !! name
          end.
Proof.
  induction items as [|v rest IH]; intros entries acc Hm.
  - injection Hm as <-. exists acc. done.
  - cbn [mapM] in Hm.
    destruct (entry_of v) as [[n x]|] eqn:Hv; [|done]. cbn in Hm.
    destruct (mapM entry_of rest) as [es|] eqn:Hr; [|done].
    cbn in Hm. injection Hm as <-.
    destruct (IH es (<[n := x]> acc) eq_refl) as (values & Hf & Hl).
    exists values. split.
    + cbn [flatten_values]. rewrite (store_value_entry _ _ _ _ Hv). exact Hf.
    + intros name. rewrite Hl. cbn [last_occurrence].
      destruct (last_occurrence name es); [done|].
      destruct (decide (n = name)) as [->|Hne].
      * by rewrite lookup_insert_eq.
      * by rewrite lookup_insert_ne.
Qed.

Lemma last_occurrence_filter (keep : string → bool) name entries :
  keep name = true →
  last_occurrence name (filter (λ e, keep e.1 = true) entries)
  = last_occurrence name entries.
Proof.
  intros Hk. induction entries as [|[n x] rest IH]; [done|].
  rewrite filter_cons. cbn [fst last_occurrence].
  destruct (decide (keep n = true)) as [Hn|Hn]; cbn [last_occurrence].
  - by rewrite IH.
  - rewrite IH. destruct (decide (n = name)) as [->|]; [congruence|].
    by destruct (last_occurrence name rest).
Qed.




(** C8. Let the selected source [src] carry a values list of entries
    [{"name": n, "value": x}] and a well-formed "indexes".  Then
    [parse_measurement] succeeds; flattening gives each name the value of
    its last occurrence; the air-quality index is the value of the first
    entry of "indexes", and [None] without raising when there is none; the
    five optional readings are the values of PM25, PM10, TEMPERATURE,
    HUMIDITY and PRESSURE, so entries with any other name can be removed
    without changing the result. *)
Theorem normalizer_flattens_values cfg now data (src : gmap string pyval)
    items entries :
  truthy data = true →
  select_source data = Val (VDict src) →
  src !! "values" = Some (VList items) →
  mapM entry_of items = Some entries →
  indexes_well_formed src = true →
  (∃ values, flatten_values items ∅ = Val values
     ∧ ∀ name, values !! name = last_occurrence name entries)
  ∧ parse_measurement cfg now data
    = Val (Some {|
        m_timestamp := now;
        m_city := city_name cfg;
        m_latitude := latitude cfg;
        m_longitude := longitude cfg;
        m_pm25 := default VNone (last_occurrence "PM25" entries);
        m_pm10 := default VNone (last_occurrence "PM10" entries);
        m_temperature := default VNone (last_occurrence "TEMPERATURE" entries);
        m_humidity := default VNone (last_occurrence "HUMIDITY" entries);
        m_pressure := default VNone (last_occurrence "PRESSURE" entries);
        m_aqi := first_index src;
        m_station_id := Some (installation_id cfg)
      |})
  ∧ (∀ name, name ∈ known_names →
       last_occurrence name
         (filter (λ e, is_known e.1 = true) entries)
       = last_occurrence name entries).
Proof.
  intros Hd Hs Hv Hm Hi.
  pose proof (truthy_dict_lookup _ _ _ Hv) as Ht.
  destruct (flatten_values_last items entries ∅ Hm) as (values & Hf & Hl).
  assert (Hl' : ∀ name, values !! name = last_occurrence name entries).
  { intros name. rewrite Hl. destruct (last_occurrence name entries); [done|].
    apply lookup_empty. }
  split; [by exists values|]. split.
  - unfold parse_measurement. rewrite Hd. py_step. rewrite Hs. py_step.
    rewrite Ht. py_step. rewrite Hv. py_step. rewrite Hf. py_step.
    rewrite !Hl'.
    assert (Ha : (if truthy (default (VList []) (src !! "indexes"))
                  then i0 ← py_getitem0 (default (VList []) (src !! "indexes"));
                       py_get i0 "value" VNone
                  else mret VNone) = Val (first_index src)).
    { unfold indexes_well_formed in Hi. unfold first_index.
      destruct (src !! "indexes") as [i|]; [|reflexivity]. py_step.
      destruct i as [| | | | |[|[| | | | | |i0] l]|];
        first [ reflexivity
              | apply negb_true_iff in Hi; rewrite Hi; reflexivity ]. }
    rewrite Ha. reflexivity.
  - intros name Hn.
    apply (last_occurrence_filter is_known).
    by apply bool_decide_eq_true.
Qed.

(** ** The file sink *)

Lemma csv_field_or_empty rt v : csv_field rt (or_empty v) = csv_field rt v.
Proof. by destruct v. Qed.

Lemma csv_row_fields rt m :
  csv_row rt m
  = [ strftime (m_timestamp m); m_city m;
      py_str rt (VFloat (m_latitude m)); py_str rt (VFloat (m_longitude m));
      py_str rt (VInt (hour_utc m)); py_str rt (VInt (minute_utc m));
      csv_field rt (m_pm25 m); csv_field rt (m_pm10 m);
      csv_field rt (m_temperature m); csv_field rt (m_humidity m);
      csv_field rt (m_pressure m); csv_field rt (m_aqi m) ].
Proof.
  unfold csv_row, to_csv_row. cbn [fmap list_fmap csv_field].
  by rewrite !csv_field_or_empty.
Qed.

Lemma save_to_csv_new rt m :
  save_to_csv rt IoOk None m
  = (Val true, Some (csv_text [CSV_HEADERS; csv_row rt m])).
Proof.
  unfold save_to_csv, csv_text. cbn [foldr default from_option id].
  fold (csv_row rt m). by rewrite string_app_nil_r.
Qed.

Lemma save_to_csv_append rt text m :
  save_to_csv rt IoOk (Some text) m
  = (Val true, Some (text +:+ csv_writerow (csv_row rt m))).
Proof. reflexivity. Qed.

Lemma strftime_not_empty t : strftime t ≠ "".
Proof. unfold strftime, pad4. discriminate. Qed.

(** C6 (amended). For a [Measurement] whose optional readings are all
    absent and whose city label is not empty, the appended row has twelve
    fields, in the order of [CSV_HEADERS]: the six required values, none of
    them empty given that [str] of a number is not, followed by six empty
    strings.  In general an absent reading is written as the empty string.
    [save_to_csv] writes the text of [CSV_HEADERS] before that of the row
    exactly when no file exists at the path, and otherwise appends the
    text of the row to what the file holds; read back, the new file is the
    header and the row, and a file of records that gets the row is those
    records and the row.  When the file cannot be opened it returns
    [False] and leaves the file as it is. *)
Theorem file_sink_row rt m :
  all_absent m →
  m_city m ≠ "" →
  py_str rt (VFloat (m_latitude m)) ≠ "" →
  py_str rt (VFloat (m_longitude m)) ≠ "" →
  py_str rt (VInt (hour_utc m)) ≠ "" →
  py_str rt (VInt (minute_utc m)) ≠ "" →
  csv_row rt m
  = [ strftime (m_timestamp m); m_city m;
      py_str rt (VFloat (m_latitude m)); py_str rt (VFloat (m_longitude m));
      py_str rt (VInt (hour_utc m)); py_str rt (VInt (minute_utc m));
      ""; ""; ""; ""; ""; "" ]
  ∧ length (csv_row rt m) = length CSV_HEADERS
  ∧ Forall (λ text, text ≠ "") (take 6 (csv_row rt m))
  ∧ drop 6 (csv_row rt m) = replicate 6 ""
  ∧ csv_field rt VNone = ""
  ∧ zip CSV_HEADERS (csv_row rt m)
    = [ ("datetime_utc", strftime (m_timestamp m)); ("city", m_city m);
        ("lat", py_str rt (VFloat (m_latitude m)));
        ("lon", py_str rt (VFloat (m_longitude m)));
        ("hour_utc", py_str rt (VInt (hour_utc m)));
        ("minute_utc", py_str rt (VInt (minute_utc m)));
        ("PM25", ""); ("PM10", ""); ("TEMPERATURE", ""); ("HUMIDITY", "");
        ("PRESSURE", ""); ("AQI", "") ]
  ∧ save_to_csv rt IoOk None m
    = (Val true,
       Some (csv_writerow CSV_HEADERS +:+ csv_writerow (csv_row rt m)))
  ∧ (∀ text, save_to_csv rt IoOk (Some text) m
             = (Val true, Some (text +:+ csv_writerow (csv_row rt m))))
  ∧ csv_reader (csv_writerow CSV_HEADERS +:+ csv_writerow (csv_row rt m))
    = [CSV_HEADERS; csv_row rt m]
  ∧ (∀ rows, csv_reader (csv_text rows +:+ csv_writerow (csv_row rt m))
             = rows ++ [csv_row rt m])
  ∧ (∀ file, save_to_csv rt OpenFails file m = (Val false, file)).
Proof.
  intros (H1 & H2 & H3 & H4 & H5 & H6) Hcity Hlat Hlon Hhour Hmin.
  assert (Hone : ∀ row, csv_writerow row = csv_text [row]).
  { intros row. unfold csv_text. cbn [foldr]. by rewrite string_app_nil_r. }
  assert (Hread : ∀ rows, csv_reader (csv_text rows +:+ csv_writerow (csv_row rt m))
                          = rows ++ [csv_row rt m]).
  { intros rows. by rewrite Hone, <- csv_text_app, csv_reader_writer. }
  split; [|split; [|split; [|split; [|split; [|split; [|split; [|split;
    [|split; [|split]]]]]]]]].
  - rewrite csv_row_fields, H1, H2, H3, H4, H5, H6. reflexivity.
  - by rewrite csv_row_fields.
  - rewrite csv_row_fields. cbn [take].
    repeat (constructor; [first [apply strftime_not_empty|done]|]).
    constructor.
  - rewrite csv_row_fields, H1, H2, H3, H4, H5, H6. reflexivity.
  - reflexivity.
  - rewrite csv_row_fields, H1, H2, H3, H4, H5, H6. reflexivity.
  - reflexivity.
  - intros text. apply save_to_csv_append.
  - rewrite (Hone CSV_HEADERS). apply (Hread [CSV_HEADERS]).
  - exact Hread.
  - reflexivity.
Qed.

(** ** The forwarding sink *)

Lemma or_zero_absent : or_zero VNone = VInt 0.
Proof. reflexivity. Qed.

Lemma or_zero_truthy v : truthy v = true → or_zero v = v.
Proof. unfold or_zero. by intros ->. Qed.


(** ** Migration of a file written by the file sink *)

Lemma written_text_from rt ms : ∀ text,
  foldl (λ file m, (save_to_csv rt IoOk file m).2) (Some text) ms
  = Some (text +:+ csv_text (csv_row rt <$> ms)).
Proof.
  induction ms as [|m ms IH]; intros text; cbn [foldl].
  - by rewrite string_app_nil_r.
  - rewrite save_to_csv_append. cbn [snd]. rewrite IH, fmap_cons.
    by rewrite string_app_assoc.
Qed.

(** The text the file sink leaves is that of the header and one row for
    each [Measurement]. *)
Lemma written_text_rows rt m ms :
  written_text rt (m :: ms)
  = Some (csv_text (CSV_HEADERS :: (csv_row rt <$> (m :: ms)))).
Proof.
  unfold written_text. cbn [foldl]. rewrite save_to_csv_new. cbn [snd].
  rewrite written_text_from.
  change (CSV_HEADERS :: (csv_row rt <$> m :: ms))
    with ([CSV_HEADERS; csv_row rt m] ++ (csv_row rt <$> ms)).
  by rewrite csv_text_app.
Qed.

Lemma written_rows rt m ms :
  written rt (m :: ms) = Some (CSV_HEADERS :: (csv_row rt <$> (m :: ms))).
Proof.
  unfold written. rewrite written_text_rows. cbn [fmap option_fmap option_map].
  by rewrite csv_reader_writer.
Qed.

Lemma zip_row_lookup_other names : ∀ row (d : gmap string (option string)) k,
  k ∉ names → zip_row names row d !! k = d !! k.
Proof.
  induction names as [|n names IH]; intros row d k Hk; [done|].
  apply not_elem_of_cons in Hk as [Hne Hk].
  destruct row as [|c row]; cbn [zip_row]; rewrite IH by done;
    by rewrite lookup_insert_ne.
Qed.

Lemma station_of_headerless_row rt dflt names row :
  "station_id" ∉ names →
  station_or_default rt dflt (zip_row names row ∅) = Some dflt.
Proof.
  intros H. unfold station_or_default.
  by rewrite zip_row_lookup_other, lookup_empty.
Qed.






(** ** Round trip through the file *)

Lemma zip_headers_lookup (c1 c2 c3 c4 c5 c6 c7 c8 c9 c10 c11 c12 : string) :
  let row :=
    zip_row CSV_HEADERS [c1; c2; c3; c4; c5; c6; c7; c8; c9; c10; c11; c12] ∅ in
  row !! "datetime_utc" = Some (Some c1) ∧ row !! "city" = Some (Some c2)
  ∧ row !! "lat" = Some (Some c3) ∧ row !! "lon" = Some (Some c4)
  ∧ row !! "hour_utc" = Some (Some c5) ∧ row !! "minute_utc" = Some (Some c6)
  ∧ row !! "PM25" = Some (Some c7) ∧ row !! "PM10" = Some (Some c8)
  ∧ row !! "TEMPERATURE" = Some (Some c9) ∧ row !! "HUMIDITY" = Some (Some c10)
  ∧ row !! "PRESSURE" = Some (Some c11) ∧ row !! "AQI" = Some (Some c12)
  ∧ row !! "station_id" = None.
Proof. cbn [zip_row CSV_HEADERS]. repeat split; by simplify_map_eq. Qed.

Lemma float_or_none_number rt (row : gmap string (option string)) k x :
  row !! k = Some (Some (py_str rt (VFloat x))) →
  reads_back_float rt x →
  float_or_none rt row k = Some (Some x).
Proof.
  intros Hk [Hne Hx]. unfold float_or_none. rewrite Hk. cbn.
  destruct (String.eqb_spec (py_str rt (VFloat x)) ""); [done|].
  by rewrite Hx.
Qed.

Lemma float_or_none_reading rt (row : gmap string (option string)) k v :
  row !! k = Some (Some (csv_field rt v)) →
  reading_reads_back rt v →
  float_or_none rt row k = Some (reading v).
Proof.
  intros Hk Hv. destruct v; try done.
  - unfold float_or_none. rewrite Hk. reflexivity.
  - by apply float_or_none_number.
Qed.

Lemma int_or_none_number rt (row : gmap string (option string)) k z :
  row !! k = Some (Some (py_str rt (VInt z))) →
  reads_back_int rt z →
  int_or_none rt row k = Some (Some z).
Proof.
  intros Hk [Hne Hz]. unfold int_or_none. rewrite Hk. cbn.
  destruct (String.eqb_spec (py_str rt (VInt z)) ""); [done|].
  by rewrite Hz.
Qed.

Lemma sink_row_parses rt dflt m :
  reads_back rt m →
  let row := zip_row CSV_HEADERS (csv_row rt m) ∅ in
  parse_key rt row = Some (to_seconds (m_timestamp m), Some (m_city m))
  ∧ parse_values rt dflt row (to_seconds (m_timestamp m)) (Some (m_city m))
    = Some (migrated_row dflt m).
Proof.
  intros (Ht & Hla & Hlo & Hh & Hmi & H25 & H10 & Hte & Hhu & Hpr & Haq).
  rewrite csv_row_fields.
  destruct (zip_headers_lookup (strftime (m_timestamp m)) (m_city m)
    (py_str rt (VFloat (m_latitude m))) (py_str rt (VFloat (m_longitude m)))
    (py_str rt (VInt (hour_utc m))) (py_str rt (VInt (minute_utc m)))
    (csv_field rt (m_pm25 m)) (csv_field rt (m_pm10 m))
    (csv_field rt (m_temperature m)) (csv_field rt (m_humidity m))
    (csv_field rt (m_pressure m)) (csv_field rt (m_aqi m)))
    as (L1 & L2 & L3 & L4 & L5 & L6 & L7 & L8 & L9 & L10 & L11 & L12 & L13).
  cbv zeta. split.
  - unfold parse_key. rewrite L1, L2. cbn. by rewrite Ht.
  - unfold parse_values, station_or_default.
    rewrite (float_or_none_number _ _ _ _ L3 Hla),
            (float_or_none_number _ _ _ _ L4 Hlo),
            (int_or_none_number _ _ _ _ L5 Hh),
            (int_or_none_number _ _ _ _ L6 Hmi),
            (float_or_none_reading _ _ _ _ L7 H25),
            (float_or_none_reading _ _ _ _ L8 H10),
            (float_or_none_reading _ _ _ _ L9 Hte),
            (float_or_none_reading _ _ _ _ L10 Hhu),
            (float_or_none_reading _ _ _ _ L11 Hpr),
            (float_or_none_reading _ _ _ _ L12 Haq), L13.
    reflexivity.
Qed.

(** C5 (amended). Let the built-ins read back what they wrote for [m], and
    let the server take the row.  Migrating the file that the file sink
    wrote for [m] stores one row: its city, coordinates, hour, minute and
    six optional readings are those of [m], its timestamp is that of [m]
    to the second, and its station id is the migration's default, not the
    one of [m]. *)
Theorem file_round_trip rt srv dflt db m skip_duplicates :
  reads_back rt m →
  connect_ok srv = true → link_budget srv = None →
  accepts srv (migrated_row dflt m) = true →
  has_key srv db (to_seconds (m_timestamp m)) (Some (m_city m)) = false →
  migrate_csv rt srv dflt db (written rt [m]) skip_duplicates
  = mkMigration (Val true) (Some (mkCounts 1 0 0))
      (db ++ [migrated_row dflt m])
  ∧ datetime_utc (migrated_row dflt m) = to_seconds (m_timestamp m)
  ∧ city (migrated_row dflt m) = Some (m_city m)
  ∧ lat (migrated_row dflt m) = Some (m_latitude m)
  ∧ lon (migrated_row dflt m) = Some (m_longitude m)
  ∧ r_hour_utc (migrated_row dflt m) = Some (hour_utc m)
  ∧ r_minute_utc (migrated_row dflt m) = Some (minute_utc m)
  ∧ pm25 (migrated_row dflt m) = reading (m_pm25 m)
  ∧ pm10 (migrated_row dflt m) = reading (m_pm10 m)
  ∧ temperature (migrated_row dflt m) = reading (m_temperature m)
  ∧ humidity (migrated_row dflt m) = reading (m_humidity m)
  ∧ pressure (migrated_row dflt m) = reading (m_pressure m)
  ∧ aqi (migrated_row dflt m) = reading (m_aqi m)
  ∧ station_id (migrated_row dflt m) = dflt.
Proof.
  intros Hrb Hc Hl Ha Hk. split; [|done].
  destruct (sink_row_parses rt dflt m Hrb) as [Hkey Hval].
  rewrite written_rows. unfold migrate_csv. rewrite Hc, Hl. cbn [negb].
  assert (Hd : DictReader (CSV_HEADERS :: (csv_row rt <$> [m]))
               = [zip_row CSV_HEADERS (csv_row rt m) ∅]).
  { unfold DictReader. cbn [fmap list_fmap].
    rewrite filter_cons_True by (rewrite csv_row_fields; discriminate).
    reflexivity. }
  rewrite Hd. cbn [foldl]. unfold migrate_row. rewrite Hkey. cbn [table budget].
  rewrite Hk, Hval.
  assert (Hnn : not_null_ok (migrated_row dflt m) = true) by reflexivity.
  destruct skip_duplicates; cbn [execute]; rewrite Hnn, Ha; reflexivity.
Qed.

(** ** The migration loop on a connection that never drops *)

Lemma migrate_row_healthy rt srv dflt st row :
  budget st = None →
  migrate_row rt srv dflt true st row
  = apply_outcome st (classify rt srv dflt (table st) row).
Proof.
  intros Hb. unfold migrate_row, classify, is_duplicate, insertable.
  rewrite Hb. destruct (parse_key rt row) as [[dt c]|]; [|done].
  cbn [execute mbind option_bind].
  destruct (has_key srv (table st) dt c); [done|].
  destruct (parse_values rt dflt row dt c) as [v|]; [|done].
  cbn [mbind option_bind andb].
  by destruct (not_null_ok v && accepts srv v).
Qed.

Lemma apply_outcome_budget st o : budget (apply_outcome st o) = None.
Proof. by destruct o. Qed.

Lemma migrate_rows_healthy rt srv dflt rows : ∀ st,
  budget st = None →
  foldl (migrate_row rt srv dflt true) st rows = run rt srv dflt st rows.
Proof.
  unfold run. induction rows as [|row rows IH]; intros st Hb; [done|].
  cbn [foldl]. rewrite migrate_row_healthy by done.
  apply IH, apply_outcome_budget.
Qed.

Lemma run_cons rt srv dflt st row rows :
  run rt srv dflt st (row :: rows)
  = run rt srv dflt (apply_outcome st (classify rt srv dflt (table st) row)) rows.
Proof. reflexivity. Qed.

Lemma has_key_app srv t1 t2 dt c :
  has_key srv (t1 ++ t2) dt c = has_key srv t1 dt c || has_key srv t2 dt c.
Proof. unfold has_key. apply existsb_app. Qed.

Lemma key_matches_key_eq srv dt c v :
  key_matches srv dt c v = key_eq srv (datetime_utc v, city v) (dt, c).
Proof. reflexivity. Qed.

(** An importable row is stored under its own key. *)
Lemma insertable_key rt srv dflt row v :
  insertable rt srv dflt row = Some v →
  ∃ c0, parse_key rt row = Some (datetime_utc v, Some c0) ∧ city v = Some c0.
Proof.
  unfold insertable. destruct (parse_key rt row) as [[dt c]|]; [|done].
  cbn [mbind option_bind].
  destruct (parse_values rt dflt row dt c) as [w|] eqn:Hv; [|done].
  cbn [mbind option_bind].
  destruct (not_null_ok w) eqn:Hn; [|done]. cbn [andb].
  destruct (accepts srv w); [|done]. intros [= ->].
  assert (datetime_utc v = dt ∧ city v = c) as [<- <-].
  { unfold parse_values in Hv. by simplify_option_eq. }
  unfold not_null_ok in Hn. destruct (city v) as [c0|]; [|done].
  by exists c0.
Qed.

Lemma insertable_matches rt srv dflt row v dt c :
  (∀ a, same_city srv a a = true) →
  insertable rt srv dflt row = Some v →
  parse_key rt row = Some (dt, c) →
  key_matches srv dt c v = true.
Proof.
  intros Hrefl Hi Hk.
  destruct (insertable_key _ _ _ _ _ Hi) as (c0 & Hk' & Hc).
  rewrite Hk in Hk'. injection Hk' as -> ->.
  unfold key_matches. rewrite Hc, Hrefl.
  by rewrite bool_decide_eq_true_2.
Qed.

(** One step, by outcome. *)
Lemma classify_cases rt srv dflt tbl row :
  (classify rt srv dflt tbl row = Skipped
   ∧ (parse_key rt row = None
      ∨ (is_duplicate rt srv tbl row = false
         ∧ insertable rt srv dflt row = None)))
  ∨ (classify rt srv dflt tbl row = Duplicate
     ∧ is_duplicate rt srv tbl row = true)
  ∨ (∃ v, classify rt srv dflt tbl row = Imported v
       ∧ is_duplicate rt srv tbl row = false
       ∧ insertable rt srv dflt row = Some v).
Proof.
  unfold classify.
  destruct (parse_key rt row) as [k|] eqn:Hk; [|left; by split; [|left]].
  destruct (is_duplicate rt srv tbl row); [right; left; done|].
  destruct (insertable rt srv dflt row) as [v|].
  - right; right. by exists v.
  - left. split; [done|]. by right.
Qed.

(** The table only grows, by importable rows of the batch. *)
Lemma run_table rt srv dflt rows : ∀ st,
  ∃ new,
    table (run rt srv dflt st rows) = table st ++ new
    ∧ (length new + rows_imported st)%nat
      = rows_imported (run rt srv dflt st rows)
    ∧ fresh_inserts srv (table st) new = true
    ∧ Forall (λ v, ∃ row, row ∈ rows ∧ insertable rt srv dflt row = Some v) new.
Proof.
  induction rows as [|row rows IH]; intros st.
  { exists []. by rewrite app_nil_r. }
  rewrite run_cons.
  destruct (IH (apply_outcome st (classify rt srv dflt (table st) row)))
    as (new & Ht & Hn & Hf & Hall).
  assert (Hall' : Forall (λ v, ∃ r, r ∈ (row :: rows)
                     ∧ insertable rt srv dflt r = Some v) new).
  { eapply Forall_impl; [exact Hall|]. intros v (r & Hr & H).
    exists r. split; [by right|done]. }
  destruct (classify_cases rt srv dflt (table st) row)
    as [[Hc _]|[[Hc _]|(v & Hc & Hd & Hi)]]; rewrite Hc in *; cbn in *.
  - by exists new.
  - by exists new.
  - exists (v :: new). rewrite <- app_assoc in Ht. split; [done|].
    split; [cbn; lia|]. split.
    + cbn [fresh_inserts]. rewrite Hf, andb_true_r.
      destruct (insertable_key _ _ _ _ _ Hi) as (c0 & Hk & Hcv).
      unfold is_duplicate in Hd. rewrite Hk in Hd. by rewrite Hcv, Hd.
    + constructor; [|done]. exists row. split; [by left|done].
Qed.

Lemma run_has_key_mono rt srv dflt rows st dt c :
  has_key srv (table st) dt c = true →
  has_key srv (table (run rt srv dflt st rows)) dt c = true.
Proof.
  intros H. destruct (run_table rt srv dflt rows st) as (new & -> & _).
  by rewrite has_key_app, H.
Qed.

(** Every row is counted once. *)
Lemma run_total rt srv dflt rows : ∀ st,
  (rows_imported (run rt srv dflt st rows)
   + rows_duplicate (run rt srv dflt st rows)
   + rows_skipped (run rt srv dflt st rows))%nat
  = (rows_imported st + rows_duplicate st + rows_skipped st + length rows)%nat.
Proof.
  induction rows as [|row rows IH]; intros st; [cbn; lia|].
  rewrite run_cons, IH.
  destruct (classify rt srv dflt (table st) row); cbn; lia.
Qed.

(** After a batch, the key of each of its importable rows is stored. *)
Lemma run_covers rt srv dflt rows :
  (∀ a, same_city srv a a = true) →
  ∀ st row dt c v,
    row ∈ rows →
    parse_key rt row = Some (dt, c) →
    insertable rt srv dflt row = Some v →
    has_key srv (table (run rt srv dflt st rows)) dt c = true.
Proof.
  intros Hrefl. induction rows as [|r rows IH]; intros st row dt c v Hin Hk Hi.
  { by apply elem_of_nil in Hin. }
  rewrite run_cons. apply elem_of_cons in Hin as [->|Hin]; [|by eapply IH].
  apply run_has_key_mono.
  destruct (classify_cases rt srv dflt (table st) r)
    as [[_ [Hn|[_ Hn]]]|[[Hc Hd]|(w & Hc & _ & Hw)]]; [congruence..| |].
  - rewrite Hc. cbn [apply_outcome duplicate_row table].
    unfold is_duplicate in Hd. by rewrite Hk in Hd.
  - rewrite Hc. cbn [apply_outcome import_row table].
    rewrite has_key_app. apply orb_true_iff. right.
    assert (w = v) as -> by congruence.
    cbn [has_key existsb].
    by rewrite (insertable_matches _ _ _ _ _ _ _ Hrefl Hi Hk).
Qed.

(** A batch whose importable rows are all stored already imports nothing. *)
Lemma run_inert rt srv dflt rows : ∀ st,
  (∀ row dt c v, row ∈ rows → parse_key rt row = Some (dt, c) →
     insertable rt srv dflt row = Some v →
     has_key srv (table st) dt c = true) →
  table (run rt srv dflt st rows) = table st
  ∧ rows_imported (run rt srv dflt st rows) = rows_imported st
  ∧ rows_duplicate (run rt srv dflt st rows)
    = (rows_duplicate st + count_duplicates rt srv (table st) rows)%nat.
Proof.
  induction rows as [|row rows IH]; intros st Hall; [cbn; auto with lia|].
  rewrite run_cons. cbn [count_duplicates].
  assert (Hstep : ∃ st', apply_outcome st (classify rt srv dflt (table st) row)
                         = st'
            ∧ table st' = table st ∧ rows_imported st' = rows_imported st
            ∧ rows_duplicate st'
              = (rows_duplicate st
                 + if is_duplicate rt srv (table st) row then 1 else 0)%nat).
  { eexists. split; [reflexivity|].
    destruct (classify_cases rt srv dflt (table st) row)
      as [[Hc H]|[[Hc Hd]|(v & Hc & Hd & Hi)]]; rewrite Hc; cbn.
    - destruct H as [Hn|[-> _]]; [|auto with lia].
      unfold is_duplicate. rewrite Hn. auto with lia.
    - rewrite Hd. auto with lia.
    - exfalso. unfold is_duplicate in Hd.
      destruct (parse_key rt row) as [[dt c]|] eqn:Hk.
      + rewrite (Hall row dt c v) in Hd; [done|by left|done|done].
      + destruct (insertable_key _ _ _ _ _ Hi) as (? & ? & _). congruence. }
  destruct Hstep as (st' & -> & Ht & Hi & Hd).
  destruct (IH st') as (Ht' & Hi' & Hd').
  { intros r dt c v Hr Hk Hv. rewrite Ht. eapply Hall; [by right|done..]. }
  rewrite Ht', Hi', Hd', Ht, Hi, Hd. auto with lia.
Qed.

Lemma forallb_elem {A} (f : A → bool) l x :
  forallb f l = true → x ∈ l → f x = true.
Proof.
  intros H Hx. rewrite forallb_forall in H. by apply H, list_elem_of_In.
Qed.

Lemma forallb_intro {A} (f : A → bool) l :
  (∀ x, x ∈ l → f x = true) → forallb f l = true.
Proof.
  intros H. apply forallb_forall. intros x Hx. by apply H, list_elem_of_In.
Qed.

Lemma existsb_none {A} (f : A → bool) l :
  (∀ x, x ∈ l → f x = false) → existsb f l = false.
Proof.
  induction l as [|a l IH]; intros H; [done|]. cbn [existsb].
  rewrite (H a) by left. apply IH. intros x Hx. apply H. by right.
Qed.

(** Rows that were imported or found duplicate are duplicates for every
    table that holds what the batch left. *)
Lemma run_lower rt srv dflt rows tbl :
  (∀ a, same_city srv a a = true) →
  ∀ st,
    (∀ dt c, has_key srv (table (run rt srv dflt st rows)) dt c = true →
             has_key srv tbl dt c = true) →
    (rows_imported (run rt srv dflt st rows)
     + rows_duplicate (run rt srv dflt st rows)
     ≤ rows_imported st + rows_duplicate st
       + count_duplicates rt srv tbl rows)%nat.
Proof.
  intros Hrefl. induction rows as [|row rows IH]; intros st Hsub; [cbn; lia|].
  rewrite run_cons in *. cbn [count_duplicates].
  specialize (IH _ Hsub).
  enough ((rows_imported (apply_outcome st (classify rt srv dflt (table st) row))
           + rows_duplicate (apply_outcome st (classify rt srv dflt (table st) row))
           ≤ rows_imported st + rows_duplicate st
             + if is_duplicate rt srv tbl row then 1 else 0)%nat) by lia.
  destruct (classify_cases rt srv dflt (table st) row)
    as [[Hc _]|[[Hc Hd]|(v & Hc & _ & Hi)]].
  - rewrite Hc. cbn. lia.
  - assert (is_duplicate rt srv tbl row = true) as ->; [|rewrite Hc; cbn; lia].
    unfold is_duplicate in *.
    destruct (parse_key rt row) as [[dt c]|]; [|done].
    apply Hsub. rewrite Hc. by apply run_has_key_mono.
  - assert (is_duplicate rt srv tbl row = true) as ->; [|rewrite Hc; cbn; lia].
    destruct (insertable_key _ _ _ _ _ Hi) as (c0 & Hk & Hcv).
    unfold is_duplicate. rewrite Hk. apply Hsub. rewrite Hc.
    apply run_has_key_mono. cbn [apply_outcome import_row table].
    rewrite has_key_app. apply orb_true_iff. right. cbn [has_key existsb].
    by rewrite (insertable_matches _ _ _ _ _ _ _ Hrefl Hi Hk).
Qed.

(** With pairwise distinct keys that are new to the table, nothing is a
    duplicate in the batch, and the rows that are duplicates afterwards
    are the imported ones. *)
Lemma run_distinct rt srv dflt rows :
  (∀ a, same_city srv a a = true) →
  ∀ st,
    fresh_keys srv (table st) (omap (parse_key rt) rows) = true →
    distinct_keys srv (omap (parse_key rt) rows) = true →
    rows_duplicate (run rt srv dflt st rows) = rows_duplicate st
    ∧ rows_imported (run rt srv dflt st rows)
      = (rows_imported st
         + count_duplicates rt srv (table (run rt srv dflt st rows)) rows)%nat.
Proof.
  intros Hrefl. induction rows as [|row rows IH]; intros st Hfresh Hdist.
  { cbn. auto with lia. }
  rewrite run_cons. cbn [count_duplicates]. cbn [omap list_omap] in Hfresh, Hdist.
  unfold classify, is_duplicate.
  destruct (parse_key rt row) as [[dt c]|] eqn:Hk.
  2:{ destruct (IH (apply_outcome st Skipped) Hfresh Hdist) as [Hd Hi].
      rewrite Hd, Hi. cbn. auto with lia. }
  cbn [fresh_keys forallb distinct_keys fst snd] in Hfresh, Hdist.
  apply andb_true_iff in Hfresh as [Hnew Hfresh].
  apply andb_true_iff in Hdist as [Hhead Hdist].
  apply negb_true_iff in Hnew. rewrite Hnew.
  destruct (insertable rt srv dflt row) as [v|] eqn:Hi.
  - destruct (insertable_key _ _ _ _ _ Hi) as (c0 & Hk' & Hcv).
    assert (dt = datetime_utc v ∧ c = city v) as [-> ->]
      by (split; congruence).
    destruct (IH (apply_outcome st (Imported v))) as [Hd Him]; [|done|].
    { apply forallb_intro. intros k' Hk'in.
      cbn [apply_outcome import_row table].
      pose proof (forallb_elem _ _ _ Hfresh Hk'in) as Hold.
      apply negb_true_iff in Hold. rewrite has_key_app, Hold.
      cbn [has_key existsb orb]. rewrite orb_false_r, key_matches_key_eq.
      pose proof (forallb_elem _ _ _ Hhead Hk'in) as H.
      apply andb_true_iff in H as [H _]. by destruct k'. }
    rewrite Hd, Him.
    assert (has_key srv (table (run rt srv dflt (apply_outcome st (Imported v))
                                  rows)) (datetime_utc v) (city v) = true) as ->.
    { apply run_has_key_mono. cbn [apply_outcome import_row table].
      rewrite has_key_app. apply orb_true_iff. right. cbn [has_key existsb].
      by rewrite (insertable_matches _ _ _ _ _ _ _ Hrefl Hi Hk). }
    cbn. auto with lia.
  - destruct (IH (apply_outcome st Skipped) Hfresh Hdist) as [Hd Him].
    rewrite Hd, Him.
    destruct (run_table rt srv dflt rows (apply_outcome st Skipped))
      as (new & Ht & _ & _ & Hall).
    assert (has_key srv (table (run rt srv dflt (apply_outcome st Skipped) rows))
              dt c = false) as ->.
    { rewrite Ht. cbn [apply_outcome skip_row table].
      rewrite has_key_app, Hnew. cbn [orb]. apply existsb_none.
      intros v Hv. rewrite Forall_forall in Hall.
      destruct (Hall v Hv) as (r & Hr & Hri).
      destruct (insertable_key _ _ _ _ _ Hri) as (c0 & Hrk & Hcv).
      assert (Hin : (datetime_utc v, city v) ∈ omap (parse_key rt) rows).
      { apply list_elem_of_omap. exists r. split; [done|]. by rewrite Hcv. }
      pose proof (forallb_elem _ _ _ Hhead Hin) as H.
      apply andb_true_iff in H as [_ H]. apply negb_true_iff in H.
      by rewrite key_matches_key_eq. }
    cbn. auto with lia.
Qed.

Lemma run_budget rt srv dflt rows : ∀ st,
  budget st = None → budget (run rt srv dflt st rows) = None.
Proof.
  induction rows as [|row rows IH]; intros st Hb; [done|].
  rewrite run_cons. apply IH, apply_outcome_budget.
Qed.

Lemma migrate_csv_healthy rt srv dflt db rows :
  connect_ok srv = true → link_budget srv = None →
  migrate_csv rt srv dflt db (Some rows) true
  = mkMigration (Val true)
      (Some (mkCounts
         (rows_imported (run rt srv dflt (mkTxn db None 0 0 0) (DictReader rows)))
         (rows_duplicate (run rt srv dflt (mkTxn db None 0 0 0) (DictReader rows)))
         (rows_skipped (run rt srv dflt (mkTxn db None 0 0 0) (DictReader rows)))))
      (table (run rt srv dflt (mkTxn db None 0 0 0) (DictReader rows))).
Proof.
  intros Hc Hl. unfold migrate_csv. rewrite Hc, Hl. cbn [negb].
  rewrite migrate_rows_healthy by done.
  by rewrite run_budget.
Qed.

(** C2 (amended). On a connection that never drops, where a city equals
    itself, run the migration twice over the same file with duplicate
    detection.  Both runs succeed; the second imports nothing and leaves
    the store as the first left it; the key of every importable row of the
    file is stored, and no row the first run inserted has the key of a row
    stored before it; the second run accounts for as many rows
    as the first, and counts as duplicates at least the rows the first
    imported or found duplicate.  When the keys of the file are pairwise
    distinct and new to the store, the first run finds no duplicate and the
    second run's duplicate count is the first run's imported count. *)
Theorem migration_twice rt srv dflt db rows :
  connect_ok srv = true → link_budget srv = None →
  (∀ a, same_city srv a a = true) →
  ∃ c1 c2 s1,
    migrate_csv rt srv dflt db (Some rows) true = mkMigration (Val true) (Some c1) s1
    ∧ migrate_csv rt srv dflt s1 (Some rows) true
      = mkMigration (Val true) (Some c2) s1
    ∧ imported c2 = 0%nat
    ∧ (duplicate c2 + skipped c2 = imported c1 + duplicate c1 + skipped c1)%nat
    ∧ (imported c1 + duplicate c1 ≤ duplicate c2)%nat
    ∧ (∃ new, s1 = db ++ new ∧ length new = imported c1
              ∧ fresh_inserts srv db new = true)
    ∧ (∀ row dt c v,
         row ∈ DictReader rows → parse_key rt row = Some (dt, c) →
         insertable rt srv dflt row = Some v → has_key srv s1 dt c = true)
    ∧ (fresh_keys srv db (file_keys rt rows) = true →
       distinct_keys srv (file_keys rt rows) = true →
       duplicate c1 = 0%nat ∧ duplicate c2 = imported c1).
Proof.
  intros Hc Hl Hrefl. rewrite migrate_csv_healthy by done.
  set (rs := DictReader rows).
  set (st1 := run rt srv dflt (mkTxn db None 0 0 0) rs).
  eexists _, _, (table st1). split; [reflexivity|].
  rewrite migrate_csv_healthy by done. fold rs.
  set (st2 := run rt srv dflt (mkTxn (table st1) None 0 0 0) rs).
  destruct (run_inert rt srv dflt rs (mkTxn (table st1) None 0 0 0))
    as (Ht2 & Hi2 & Hd2).
  { intros row dt c v Hr Hk Hv. cbn [table].
    by eapply run_covers. }
  fold st2 in Ht2, Hi2, Hd2. cbn [table rows_imported rows_duplicate] in *.
  pose proof (run_total rt srv dflt rs (mkTxn db None 0 0 0)) as Htot1.
  pose proof (run_total rt srv dflt rs (mkTxn (table st1) None 0 0 0)) as Htot2.
  fold st1 in Htot1. fold st2 in Htot2.
  cbn [rows_imported rows_duplicate rows_skipped] in Htot1, Htot2.
  pose proof (run_lower rt srv dflt rs (table st1) Hrefl (mkTxn db None 0 0 0))
    as Hlow.
  fold st1 in Hlow. cbn [rows_imported rows_duplicate] in Hlow.
  specialize (Hlow (λ _ _ H, H)).
  rewrite Ht2. split; [reflexivity|]. cbn [imported duplicate skipped].
  fold st2. split; [done|]. split; [lia|]. split; [lia|]. split; [|split].
  - destruct (run_table rt srv dflt rs (mkTxn db None 0 0 0))
      as (new & Hnew & Hlen & Hfr & _).
    fold st1 in Hnew, Hlen. cbn [table rows_imported] in Hnew, Hlen.
    exists new. split; [done|]. split; [lia|done].
  - intros row dt c v Hr Hk Hv. by eapply run_covers.
  - intros Hfresh Hdist.
    destruct (run_distinct rt srv dflt rs Hrefl (mkTxn db None 0 0 0)
                Hfresh Hdist) as [Hd1 Hi1].
    fold st1 in Hd1, Hi1. cbn [rows_imported rows_duplicate] in Hd1, Hi1.
    split; [done|]. lia.
Qed.

(** ** Duplicate detection *)





(** ** Row-level isolation and connection failure *)

Lemma migrate_row_counts rt srv dflt skip st row :
  (rows_imported (migrate_row rt srv dflt skip st row)
   + rows_duplicate (migrate_row rt srv dflt skip st row)
   + rows_skipped (migrate_row rt srv dflt skip st row))%nat
  = S (rows_imported st + rows_duplicate st + rows_skipped st).
Proof.
  unfold migrate_row.
  repeat (match goal with
          | |- context [match ?x with _ => _ end] => destruct x
          end; cbn); lia.
Qed.

Lemma migrate_rows_counts rt srv dflt skip rows : ∀ st,
  (rows_imported (foldl (migrate_row rt srv dflt skip) st rows)
   + rows_duplicate (foldl (migrate_row rt srv dflt skip) st rows)
   + rows_skipped (foldl (migrate_row rt srv dflt skip) st rows))%nat
  = (rows_imported st + rows_duplicate st + rows_skipped st + length rows)%nat.
Proof.
  induction rows as [|row rows IH]; intros st; cbn [foldl length]; [lia|].
  rewrite IH, migrate_row_counts. lia.
Qed.

Lemma migrate_row_budget rt srv dflt skip st row :
  (budget st = None → budget (migrate_row rt srv dflt skip st row) = None)
  ∧ (budget st = Some O →
     budget (migrate_row rt srv dflt skip st row) = Some O
     ∧ table (migrate_row rt srv dflt skip st row) = table st).
Proof.
  unfold migrate_row. split; intros Hb; rewrite Hb;
    (destruct (parse_key rt row) as [[dt c]|]; [|done]);
    destruct skip; cbn [execute];
    try (destruct (has_key srv (table st) dt c); [done|]);
    try done;
    (destruct (parse_values rt dflt row dt c) as [v|]; [|done]);
    cbn [execute andb]; try done;
    by destruct (not_null_ok v && accepts srv v).
Qed.

Lemma migrate_rows_budget rt srv dflt skip rows : ∀ st,
  (budget st = None →
   budget (foldl (migrate_row rt srv dflt skip) st rows) = None)
  ∧ (budget st = Some O →
     budget (foldl (migrate_row rt srv dflt skip) st rows) = Some O).
Proof.
  induction rows as [|row rows IH]; intros st; [done|]. cbn [foldl].
  destruct (migrate_row_budget rt srv dflt skip st row) as [H1 H2].
  destruct (IH (migrate_row rt srv dflt skip st row)) as [I1 I2].
  split; intros Hb; [apply I1, H1, Hb|apply I2, H2, Hb].
Qed.

Lemma migrate_row_shift rt srv dflt skip a b row :
  same_store a b →
  same_store (migrate_row rt srv dflt skip a row)
             (migrate_row rt srv dflt skip b row)
  ∧ same_progress a (migrate_row rt srv dflt skip a row)
                  b (migrate_row rt srv dflt skip b row).
Proof.
  destruct a as [ta ba ia sa da], b as [tb bb ib sb db].
  unfold same_store, same_progress. cbn [table budget]. intros [-> ->].
  unfold migrate_row. cbn [table budget].
  destruct (parse_key rt row) as [[dt c]|]; [|cbn; auto with lia].
  destruct skip, (execute bb) as [[] b']; cbn;
    try destruct (has_key srv tb dt c); cbn; auto with lia;
    destruct (parse_values rt dflt row dt c) as [v|]; cbn; auto with lia;
    try destruct (execute b') as [[] b'']; cbn; auto with lia;
    destruct (not_null_ok v && accepts srv v); cbn; auto with lia.
Qed.

Lemma migrate_rows_shift rt srv dflt skip rows : ∀ a b,
  same_store a b →
  same_store (foldl (migrate_row rt srv dflt skip) a rows)
             (foldl (migrate_row rt srv dflt skip) b rows)
  ∧ same_progress a (foldl (migrate_row rt srv dflt skip) a rows)
                  b (foldl (migrate_row rt srv dflt skip) b rows).
Proof.
  induction rows as [|row rows IH]; intros a b Hs.
  { split; [done|]. unfold same_progress. cbn [foldl]. lia. }
  cbn [foldl].
  destruct (migrate_row_shift rt srv dflt skip a b row Hs) as [Hs1 Hp1].
  destruct (IH _ _ Hs1) as [Hs2 Hp2]. split; [done|].
  unfold same_progress in *. lia.
Qed.

(** A row that cannot be imported leaves the table as it found it. *)
Lemma migrate_row_not_insertable rt srv dflt skip st row :
  budget st = None →
  insertable rt srv dflt row = None →
  same_store (migrate_row rt srv dflt skip st row) st
  ∧ rows_imported (migrate_row rt srv dflt skip st row) = rows_imported st
  ∧ ((skip = true → is_duplicate rt srv (table st) row = false) →
     migrate_row rt srv dflt skip st row = skip_row None st).
Proof.
  intros Hb. unfold insertable, migrate_row, is_duplicate, same_store.
  rewrite Hb. destruct (parse_key rt row) as [[dt c]|]; [|done].
  cbn [mbind option_bind].
  destruct skip; cbn [execute].
  - destruct (has_key srv (table st) dt c).
    { cbn. intros _. repeat split; try done. intros H. by specialize (H eq_refl). }
    destruct (parse_values rt dflt row dt c) as [v|]; [|done].
    cbn [mbind option_bind andb].
    by destruct (not_null_ok v && accepts srv v).
  - destruct (parse_values rt dflt row dt c) as [v|]; [|done].
    cbn [mbind option_bind andb].
    by destruct (not_null_ok v && accepts srv v).
Qed.

Lemma DictReader_app hdr rows1 rows2 :
  DictReader (hdr :: rows1 ++ rows2)
  = DictReader (hdr :: rows1)
    ++ ((λ r, zip_row hdr r ∅) <$> filter (λ r, r ≠ []) rows2).
Proof. unfold DictReader. by rewrite filter_app, fmap_app. Qed.

Lemma migrate_csv_commits rt srv dflt db rows skip :
  connect_ok srv = true → link_budget srv = None →
  migrate_csv rt srv dflt db (Some rows) skip
  = mkMigration (Val true)
      (Some (mkCounts
         (rows_imported (foldl (migrate_row rt srv dflt skip)
                           (mkTxn db None 0 0 0) (DictReader rows)))
         (rows_duplicate (foldl (migrate_row rt srv dflt skip)
                            (mkTxn db None 0 0 0) (DictReader rows)))
         (rows_skipped (foldl (migrate_row rt srv dflt skip)
                          (mkTxn db None 0 0 0) (DictReader rows)))))
      (table (foldl (migrate_row rt srv dflt skip)
                (mkTxn db None 0 0 0) (DictReader rows))).
Proof.
  intros Hc Hl. unfold migrate_csv. rewrite Hc, Hl. cbn [negb].
  destruct (migrate_rows_budget rt srv dflt skip (DictReader rows)
              (mkTxn db None 0 0 0)) as [-> _]; done.
Qed.

(** With detection on, a row whose key is stored is counted as a
    duplicate before its values are looked at. *)
Lemma migrate_row_duplicate rt srv dflt st row :
  budget st = None →
  is_duplicate rt srv (table st) row = true →
  migrate_row rt srv dflt true st row = duplicate_row None st.
Proof.
  intros Hb. unfold is_duplicate, migrate_row. rewrite Hb.
  destruct (parse_key rt row) as [[dt c]|]; [|done].
  cbn [execute]. by intros ->.
Qed.

(** C9 (amended). On a connection that never drops the engine returns
    [True], commits the table the loop built, and reports three counts
    that add up to the number of rows read.  A row that cannot be imported
    (its key or its values do not parse, or the insert is rejected) changes
    neither the table nor the imported count, and the rows after it are
    treated as they are without it; it is counted as skipped, unless
    duplicate detection has counted it as a duplicate, which it does for
    every row whose key is stored, before the values are parsed.  When no
    connection is made the engine returns [False].  When the connection
    has dropped by the time some part of the file has been read, the commit
    fails and the engine rolls back: it returns [False] if the rollback
    gets through, and otherwise the error of the rollback leaves it.
    Whenever it does not return [True], nothing is stored and nothing is
    reported. *)
Theorem migration_row_isolation rt srv dflt db hdr skip_duplicates :
  (connect_ok srv = true → link_budget srv = None →
   ∀ rows, ∃ c s,
     migrate_csv rt srv dflt db (Some rows) skip_duplicates
     = mkMigration (Val true) (Some c) s
     ∧ s = table (foldl (migrate_row rt srv dflt skip_duplicates)
                    (mkTxn db None 0 0 0) (DictReader rows))
     ∧ (imported c + duplicate c + skipped c)%nat = length (DictReader rows))
  ∧ (connect_ok srv = true → link_budget srv = None →
     ∀ pre raw post,
       raw ≠ [] → insertable rt srv dflt (zip_row hdr raw ∅) = None →
       ∃ c c' s,
         migrate_csv rt srv dflt db (Some (hdr :: pre ++ raw :: post))
           skip_duplicates = mkMigration (Val true) (Some c) s
         ∧ migrate_csv rt srv dflt db (Some (hdr :: pre ++ post))
             skip_duplicates = mkMigration (Val true) (Some c') s
         ∧ imported c = imported c'
         ∧ (duplicate c + skipped c)%nat = S (duplicate c' + skipped c'))
  ∧ (∀ st row,
       budget st = None → insertable rt srv dflt row = None →
       (skip_duplicates = true → is_duplicate rt srv (table st) row = false) →
       migrate_row rt srv dflt skip_duplicates st row = skip_row None st)
  ∧ (∀ st row,
       budget st = None → skip_duplicates = true →
       is_duplicate rt srv (table st) row = true →
       migrate_row rt srv dflt skip_duplicates st row = duplicate_row None st)
  ∧ (connect_ok srv = false →
     ∀ file, migrate_csv rt srv dflt db file skip_duplicates
             = mkMigration (Val false) None db)
  ∧ (connect_ok srv = true →
     ∀ rows1 rows2,
       budget (foldl (migrate_row rt srv dflt skip_duplicates)
                 (mkTxn db (link_budget srv) 0 0 0) (DictReader (hdr :: rows1)))
       = Some O →
       migrate_csv rt srv dflt db (Some (hdr :: rows1 ++ rows2)) skip_duplicates
       = mkMigration
           (if rollback_ok srv then Val false else Raise MySQLError) None db)
  ∧ (∀ file,
       succeeded (migrate_csv rt srv dflt db file skip_duplicates) ≠ Val true →
       stored (migrate_csv rt srv dflt db file skip_duplicates) = db
       ∧ reported (migrate_csv rt srv dflt db file skip_duplicates) = None).
Proof.
  split; [|split; [|split; [|split; [|split; [|split]]]]].
  - intros Hc Hl rows. rewrite migrate_csv_commits by done.
    eexists _, _. split; [reflexivity|]. split; [reflexivity|].
    cbn [imported duplicate skipped]. by rewrite migrate_rows_counts.
  - intros Hc Hl pre raw post Hraw Hi.
    rewrite !migrate_csv_commits by done.
    change (pre ++ raw :: post) with (pre ++ [raw] ++ post).
    rewrite !DictReader_app, filter_app, fmap_app, !foldl_app.
    rewrite filter_cons_True by done. cbn [filter list_filter fmap list_fmap].
    set (a := foldl _ _ (DictReader (hdr :: pre))).
    assert (Ha : budget a = None).
    { by apply (migrate_rows_budget rt srv dflt skip_duplicates
                  (DictReader (hdr :: pre)) (mkTxn db None 0 0 0)). }
    cbn [foldl].
    destruct (migrate_row_not_insertable rt srv dflt skip_duplicates a
                (zip_row hdr raw ∅) Ha Hi) as (Hs & Him & _).
    pose proof (migrate_row_counts rt srv dflt skip_duplicates a
                  (zip_row hdr raw ∅)) as Hcnt.
    destruct (migrate_rows_shift rt srv dflt skip_duplicates
                ((λ r, zip_row hdr r ∅) <$> filter (λ r, r ≠ []) post)
                _ _ Hs) as [[Ht _] (P1 & P2 & P3)].
    eexists _, _, _. split; [reflexivity|]. rewrite Ht.
    split; [reflexivity|]. cbn [imported duplicate skipped]. lia.
  - intros st row Hb Hi Hd.
    by apply (migrate_row_not_insertable rt srv dflt skip_duplicates st row).
  - intros st row Hb -> Hd. by apply migrate_row_duplicate.
  - intros Hc file. unfold migrate_csv. rewrite Hc. by destruct file.
  - intros Hc rows1 rows2 Hdead. unfold migrate_csv. rewrite Hc. cbn [negb].
    rewrite DictReader_app, foldl_app.
    destruct (migrate_rows_budget rt srv dflt skip_duplicates
                ((λ r, zip_row hdr r ∅) <$> filter (λ r, r ≠ []) rows2)
                (foldl (migrate_row rt srv dflt skip_duplicates)
                   (mkTxn db (link_budget srv) 0 0 0)
                   (DictReader (hdr :: rows1)))) as [_ ->]; [|done].
    cbn [execute]. by destruct (rollback_ok srv).
  - intros file. unfold migrate_csv. destruct file as [rows|]; [|done].
    destruct (connect_ok srv); [|done]. cbn [negb].
    destruct (execute _) as [[] b]; [done|]. by destruct (rollback_ok srv).
Qed.

(** ** Worked examples *)

Lemma collect_once_outcome_witness :
  returned (collect_once Reference.runtime Example.config Example.world)
  = Val true.
Proof.
  destruct (collect_once_outcome Reference.runtime Example.config
              Example.world Example.measurement) as (_ & _ & _ & Hs & _).
  - vm_compute. reflexivity.
  - vm_compute. reflexivity.
  - right. exists 12.5%float. reflexivity.
  - apply Hs; vm_compute; reflexivity.
Defined.

(** C1 as stated fails: with a PM2.5 reading that is a string, the store
    and the file sink succeed and the cycle returns [True] while forwarding
    is disabled; with forwarding enabled the cycle ends with [TypeError]
    instead. *)
Lemma forwarding_exception_ends_the_cycle :
  parse_measurement Scenario.all_sinks (clock Scenario.text_world)
    (fetch_from_airly Scenario.all_sinks Scenario.text_world)
  = Val (Some Scenario.text_measurement)
  ∧ db_insert Scenario.text_world Scenario.text_measurement = Val true
  ∧ file_sink_ok Reference.runtime Scenario.text_world
      Scenario.text_measurement = Val true
  ∧ returned (collect_once Reference.runtime Scenario.store_and_file
                Scenario.text_world) = Val true
  ∧ returned (collect_once Reference.runtime Scenario.all_sinks
                Scenario.text_world) = Raise TypeError.
Proof. vm_compute. auto. Qed.


Lemma normalizer_flattens_values_witness :
  parse_measurement Example.config Example.now (VDict Example.payload)
  = Val (Some Example.measurement).
Proof.
  refine (eq_trans
    (proj1 (proj2 (normalizer_flattens_values Example.config Example.now
                     (VDict Example.payload) Example.current Example.items
                     Example.entries _ _ _ _ _))) _).
  - vm_compute. reflexivity.
  - vm_compute. reflexivity.
  - vm_compute. reflexivity.
  - vm_compute. reflexivity.
  - vm_compute. reflexivity.
  - vm_compute. reflexivity.
Defined.

Lemma file_sink_row_witness :
  csv_row Reference.runtime Example.bare
  = [ "2024-05-01 12:30:07"; "Gdansk"; "54.375"; "18.625"; "12"; "30";
      ""; ""; ""; ""; ""; "" ].
Proof.
  refine (eq_trans
    (proj1 (file_sink_row Reference.runtime Example.bare _ _ _ _ _ _)) _).
  - repeat split.
  - discriminate.
  - vm_compute. discriminate.
  - vm_compute. discriminate.
  - vm_compute. discriminate.
  - vm_compute. discriminate.
  - vm_compute. reflexivity.
Defined.

(** C6 as stated fails: with an empty city label the second of the six
    leading fields is empty. *)
Lemma unlabelled_row_has_an_empty_leading_field :
  all_absent Scenario.unlabelled
  ∧ csv_row Reference.runtime Scenario.unlabelled
    = [ "2024-05-01 12:30:07"; ""; "54.375"; "18.625"; "12"; "30";
        ""; ""; ""; ""; ""; "" ].
Proof. vm_compute. auto 10. Qed.



Lemma file_round_trip_witness :
  migrate_csv Reference.runtime Reference.server 3387 []
    (written Reference.runtime [Example.measurement]) true
  = mkMigration (Val true) (Some (mkCounts 1 0 0))
      ([] ++ [migrated_row 3387 Example.measurement]).
Proof.
  refine (proj1 (file_round_trip Reference.runtime Reference.server 3387 []
                   Example.measurement true _ _ _ _ _)).
  - repeat split; try (vm_compute; reflexivity); vm_compute; discriminate.
  - reflexivity.
  - reflexivity.
  - reflexivity.
  - reflexivity.
Defined.

(** C5 as stated fails: the file has no station column, so a station id
    other than the default does not survive; nor does the microsecond. *)
Lemma round_trip_loses_station_id :
  m_station_id Example.bare = Some 42
  ∧ microsecond (m_timestamp Example.bare) = 250000
  ∧ (λ r, (station_id r, microsecond (datetime_utc r)))
      <$> stored (migrate_csv Reference.runtime Reference.server 3387 []
                    (written Reference.runtime [Example.bare]) true)
    = [(3387, 0)].
Proof. vm_compute. auto. Qed.

Lemma migration_twice_witness :
  ∃ c1 c2 s1,
    migrate_csv Reference.runtime Reference.server 3387 []
      Example.distinct_file true = mkMigration (Val true) (Some c1) s1
    ∧ migrate_csv Reference.runtime Reference.server 3387 s1
        Example.distinct_file true = mkMigration (Val true) (Some c2) s1
    ∧ duplicate c1 = 0%nat ∧ duplicate c2 = imported c1.
Proof.
  destruct (migration_twice Reference.runtime Reference.server 3387 []
              [CSV_HEADERS; Example.row_a; Example.row_bad; Example.row_c])
    as (c1 & c2 & s1 & E1 & E2 & _ & _ & _ & _ & _ & Hd).
  - reflexivity.
  - reflexivity.
  - intros a. apply String.eqb_refl.
  - exists c1, c2, s1. split; [exact E1|]. split; [exact E2|].
    apply Hd; vm_compute; reflexivity.
Defined.

(** C2 as stated fails: when the file repeats a key, the first run imports
    one row and counts the other as a duplicate; the second run counts
    both. *)
Lemma second_run_counts_repeated_rows :
  reported (migrate_csv Reference.runtime Reference.server 3387 []
              Example.repeated_file true)
  = Some (mkCounts 1 1 0)
  ∧ reported (migrate_csv Reference.runtime Reference.server 3387
                (stored (migrate_csv Reference.runtime Reference.server 3387 []
                           Example.repeated_file true))
                Example.repeated_file true)
    = Some (mkCounts 0 2 0).
Proof. vm_compute. auto. Qed.


Lemma migration_row_isolation_witness :
  ∃ c c' s,
    migrate_csv Reference.runtime Reference.server 3387 []
      (Some (CSV_HEADERS :: [Example.row_a] ++ Example.row_bad :: [Example.row_c]))
      true = mkMigration (Val true) (Some c) s
    ∧ migrate_csv Reference.runtime Reference.server 3387 []
        (Some (CSV_HEADERS :: [Example.row_a] ++ [Example.row_c])) true
      = mkMigration (Val true) (Some c') s
    ∧ imported c = imported c'
    ∧ (duplicate c + skipped c)%nat = S (duplicate c' + skipped c').
Proof.
  apply (proj1 (proj2 (migration_row_isolation Reference.runtime
                         Reference.server 3387 [] CSV_HEADERS true))).
  - reflexivity.
  - reflexivity.
  - discriminate.
  - vm_compute. reflexivity.
Defined.

(** C9 as stated fails: with detection on, a row whose latitude is not a
    number and whose key is stored is counted as a duplicate, not as
    skipped. *)
Lemma unparsable_row_with_stored_key_is_a_duplicate :
  parse_values Reference.runtime 3387
    (zip_row CSV_HEADERS (<[2%nat := "north"]> Example.row_a) ∅)
    (mkDatetime 2024 5 1 12 0 0 0) (Some "Gdansk") = None
  ∧ reported (migrate_csv Reference.runtime Reference.server 3387
                [Example.stored_a]
                (Some [CSV_HEADERS; <[2%nat := "north"]> Example.row_a])
                true)
    = Some (mkCounts 0 1 0).
Proof. vm_compute. auto. Qed.

(** A "current" section that is a list has no [get] method. *)
Example parse_raises_on_list_section :
  parse_measurement Example.config Example.now
    (VDict (<["current" := VList (VInt 1 :: nil)]> ∅))
  = Raise AttributeError.
Proof. vm_compute. reflexivity. Qed.

(** Without "current" the first history element is the source. *)
Example parse_falls_back_to_history :
  m_pm25 <$> default None
    (match parse_measurement Example.config Example.now
             (VDict (delete "current" Example.payload)) with
     | Val r => Some r
     | Raise _ => None
     end)
  = Some (VFloat 99%float).
Proof. vm_compute. reflexivity. Qed.

Example parse_no_data :
  parse_measurement Example.config Example.now
    (VDict (<["current" := VDict ∅]> ∅))
  = Val None.
Proof. vm_compute. reflexivity. Qed.

(** The cycle of [Example.world]: the store, then the forwarding sink. *)
Example cycle_calls :
  calls (collect_once Reference.runtime Example.config Example.world)
  = [ToRelational Example.measurement; ToForwarding Example.measurement].
Proof. vm_compute. reflexivity. Qed.

Example distinct_file_counts :
  reported (migrate_csv Reference.runtime Reference.server 3387 []
              Example.distinct_file true)
  = Some (mkCounts 2 0 1).
Proof. vm_compute. reflexivity. Qed.

(** Without duplicate detection both rows of [Example.repeated_file] are
    imported. *)
Example repeated_file_without_detection :
  reported (migrate_csv Reference.runtime Reference.server 3387 []
              Example.repeated_file false)
  = Some (mkCounts 2 0 0).
Proof. vm_compute. reflexivity. Qed.

(** A connection that drops after three statements: the first row is
    inserted in the transaction, the insert of the last row and the commit
    fail, and nothing is stored.  The engine returns [False] when the
    rollback gets through, and ends with its error when it does not. *)
Example dropped_connection :
  migrate_csv Reference.runtime
    (mkServer true (Some 3%nat) String.eqb (λ _, true) true) 3387 []
    Example.distinct_file true
  = mkMigration (Val false) None []
  ∧ migrate_csv Reference.runtime
      (mkServer true (Some 3%nat) String.eqb (λ _, true) false) 3387 []
      Example.distinct_file true
    = mkMigration (Raise MySQLError) None [].
Proof. vm_compute. auto. Qed.

(** What the file sink writes for [Example.bare] into a new file. *)
Example written_text_of_bare :
  written_text Reference.runtime [Example.bare]
  = Some ("datetime_utc,city,lat,lon,hour_utc,minute_utc,PM25,PM10,"
          +:+ "TEMPERATURE,HUMIDITY,PRESSURE,AQI"
          +:+ String CR (String LF "")
          +:+ "2024-05-01 12:30:07,Gdansk,54.375,18.625,12,30,,,,,,"
          +:+ String CR (String LF "")).
Proof. vm_compute. reflexivity. Qed.

(** A label with a comma and a quote is quoted, and read back as it
    was. *)
Example quoted_field :
  csv_writerow ["a,b"; String quotechar "c"; ""]
  = String quotechar ("a,b" +:+ String quotechar (String ","%char
      (String quotechar (String quotechar (String quotechar
         ("c" +:+ String quotechar (String ","%char
            (String CR (String LF "")))))))))
  ∧ csv_reader (csv_writerow ["a,b"; String quotechar "c"; ""])
    = [["a,b"; String quotechar "c"; ""]].
Proof. vm_compute. auto. Qed.

(** A file whose last line has no terminator: the appended row continues
    that line. *)
Example unterminated_file :
  csv_reader ("a,b" +:+ csv_writerow ["x"; "y"]) = [["a"; "bx"; "y"]].
Proof. vm_compute. reflexivity. Qed.

(** A first row whose values do not parse does not claim its key. *)
Example unparsed_row_is_no_duplicate :
  reported (migrate_csv Reference.runtime Reference.server 3387 []
              (Some [CSV_HEADERS;
                     <[2%nat := "north"]> Example.row_a; Example.row_b]) true)
  = Some (mkCounts 1 0 1).
Proof. vm_compute. reflexivity. Qed.

Example reference_repr :
  Reference.string_of_float 12.5%float = "12.5"
  ∧ Reference.string_of_float 30%float = "30.0"
  ∧ Reference.float_of_string " 1e-05 "
    = Reference.float_of_string "0.00001"
  ∧ Reference.int_of_string "3387" = Some 3387
  ∧ Reference.strptime "2024-02-30 00:00:00" = None.
Proof. vm_compute. auto. Qed.

(** * Further properties of the code *)

(** ** The collection cycle *)

(** The sinks the cycle invokes and the file it leaves, once a
    [Measurement] has been obtained. *)
Lemma collect_once_sinks rt cfg w m :
  truthy (fetch_from_airly cfg w) = true →
  parse_measurement cfg (clock w) (fetch_from_airly cfg w) = Val (Some m) →
  calls (collect_once rt cfg w)
  = (if enable_database cfg then [ToRelational m] else [])
    ++ match store_outcome cfg w m with
       | Raise _ => []
       | Val _ =>
         (if enable_csv cfg then [ToFile m] else [])
         ++ match file_outcome rt cfg w m with
            | Raise _ => []
            | Val _ => if enable_hsbi cfg then [ToForwarding m] else []
            end
       end
  ∧ file_after (collect_once rt cfg w)
    = match store_outcome cfg w m with
      | Raise _ => csv_on_disk w
      | Val _ =>
        if enable_csv cfg
        then (save_to_csv rt (csv_io w) (csv_on_disk w) m).2
        else csv_on_disk w
      end.
Proof.
  intros Hd Hp.
  unfold collect_once, store_outcome, file_outcome, file_sink_ok.
  rewrite Hd, Hp. cbn [negb].
  destruct (save_to_csv rt (csv_io w) (csv_on_disk w) m) as [saved file].
  cbn [fst snd].
  by destruct (enable_database cfg), (db_insert w m) as [[]|],
    (enable_csv cfg), saved as [[]|], (enable_hsbi cfg).
Qed.

(** X1. Once a [Measurement] has been obtained, the enabled sinks are
    invoked in the order store, file, forwarding, each once, up to the
    first that raises: a sink that returns [False] does not keep the later
    ones from running, a sink that raises does, and its exception is what
    the cycle ends with.  What the file sink writes does not depend on
    what the store returned. *)
Theorem sinks_attempted_independently rt cfg w m :
  truthy (fetch_from_airly cfg w) = true →
  parse_measurement cfg (clock w) (fetch_from_airly cfg w) = Val (Some m) →
  (∀ e, store_outcome cfg w m = Raise e →
     calls (collect_once rt cfg w) = [ToRelational m]
     ∧ file_after (collect_once rt cfg w) = csv_on_disk w
     ∧ returned (collect_once rt cfg w) = Raise e)
  ∧ (∀ b e, store_outcome cfg w m = Val b →
       file_outcome rt cfg w m = Raise e →
       calls (collect_once rt cfg w)
       = (if enable_database cfg then [ToRelational m] else []) ++ [ToFile m]
       ∧ returned (collect_once rt cfg w) = Raise e)
  ∧ (∀ b1 b2, store_outcome cfg w m = Val b1 →
       file_outcome rt cfg w m = Val b2 →
       calls (collect_once rt cfg w)
       = (if enable_database cfg then [ToRelational m] else [])
         ++ (if enable_csv cfg then [ToFile m] else [])
         ++ (if enable_hsbi cfg then [ToForwarding m] else []))
  ∧ (∀ b, store_outcome cfg w m = Val b →
       file_after (collect_once rt cfg w)
       = (if enable_csv cfg
          then (save_to_csv rt (csv_io w) (csv_on_disk w) m).2
          else csv_on_disk w)).
Proof.
  intros Hd Hp.
  destruct (collect_once_sinks rt cfg w m Hd Hp) as [Hc Hf].
  pose proof (collect_once_measured rt cfg w m Hd Hp) as Hr.
  rewrite Hc, Hf, Hr. split; [|split; [|split]].
  - intros e He. rewrite He. unfold store_outcome in He.
    destruct (enable_database cfg); [|done]. by rewrite app_nil_r.
  - intros b e Hb He. rewrite Hb, He. unfold file_outcome in He.
    destruct (enable_csv cfg); [|done]. by rewrite app_nil_r.
  - intros b1 b2 Hb1 Hb2. by rewrite Hb1, Hb2.
  - intros b Hb. by rewrite Hb.
Qed.

(** X2. The one-shot mode exits with status 0 exactly when the fetch gave
    a payload, the normalizer gave a [Measurement], every enabled sink among
    store and file returned [True], and the forwarding sink, if enabled,
    did not raise. *)
Theorem main_once_exit_status rt cfg w :
  main_once rt cfg w = 0 ↔
  ∃ m, airly_api_key cfg ≠ ""
    ∧ truthy (http_get w) = true
    ∧ parse_measurement cfg (clock w) (http_get w) = Val (Some m)
    ∧ (enable_database cfg = true → db_insert w m = Val true)
    ∧ (enable_csv cfg = true → file_sink_ok rt w m = Val true)
    ∧ (enable_hsbi cfg = true →
       ∃ b, send_to_hsbi rt cfg (http_post w) m = Val b).
Proof.
  unfold main_once.
  destruct (String.eqb_spec (airly_api_key cfg) "") as [Hk|Hk].
  { unfold collect_once, fetch_from_airly. rewrite Hk. cbn.
    split; [done|]. by intros (m & H & _). }
  assert (Hf : fetch_from_airly cfg w = http_get w).
  { unfold fetch_from_airly. by destruct (String.eqb_spec (airly_api_key cfg) ""). }
  destruct (truthy (http_get w)) eqn:Hd.
  2:{ unfold collect_once. rewrite Hf, Hd. cbn.
      split; [done|]. by intros (m & _ & H & _). }
  destruct (parse_measurement cfg (clock w) (http_get w)) as [[m|]|e] eqn:Hp.
  2:{ unfold collect_once. rewrite Hf, Hd, Hp. cbn.
      split; [done|]. by intros (m & _ & _ & H & _). }
  2:{ unfold collect_once. rewrite Hf, Hd, Hp. cbn.
      split; [done|]. by intros (m & _ & _ & H & _). }
  rewrite (collect_once_measured rt cfg w m) by (by rewrite Hf).
  split.
  - intros H. exists m. split; [done|]. split; [done|]. split; [done|].
    assert (store_outcome cfg w m = Val true
            ∧ file_outcome rt cfg w m = Val true
            ∧ (enable_hsbi cfg = true →
               ∃ b, send_to_hsbi rt cfg (http_post w) m = Val b))
      as (H1 & H2 & H3).
    { destruct (store_outcome cfg w m) as [[]|]; try done;
        destruct (file_outcome rt cfg w m) as [[]|]; try done;
        cbn [mbind res_bind andb] in H;
        destruct (enable_hsbi cfg); try done;
        destruct (send_to_hsbi rt cfg (http_post w) m) as [b|e'];
        try done; repeat split; eauto. }
    split; [by apply outcome_true|]. split; [by apply outcome_true|done].
  - intros (m' & _ & _ & Hm & H1 & H2 & H3).
    assert (m' = m) as -> by congruence.
    apply outcome_true in H1, H2.
    fold (store_outcome cfg w m) in H1. fold (file_outcome rt cfg w m) in H2.
    rewrite H1, H2. cbn [mbind res_bind andb].
    destruct (enable_hsbi cfg); [|done].
    by destruct (H3 eq_refl) as [b ->].
Qed.

(** X3. [collect_once] catches nothing.  An exception of the normalizer
    leaves the cycle before any sink is invoked, with the file untouched.
    When the store and the file sink have returned, an exception raised
    while the forwarding payload is built leaves the cycle after they have
    run: the row is written, and the cycle still ends with the exception
    instead of a result. *)
Theorem cycle_propagates_exceptions rt cfg w e :
  truthy (fetch_from_airly cfg w) = true →
  (parse_measurement cfg (clock w) (fetch_from_airly cfg w) = Raise e →
   returned (collect_once rt cfg w) = Raise e
   ∧ calls (collect_once rt cfg w) = []
   ∧ file_after (collect_once rt cfg w) = csv_on_disk w)
  ∧ (∀ m b1 b2,
       parse_measurement cfg (clock w) (fetch_from_airly cfg w) = Val (Some m) →
       store_outcome cfg w m = Val b1 → file_outcome rt cfg w m = Val b2 →
       enable_hsbi cfg = true → hsbi_api_url cfg ≠ "" →
       hsbi_payload rt cfg m = Raise e →
       returned (collect_once rt cfg w) = Raise e
       ∧ calls (collect_once rt cfg w)
         = (if enable_database cfg then [ToRelational m] else [])
           ++ (if enable_csv cfg then [ToFile m] else [])
           ++ [ToForwarding m]
       ∧ file_after (collect_once rt cfg w)
         = (if enable_csv cfg
            then (save_to_csv rt (csv_io w) (csv_on_disk w) m).2
            else csv_on_disk w)).
Proof.
  intros Hd. split.
  - intros Hp. unfold collect_once. by rewrite Hd, Hp.
  - intros m b1 b2 Hp Hb1 Hb2 Hh Hu He.
    assert (Hs : ∀ post, send_to_hsbi rt cfg post m = Raise e).
    { intros post. unfold send_to_hsbi.
      destruct (String.eqb_spec (hsbi_api_url cfg) ""); [done|].
      by rewrite He. }
    destruct (collect_once_sinks rt cfg w m Hd Hp) as [Hc Hf].
    rewrite Hc, Hf, (collect_once_measured rt cfg w m Hd Hp).
    rewrite Hb1, Hb2, Hh, Hs. done.
Qed.

(** ** The normalizer *)

(** X4. Whatever the payload, a [Measurement] that the normalizer returns
    carries the clock reading and the configured city, coordinates and
    station; its readings depend on the payload alone. *)
Theorem normalizer_stamps_configuration cfg now data m :
  parse_measurement cfg now data = Val (Some m) →
  m_timestamp m = now ∧ m_city m = city_name cfg
  ∧ m_latitude m = latitude cfg ∧ m_longitude m = longitude cfg
  ∧ m_station_id m = Some (installation_id cfg)
  ∧ ∀ cfg' now', ∃ m',
      parse_measurement cfg' now' data = Val (Some m')
      ∧ m_pm25 m' = m_pm25 m ∧ m_pm10 m' = m_pm10 m
      ∧ m_temperature m' = m_temperature m ∧ m_humidity m' = m_humidity m
      ∧ m_pressure m' = m_pressure m ∧ m_aqi m' = m_aqi m.
Proof.
  unfold parse_measurement.
  destruct (truthy data); cbn [negb]; [|done].
  destruct (select_source data) as [src|]; [|done]. py_step.
  destruct (truthy src); [|done]. py_step.
  destruct (py_get src "values" (VList [])) as [items|]; [|done]. py_step.
  destruct (py_iter items) as [its|]; [|done]. py_step.
  destruct (flatten_values its ∅) as [values|]; [|done]. py_step.
  destruct (py_get src "indexes" (VList [])) as [ix|]; [|done]. py_step.
  destruct (if truthy ix then _ else _) as [aqi|]; [|done]. py_step.
  intros [= <-]. cbn. repeat split; try done.
  intros cfg' now'. eexists. split; [reflexivity|]. done.
Qed.

Lemma parse_measurement_by_source cfg now (d d' : gmap string pyval) :
  d ≠ ∅ → d' ≠ ∅ →
  select_source (VDict d) = select_source (VDict d') →
  parse_measurement cfg now (VDict d) = parse_measurement cfg now (VDict d').
Proof.
  intros Hd Hd' Hs. unfold parse_measurement. cbn [truthy].
  rewrite !bool_decide_eq_false_2 by done. cbn [negb]. by rewrite Hs.
Qed.

(** X5. When the "current" section is not used, only the first element
    of "history" matters: the elements after it can be replaced at will. *)
Theorem history_beyond_first_is_ignored cfg now (d : gmap string pyval)
    h t t' :
  current_missing d = true →
  d !! "history" = Some (VList (h :: t)) →
  select_source (VDict d) = Val h
  ∧ parse_measurement cfg now (VDict d)
    = parse_measurement cfg now (VDict (<["history" := VList (h :: t')]> d)).
Proof.
  intros Hc Hh. split; [by eapply select_source_history|].
  apply parse_measurement_by_source.
  - intros ->. by rewrite lookup_empty in Hh.
  - apply insert_non_empty.
  - rewrite (select_source_history d h t Hc Hh).
    symmetry. apply (select_source_history _ h t').
    + unfold current_missing in *. by rewrite lookup_insert_ne.
    + by rewrite lookup_insert_eq.
Qed.

(** X6. A selected source that has no "values" entry, or an empty one, is
    not "no data": the normalizer returns a [Measurement] whose five
    readings are absent. *)
Theorem source_without_values_is_data cfg now data (src : gmap string pyval) :
  truthy data = true →
  select_source data = Val (VDict src) →
  src ≠ ∅ →
  src !! "values" = None ∨ src !! "values" = Some (VList []) →
  indexes_well_formed src = true →
  parse_measurement cfg now data
  = Val (Some (mkMeasurement now (city_name cfg) (latitude cfg) (longitude cfg)
                 VNone VNone VNone VNone VNone (first_index src)
                 (Some (installation_id cfg)))).
Proof.
  intros Hd Hs Hne Hv Hi. unfold parse_measurement.
  rewrite Hd, Hs. py_step. cbn [truthy].
  rewrite bool_decide_eq_false_2 by done. py_step.
  assert (Ha : (if truthy (default (VList []) (src !! "indexes"))
                then i0 ← py_getitem0 (default (VList []) (src !! "indexes"));
                     py_get i0 "value" VNone
                else mret VNone) = Val (first_index src)).
  { unfold indexes_well_formed in Hi. unfold first_index.
    destruct (src !! "indexes") as [i|]; [|reflexivity]. py_step.
    destruct i as [| | | | |[|[| | | | | |i0] l]|];
      first [ reflexivity
            | apply negb_true_iff in Hi; rewrite Hi; reflexivity ]. }
  destruct Hv as [-> | ->]; py_step; cbn [flatten_values]; py_step;
    rewrite Ha; reflexivity.
Qed.

Lemma flatten_values_raises good : ∀ es bad rest e (values : gmap string pyval),
  mapM entry_of good = Some es →
  (∀ acc, store_value acc bad = Raise e) →
  flatten_values (good ++ bad :: rest) values = Raise e.
Proof.
  induction good as [|v good IH]; intros es bad rest e values Hm Hb.
  - cbn [app flatten_values]. by rewrite Hb.
  - cbn [mapM] in Hm.
    destruct (entry_of v) as [[n x]|] eqn:Hv; [|done]. cbn in Hm.
    destruct (mapM entry_of good) as [es'|] eqn:Hr; [|done].
    cbn [app flatten_values]. rewrite (store_value_entry _ _ _ _ Hv).
    py_step. by eapply IH.
Qed.

(** X7. A values entry that lacks "value" or "name" is not skipped: the
    normalizer raises [KeyError], also when the entries before it are
    in order, and the cycle ends with that exception without invoking a
    sink. *)
Theorem entry_without_value_raises rt cfg w (src bad : gmap string pyval)
    good es rest :
  truthy (fetch_from_airly cfg w) = true →
  select_source (fetch_from_airly cfg w) = Val (VDict src) →
  src !! "values" = Some (VList (good ++ VDict bad :: rest)) →
  mapM entry_of good = Some es →
  bad !! "value" = None ∨ bad !! "name" = None →
  parse_measurement cfg (clock w) (fetch_from_airly cfg w) = Raise KeyError
  ∧ returned (collect_once rt cfg w) = Raise KeyError
  ∧ calls (collect_once rt cfg w) = [].
Proof.
  intros Hd Hs Hv Hm Hb.
  assert (Hp : parse_measurement cfg (clock w) (fetch_from_airly cfg w)
               = Raise KeyError).
  { unfold parse_measurement. rewrite Hd, Hs. py_step.
    rewrite (truthy_dict_lookup _ _ _ Hv). py_step. rewrite Hv. py_step.
    rewrite (flatten_values_raises good es (VDict bad) rest KeyError); [done..|].
    intros acc. unfold store_value. py_step.
    destruct (bad !! "value") as [x|] eqn:Hx; [|done]. py_step.
    destruct Hb as [Hb|Hb]; [done|]. by rewrite Hb. }
  split; [done|]. unfold collect_once. by rewrite Hd, Hp.
Qed.

(** ** The sinks *)

Lemma csv_row_length rt m : length (csv_row rt m) = 12%nat.
Proof. by rewrite csv_row_fields. Qed.

Lemma extends_file_refl file : extends_file file file.
Proof. by left. Qed.

Lemma extends_file_trans f1 f2 f3 :
  extends_file f1 f2 → extends_file f2 f3 → extends_file f1 f3.
Proof.
  intros [->|(t1 & ->)] H23; [done|].
  destruct H23 as [->|(t2 & ->)].
  - right. by exists t1.
  - right. exists (t1 +:+ t2). cbn [default from_option id].
    by rewrite string_app_assoc.
Qed.

Lemma save_to_csv_extends rt io file m :
  extends_file file (save_to_csv rt io file m).2.
Proof. destruct io; cbn; first [by left | right; by eexists]. Qed.

Lemma collect_once_file rt cfg w :
  file_after (collect_once rt cfg w) = csv_on_disk w
  ∨ ∃ m, file_after (collect_once rt cfg w)
         = (save_to_csv rt (csv_io w) (csv_on_disk w) m).2.
Proof.
  unfold collect_once.
  destruct (truthy (fetch_from_airly cfg w)); cbn [negb]; [|by left].
  destruct (parse_measurement cfg (clock w) (fetch_from_airly cfg w))
    as [[m|]|e]; [|by left..].
  destruct (save_to_csv rt (csv_io w) (csv_on_disk w) m) as [saved file]
    eqn:Hs.
  destruct (enable_database cfg), (db_insert w m) as [[]|],
    (enable_csv cfg), saved as [[]|], (enable_hsbi cfg); cbn;
    first [by left | right; exists m; by rewrite Hs].
Qed.

Lemma collect_once_extends rt cfg w :
  extends_file (csv_on_disk w) (file_after (collect_once rt cfg w)).
Proof.
  destruct (collect_once_file rt cfg w) as [->|[m ->]];
    [by left|apply save_to_csv_extends].
Qed.

Lemma appends_records_refl file : appends_records file file.
Proof.
  destruct file as [text|]; [|by left]. exists [].
  split; [done|]. by rewrite string_app_nil_r.
Qed.

Lemma csv_text_cons row rows :
  csv_text (row :: rows) = csv_writerow row +:+ csv_text rows.
Proof. reflexivity. Qed.

Lemma appends_records_trans f1 f2 f3 :
  appends_records f1 f2 → appends_records f2 f3 → appends_records f1 f3.
Proof.
  destruct f1 as [t1|]; cbn.
  - intros (n1 & H1 & ->) (n2 & H2 & ->). exists (n1 ++ n2).
    split; [by apply Forall_app|].
    by rewrite csv_text_app, string_app_assoc.
  - intros [->|(n1 & H1 & ->)]; [done|].
    intros (n2 & H2 & ->). right. exists (n1 ++ n2).
    split; [by apply Forall_app|].
    change (CSV_HEADERS :: n1 ++ n2) with ((CSV_HEADERS :: n1) ++ n2).
    by rewrite csv_text_app.
Qed.

Lemma save_to_csv_appends_records rt io file m :
  match io with WriteFails _ => False | _ => True end →
  appends_records file (save_to_csv rt io file m).2.
Proof.
  destruct io; try done; intros _; try apply appends_records_refl.
  destruct file as [text|]; cbn.
  - exists [csv_row rt m]. split; [constructor; [apply csv_row_length|done]|].
    rewrite csv_text_cons. cbn [csv_text foldr].
    by rewrite string_app_nil_r.
  - right. exists [csv_row rt m].
    split; [constructor; [apply csv_row_length|done]|].
    rewrite !csv_text_cons. cbn [csv_text foldr].
    by rewrite string_app_nil_r.
Qed.

Lemma collect_once_appends_records rt cfg w :
  writes_whole w →
  appends_records (csv_on_disk w) (file_after (collect_once rt cfg w)).
Proof.
  intros Hw. destruct (collect_once_file rt cfg w) as [->|[m ->]];
    [apply appends_records_refl|by apply save_to_csv_appends_records].
Qed.

(** X8. Over any number of iterations of the loop, whatever the cycles
    meet and also when they raise, the file on disk is only ever extended:
    what it held stays at its start, and a file that exists is not
    removed.  Unless a write is cut short, what is appended is whole
    records of twelve fields, after the header when there was no file; so
    a file that held records then reads back as those records followed by
    rows of twelve fields.  Each iteration logs one outcome. *)
Theorem run_only_appends rt cfg ws file :
  extends_file file (AirlyCollector.run rt cfg ws file).2
  ∧ length (AirlyCollector.run rt cfg ws file).1 = length ws
  ∧ (Forall writes_whole ws →
     appends_records file (AirlyCollector.run rt cfg ws file).2
     ∧ ∀ rows, file = Some (csv_text rows) →
         ∃ new, Forall (λ r, length r = 12%nat) new
           ∧ csv_reader <$> (AirlyCollector.run rt cfg ws file).2
             = Some (rows ++ new)).
Proof.
  assert (H : extends_file file (AirlyCollector.run rt cfg ws file).2
              ∧ length (AirlyCollector.run rt cfg ws file).1 = length ws
              ∧ (Forall writes_whole ws →
                 appends_records file (AirlyCollector.run rt cfg ws file).2)).
  { revert file. induction ws as [|w ws IH]; intros file.
    { split; [apply extends_file_refl|]. split; [done|].
      intros _. apply appends_records_refl. }
    cbn [AirlyCollector.run AirlyCollector.run_iteration].
    pose proof (collect_once_extends rt cfg (on_disk w file)) as H1.
    pose proof (collect_once_appends_records rt cfg (on_disk w file)) as H1'.
    cbn [on_disk csv_on_disk] in H1, H1'.
    destruct (IH (file_after (collect_once rt cfg (on_disk w file))))
      as (H2 & H3 & H4).
    destruct (AirlyCollector.run rt cfg ws _) as [lines file'].
    cbn [fst snd length] in *. split; [by eapply extends_file_trans|].
    split; [by rewrite H3|].
    intros [Hw Hws]%Forall_cons. eapply appends_records_trans; [|by apply H4].
    by apply H1'. }
  destruct H as (He & Hl & Ha). split; [done|]. split; [done|].
  intros Hw. specialize (Ha Hw). split; [done|].
  intros rows ->. destruct Ha as (new & Hn & ->). exists new.
  split; [done|]. cbn [fmap option_fmap option_map].
  by rewrite <- csv_text_app, csv_reader_writer.
Qed.

Lemma substring_prefix n : ∀ text,
  ∃ rest, text = String.substring 0 n text +:+ rest.
Proof.
  induction n as [|n IH]; intros text.
  - exists text. by destruct text.
  - destruct text as [|c text]; [by exists ""|].
    destruct (IH text) as [rest Hrest]. exists rest.
    cbn [String.substring].
    change (String c (String.substring 0 n text) +:+ rest)
      with (String c (String.substring 0 n text +:+ rest)).
    by rewrite <- Hrest.
Qed.

(** X23. What [save_to_csv] does when the file system fails.  An error of
    [os.makedirs] is not caught: the call raises and the file is as it
    was.  An error of [open] makes it return [False], the file as it was.
    An error after the file was opened makes it return [False] as well, but
    then the file exists and holds some beginning of the text that was to
    be appended.  Since the header is written only when there is no file,
    a new file that such an error left empty never gets one: the next call
    appends its row alone. *)
Theorem save_to_csv_failures rt file m :
  save_to_csv rt MakedirsFails file m = (Raise OSError, file)
  ∧ save_to_csv rt OpenFails file m = (Val false, file)
  ∧ (∀ n, ∃ done rest,
       save_to_csv rt (WriteFails n) file m
       = (Val false, Some (default "" file +:+ done))
       ∧ (save_to_csv rt IoOk file m).2
         = Some (default "" file +:+ done +:+ rest))
  ∧ (∀ m',
       (save_to_csv rt (WriteFails 0) None m').2 = Some ""
       ∧ csv_reader <$> (save_to_csv rt IoOk
                           (save_to_csv rt (WriteFails 0) None m').2 m).2
         = Some [csv_row rt m]).
Proof.
  split; [done|]. split; [done|]. split.
  - intros n. unfold save_to_csv.
    set (text := (if negb (bool_decide (is_Some file))
                  then csv_writerow CSV_HEADERS else "") +:+ _).
    destruct (substring_prefix n text) as [rest Hrest].
    exists (String.substring 0 n text), rest. split; [done|].
    by rewrite <- Hrest.
  - intros m'. split; [done|].
    assert ((save_to_csv rt (WriteFails 0) None m').2 = Some "") as ->
      by done.
    rewrite save_to_csv_append. cbn [snd fmap option_fmap option_map].
    change ("" +:+ csv_writerow (csv_row rt m))
      with (csv_writerow (csv_row rt m)).
    rewrite <- (string_app_nil_r (csv_writerow (csv_row rt m))).
    change (csv_writerow (csv_row rt m) +:+ "")
      with (csv_text [csv_row rt m]).
    by rewrite csv_reader_writer.
Qed.

Lemma or_zero_not_none v : or_zero v ≠ VNone.
Proof. unfold or_zero. destruct (truthy v) eqn:Ht; [|done]. by intros ->. Qed.

(** X9. Whenever the payload is built it has exactly the fifteen fields
    of the schema, and none of them is [None]: an absent reading never
    reaches the endpoint as null. *)
Theorem forwarding_payload_has_no_null rt cfg m p :
  hsbi_payload rt cfg m = Val p →
  dom p = list_to_set payload_fields
  ∧ map_Forall (λ _ v, v ≠ VNone) p.
Proof.
  unfold hsbi_payload.
  destruct (py_mul_float (or_zero (m_pm25 m)) approximation) as [pm1|] eqn:Hm;
    [|done].
  assert (Hpm : pm1 ≠ VNone).
  { destruct (or_zero (m_pm25 m)) as [|b|z|x|s|l|d];
      cbn [py_mul_float] in Hm; try done; try (by injection Hm as <-).
    unfold py_float_of_int in Hm.
    destruct (PrimFloat.is_infinity (float_of_Z z));
      cbv [mbind res_bind mret res_ret] in Hm; [done|].
    by injection Hm as <-. }
  py_step. intros [= <-]. split.
  - rewrite !dom_insert_L, dom_empty_L. unfold payload_fields. cbn. set_solver.
  - repeat (apply map_Forall_insert_2; [first [apply or_zero_not_none|done]|]).
    apply map_Forall_empty.
Qed.

(** X10. Building the payload raises exactly when the PM2.5 reading is a
    non-empty string, list or dict ([TypeError]) or an [int] too large for
    a float ([OverflowError]); no other reading can make it raise. *)
Theorem forwarding_payload_raises rt cfg m e :
  hsbi_payload rt cfg m = Raise e ↔
  match m_pm25 m with
  | VStr s => s ≠ "" ∧ e = TypeError
  | VList l => l ≠ [] ∧ e = TypeError
  | VDict d => d ≠ ∅ ∧ e = TypeError
  | VInt z => PrimFloat.is_infinity (float_of_Z z) = true ∧ e = OverflowError
  | _ => False
  end.
Proof.
  unfold hsbi_payload, or_zero.
  destruct (m_pm25 m) as [|b|z|x|s|l|d]; cbn [truthy].
  - cbn. done.
  - destruct b; cbn; done.
  - destruct (Z.eqb_spec z 0) as [->|Hz]; cbn [negb py_mul_float].
    + cbn. split; [done|]. by intros [H _].
    + unfold py_float_of_int.
      destruct (PrimFloat.is_infinity (float_of_Z z)); cbn.
      * split; [by intros [= <-]|by intros [_ ->]].
      * split; [done|]. by intros [H _].
  - destruct (negb (PrimFloat.eqb x 0)); cbn; done.
  - destruct (String.eqb_spec s "") as [->|Hs]; cbn.
    + split; [done|]. by intros [H _].
    + split; [by intros [= <-]|by intros [_ ->]].
  - destruct l; cbn.
    + split; [done|]. by intros [H _].
    + split; [by intros [= <-]|by intros [_ ->]].
  - destruct (decide (d = ∅)) as [->|Hd].
    + rewrite bool_decide_eq_true_2 by done. cbn.
      split; [done|]. by intros [H _].
    + rewrite bool_decide_eq_false_2 by done. cbn.
      split; [by intros [= <-]|by intros [_ ->]].
Qed.

(** ** The migration engine *)

Lemma migrate_row_grows rt srv dflt skip st row :
  (table (migrate_row rt srv dflt skip st row) = table st
   ∧ rows_imported (migrate_row rt srv dflt skip st row) = rows_imported st)
  ∨ ∃ v, insertable rt srv dflt row = Some v
      ∧ table (migrate_row rt srv dflt skip st row) = table st ++ [v]
      ∧ rows_imported (migrate_row rt srv dflt skip st row)
        = S (rows_imported st).
Proof.
  unfold migrate_row, insertable.
  destruct (parse_key rt row) as [[dt c]|]; [|by left].
  cbn [mbind option_bind].
  destruct skip.
  - destruct (execute (budget st)) as [[] b]; [|by left].
    destruct (has_key srv (table st) dt c); [by left|].
    destruct (parse_values rt dflt row dt c) as [v|]; [|by left].
    cbn [mbind option_bind].
    destruct (execute b) as [[] b']; cbn [andb]; [|by left].
    destruct (not_null_ok v && accepts srv v); [|by left].
    right. by exists v.
  - destruct (parse_values rt dflt row dt c) as [v|]; [|by left].
    cbn [mbind option_bind].
    destruct (execute (budget st)) as [[] b']; cbn [andb]; [|by left].
    destruct (not_null_ok v && accepts srv v); [|by left].
    right. by exists v.
Qed.

Lemma migrate_rows_grow rt srv dflt skip rows : ∀ st,
  ∃ new,
    table (foldl (migrate_row rt srv dflt skip) st rows) = table st ++ new
    ∧ rows_imported (foldl (migrate_row rt srv dflt skip) st rows)
      = (rows_imported st + length new)%nat
    ∧ sublist new (omap (insertable rt srv dflt) rows).
Proof.
  induction rows as [|row rows IH]; intros st.
  { exists []. cbn. rewrite app_nil_r. auto with lia. }
  cbn [foldl omap list_omap].
  destruct (IH (migrate_row rt srv dflt skip st row)) as (new & Ht & Hi & Hs).
  destruct (migrate_row_grows rt srv dflt skip st row)
    as [[Et Ei]|(v & Hv & Et & Ei)].
  - exists new. rewrite Ht, Hi, Et, Ei. split; [done|]. split; [done|].
    destruct (insertable rt srv dflt row); [by apply sublist_cons|done].
  - exists (v :: new). rewrite Ht, Hi, Et, Ei, Hv, <- app_assoc.
    split; [done|]. split; [cbn; lia|]. by apply sublist_skip.
Qed.

Lemma insertable_constraints rt srv dflt row v :
  insertable rt srv dflt row = Some v →
  not_null_ok v = true ∧ accepts srv v = true.
Proof.
  unfold insertable. destruct (parse_key rt row) as [[dt c]|]; [|done].
  cbn [mbind option_bind].
  destruct (parse_values rt dflt row dt c) as [w|]; [|done].
  cbn [mbind option_bind].
  destruct (not_null_ok w) eqn:Hn, (accepts srv w) eqn:Ha; try done.
  by intros [= <-].
Qed.

(** X11. Whatever the file, the flags and the connection do, a migration
    leaves the rows that were stored as they are and only appends: the
    rows it appends are importable rows of the file, in the order of the
    file, each meeting the NOT NULL constraints; when it returns [True]
    their number is the imported count it reports, and when it returns
    [False] or ends with the error of the rollback there are none. *)
Theorem migration_only_appends rt srv dflt db file skip_duplicates :
  ∃ new,
    stored (migrate_csv rt srv dflt db file skip_duplicates) = db ++ new
    ∧ sublist new (omap (insertable rt srv dflt)
                        (DictReader (default [] file)))
    ∧ Forall (λ v, not_null_ok v = true ∧ accepts srv v = true) new
    ∧ match reported (migrate_csv rt srv dflt db file skip_duplicates) with
      | Some c =>
        succeeded (migrate_csv rt srv dflt db file skip_duplicates) = Val true
        ∧ length new = imported c
      | None =>
        (succeeded (migrate_csv rt srv dflt db file skip_duplicates)
         = Val false
         ∨ succeeded (migrate_csv rt srv dflt db file skip_duplicates)
           = Raise MySQLError)
        ∧ new = []
      end.
Proof.
  assert (Hnone : ∀ r, r = Val false ∨ r = Raise MySQLError →
            ∃ new : list db_row,
              db = db ++ new
              ∧ sublist new (omap (insertable rt srv dflt)
                                  (DictReader (default [] file)))
              ∧ Forall (λ v, not_null_ok v = true ∧ accepts srv v = true) new
              ∧ ((r = Val false ∨ r = Raise MySQLError) ∧ new = [])).
  { intros r Hr. exists []. rewrite app_nil_r.
    repeat split; [apply sublist_nil_l|done..]. }
  unfold migrate_csv. destruct file as [rows|]; [|apply Hnone; by left].
  destruct (connect_ok srv); cbn [negb]; [|apply Hnone; by left].
  destruct (execute _) as [[] b];
    [|destruct (rollback_ok srv); apply Hnone; [by left|by right]].
  destruct (migrate_rows_grow rt srv dflt skip_duplicates (DictReader rows)
              (mkTxn db (link_budget srv) 0 0 0)) as (new & Ht & Hi & Hs).
  exists new. cbn [stored reported succeeded imported default
                   from_option id table rows_imported] in *.
  split; [done|]. split; [done|]. split; [|split; [done|lia]].
  apply Forall_forall. intros v Hv.
  apply (elem_of_sublist _ _ _ Hv) in Hs as Hv'.
  apply list_elem_of_omap in Hv' as (row & _ & Hrow).
  by eapply insertable_constraints.
Qed.

Lemma migrate_rows_undetected rt srv dflt rows : ∀ st,
  budget st = None →
  table (foldl (migrate_row rt srv dflt false) st rows)
  = table st ++ omap (insertable rt srv dflt) rows
  ∧ rows_duplicate (foldl (migrate_row rt srv dflt false) st rows)
    = rows_duplicate st
  ∧ rows_imported (foldl (migrate_row rt srv dflt false) st rows)
    = (rows_imported st + length (omap (insertable rt srv dflt) rows))%nat.
Proof.
  induction rows as [|row rows IH]; intros st Hb.
  { cbn. rewrite app_nil_r. auto with lia. }
  cbn [foldl omap list_omap].
  assert (Hstep : ∃ st', migrate_row rt srv dflt false st row = st'
            ∧ budget st' = None
            ∧ table st' = table st
                ++ match insertable rt srv dflt row with
                   | Some v => [v] | None => [] end
            ∧ rows_duplicate st' = rows_duplicate st
            ∧ rows_imported st'
              = (rows_imported st
                 + match insertable rt srv dflt row with
                   | Some _ => 1 | None => 0 end)%nat).
  { eexists. split; [reflexivity|]. unfold migrate_row, insertable.
    rewrite Hb. destruct (parse_key rt row) as [[dt c]|];
      [|cbn; rewrite app_nil_r; auto with lia].
    cbn [mbind option_bind].
    destruct (parse_values rt dflt row dt c) as [v|];
      [|cbn; rewrite app_nil_r; auto with lia].
    cbn [mbind option_bind execute andb].
    destruct (not_null_ok v && accepts srv v); cbn;
      rewrite ?app_nil_r; auto with lia. }
  destruct Hstep as (st' & -> & Hb' & Ht & Hd & Hi).
  destruct (IH st' Hb') as (IHt & IHd & IHi).
  rewrite IHt, IHd, IHi, Ht, Hd, Hi, <- app_assoc.
  destruct (insertable rt srv dflt row); cbn; auto with lia.
Qed.

(** X12. With duplicate detection switched off and a connection that
    never drops, the engine appends every importable row of the file,
    whatever the store holds, and counts no duplicate; so a second run over
    the same file appends the same rows again. *)
Theorem migration_without_detection rt srv dflt db rows :
  connect_ok srv = true → link_budget srv = None →
  ∃ c,
    migrate_csv rt srv dflt db (Some rows) false
    = mkMigration (Val true) (Some c)
        (db ++ omap (insertable rt srv dflt) (DictReader rows))
    ∧ imported c = length (omap (insertable rt srv dflt) (DictReader rows))
    ∧ duplicate c = 0%nat
    ∧ (imported c + skipped c)%nat = length (DictReader rows)
    ∧ stored (migrate_csv rt srv dflt
                (db ++ omap (insertable rt srv dflt) (DictReader rows))
                (Some rows) false)
      = db ++ omap (insertable rt srv dflt) (DictReader rows)
           ++ omap (insertable rt srv dflt) (DictReader rows).
Proof.
  intros Hc Hl. rewrite !migrate_csv_commits by done.
  destruct (migrate_rows_undetected rt srv dflt (DictReader rows)
              (mkTxn db None 0 0 0) eq_refl) as (Ht & Hd & Hi).
  destruct (migrate_rows_undetected rt srv dflt (DictReader rows)
              (mkTxn (db ++ omap (insertable rt srv dflt) (DictReader rows))
                 None 0 0 0) eq_refl) as (Ht2 & _ & _).
  pose proof (migrate_rows_counts rt srv dflt false (DictReader rows)
                (mkTxn db None 0 0 0)) as Hn.
  cbn [table rows_imported rows_duplicate rows_skipped] in *.
  eexists. split; [by rewrite Ht|]. cbn [imported duplicate skipped stored].
  rewrite Ht2, <- app_assoc. repeat split; try done; lia.
Qed.

Lemma migrate_rows_unkeyed rt srv dflt skip rows : ∀ st,
  Forall (λ row, parse_key rt row = None) rows →
  foldl (migrate_row rt srv dflt skip) st rows
  = mkTxn (table st) (budget st) (rows_imported st)
          (rows_skipped st + length rows) (rows_duplicate st).
Proof.
  induction rows as [|row rows IH]; intros st Hall.
  { cbn. rewrite Nat.add_0_r. by destruct st. }
  apply Forall_cons in Hall as [Hrow Hall]. cbn [foldl].
  rewrite IH by done. unfold migrate_row. rewrite Hrow. cbn.
  f_equal. lia.
Qed.

Lemma DictReader_blank hdr n : DictReader (hdr :: replicate n []) = [].
Proof.
  unfold DictReader. induction n as [|n IH]; [done|].
  cbn [replicate]. by rewrite filter_cons_False by (by intros H; apply H).
Qed.

(** X13. A missing file makes the engine return [False] before anything
    is read.  An empty file, and a file that holds a header and nothing
    but blank lines, is migrated with success: the counts are 0, 0, 0 and
    the store is as before. *)
Theorem migration_of_an_empty_file rt srv dflt db skip_duplicates hdr n :
  migrate_csv rt srv dflt db None skip_duplicates = mkMigration (Val false) None db
  ∧ (connect_ok srv = true → link_budget srv ≠ Some O →
     migrate_csv rt srv dflt db (Some []) skip_duplicates
     = mkMigration (Val true) (Some (mkCounts 0 0 0)) db
     ∧ migrate_csv rt srv dflt db (Some (hdr :: replicate n []))
         skip_duplicates
       = mkMigration (Val true) (Some (mkCounts 0 0 0)) db).
Proof.
  split; [done|]. intros Hc Hl. unfold migrate_csv. rewrite Hc. cbn [negb].
  rewrite DictReader_blank. cbn [DictReader foldl budget].
  destruct (link_budget srv) as [[|k]|]; done.
Qed.

(** X14. When the header names no "datetime_utc" column, or no "city"
    column, no row has a key: every row that is not blank is counted as
    skipped, and the engine still commits and returns [True]. *)
Theorem migration_without_key_columns rt srv dflt db hdr rows skip_duplicates :
  "datetime_utc" ∉ hdr ∨ "city" ∉ hdr →
  connect_ok srv = true → link_budget srv ≠ Some O →
  migrate_csv rt srv dflt db (Some (hdr :: rows)) skip_duplicates
  = mkMigration (Val true)
      (Some (mkCounts 0 0 (length (filter (λ r, r ≠ []) rows)))) db.
Proof.
  intros Hcol Hc Hl. unfold migrate_csv. rewrite Hc. cbn [negb].
  rewrite migrate_rows_unkeyed.
  - cbn [budget table rows_imported rows_skipped rows_duplicate].
    unfold DictReader. rewrite length_fmap.
    destruct (link_budget srv) as [[|k]|]; done.
  - unfold DictReader. apply Forall_fmap, Forall_forall. intros raw _.
    change (parse_key rt (zip_row hdr raw ∅) = None). unfold parse_key.
    destruct Hcol as [H|H].
    + rewrite (zip_row_lookup_other hdr raw ∅ "datetime_utc") by done.
      by rewrite lookup_empty.
    + rewrite (zip_row_lookup_other hdr raw ∅ "city") by done.
      rewrite lookup_empty.
      destruct (zip_row hdr raw ∅ !! "datetime_utc") as [[text|]|]; cbn;
        [|done..].
      by destruct (strptime rt text).
Qed.

Lemma zip_row_extra hdr : ∀ raw extra (d : gmap string (option string)),
  (length hdr ≤ length raw)%nat →
  zip_row hdr (raw ++ extra) d = zip_row hdr raw d.
Proof.
  induction hdr as [|n hdr IH]; intros raw extra d Hlen; [by destruct raw|].
  destruct raw as [|c raw]; cbn in Hlen; [lia|].
  cbn [app zip_row]. apply IH. lia.
Qed.

(** X15. Blank lines of the file are passed over, not counted, and the
    cells a row has beyond the width of the header are not read: the engine
    gives the same result without them. *)
Theorem migration_ignores_blank_lines_and_extra_cells rt srv dflt db hdr
    pre raw extra post skip_duplicates :
  migrate_csv rt srv dflt db (Some (hdr :: pre ++ [] :: post)) skip_duplicates
  = migrate_csv rt srv dflt db (Some (hdr :: pre ++ post)) skip_duplicates
  ∧ (raw ≠ [] → (length hdr ≤ length raw)%nat →
     migrate_csv rt srv dflt db (Some (hdr :: pre ++ (raw ++ extra) :: post))
       skip_duplicates
     = migrate_csv rt srv dflt db (Some (hdr :: pre ++ raw :: post))
         skip_duplicates).
Proof.
  split.
  - unfold migrate_csv, DictReader. rewrite !filter_app.
    by rewrite filter_cons_False by (by intros H; apply H).
  - intros Hraw Hlen. unfold migrate_csv, DictReader. rewrite !filter_app.
    rewrite !filter_cons_True by (by destruct raw).
    by rewrite !fmap_app, !fmap_cons, zip_row_extra.
Qed.

(** X16. A "station_id" column is honoured: a cell that is not empty must
    read as an [int], which becomes the station of the row, and a row whose
    cell does not read as one is not importable; an empty cell gives the
    default. *)
Theorem station_column_is_honoured rt srv dflt
    (row : gmap string (option string)) dt c text :
  row !! "station_id" = Some (Some text) →
  (text ≠ "" → py_int rt text = None → insertable rt srv dflt row = None)
  ∧ ∀ v, parse_values rt dflt row dt c = Some v →
      if String.eqb text "" then station_id v = dflt
      else py_int rt text = Some (station_id v).
Proof.
  intros Hs. split.
  - intros Hne Hint. unfold insertable.
    destruct (parse_key rt row) as [[dt' c']|]; [|done]. cbn [mbind option_bind].
    assert (parse_values rt dflt row dt' c' = None) as ->; [|done].
    unfold parse_values, station_or_default. rewrite Hs.
    destruct (String.eqb_spec text ""); [done|]. rewrite Hint.
    by repeat (match goal with
               | |- context [?f rt row ?k] =>
                 destruct (f rt row k); cbn [mbind option_bind]; [|done]
               end).
  - intros v. unfold parse_values, station_or_default. rewrite Hs.
    destruct (String.eqb text "") eqn:He; intros H; by simplify_option_eq.
Qed.

(** ** The relational sink *)

(** X17. [save_to_database] returns [True] exactly when the connection,
    the cursor, the INSERT and the commit all go through, and only then is
    the row in the table; its hour and minute are those of the timestamp.
    On every path on which a connection was made it is closed, as the last
    call; a cursor is closed exactly when one was opened; and a rollback is
    sent exactly when a step after the connection failed. *)
Theorem save_to_database_paths ss tbl m :
  let '(result, calls, tbl') := save_to_database ss tbl m in
  (result = Returned true ↔
   connects ss && opens_cursor ss && executes ss && commits ss = true)
  ∧ tbl' = (if connects ss && opens_cursor ss && executes ss && commits ss
            then tbl ++ [insert_params m] else tbl)
  ∧ sr_hour_utc (insert_params m) = hour (sr_datetime_utc (insert_params m))
  ∧ sr_minute_utc (insert_params m)
    = minute (sr_datetime_utc (insert_params m))
  ∧ (if connects ss
     then last calls = Some CallClose ∧ times CallClose calls = 1%nat
     else times CallClose calls = 0%nat)
  ∧ times CallCursorClose calls
    = (if connects ss && opens_cursor ss then 1 else 0)%nat
  ∧ times CallRollback calls
    = (if connects ss
          && negb (opens_cursor ss && executes ss && commits ss)
       then 1 else 0)%nat
  ∧ (result = Propagated → rolls_back ss = false).
Proof.
  destruct ss as [[] [] [] [] []]; cbn; repeat split; try done.
Qed.

(** ** Schema bootstrap *)


(** X19. [clear_table] does nothing unless [confirm] is given.  With it,
    on a reachable server that executes the statements and has the table,
    the table is emptied: [get_table_info] then reports no row and no
    first or last record.  Without the table it returns [False] and
    changes nothing. *)
Theorem clear_table_needs_confirmation s :
  clear_table false s = (false, s)
  ∧ (∀ rows,
       reachable s = true → permits s = true →
       database s = Some (Some rows) →
       (clear_table true s).1 = true
       ∧ get_table_info (clear_table true s).2
         = Some (mkTableInfo 0 None None))
  ∧ (database s = None ∨ database s = Some None →
     clear_table true s = (false, s)).
Proof.
  destruct s as [r p db]. split; [done|]. split.
  - cbn. by intros rows -> -> ->.
  - cbn. intros [-> | ->]; by destruct r, p.
Qed.

Lemma lex_leb_refl a : lex_leb a a = true.
Proof.
  induction a as [|x a IH]; [done|]. cbn.
  rewrite Z.eqb_refl, IH. apply orb_true_r.
Qed.

Lemma lex_leb_total a : ∀ b, lex_leb a b = false → lex_leb b a = true.
Proof.
  induction a as [|x a IH]; intros [|y b]; cbn; try done.
  intros H. apply orb_false_iff in H as [H1 H2].
  apply Z.ltb_ge in H1.
  destruct (Z.ltb_spec y x); [done|]. cbn.
  assert (x = y) as -> by lia. rewrite Z.eqb_refl in *. cbn in *. by apply IH.
Qed.

Lemma lex_leb_trans a : ∀ b c,
  lex_leb a b = true → lex_leb b c = true → lex_leb a c = true.
Proof.
  induction a as [|x a IH]; intros [|y b] [|z c]; cbn; try done.
  intros H1 H2.
  apply orb_true_iff in H1 as [H1|H1]; apply orb_true_iff in H2 as [H2|H2].
  - apply Z.ltb_lt in H1, H2. apply orb_true_iff. left. apply Z.ltb_lt. lia.
  - apply andb_true_iff in H2 as [H2 _]. apply Z.eqb_eq in H2 as <-.
    by rewrite H1.
  - apply andb_true_iff in H1 as [H1 _]. apply Z.eqb_eq in H1 as ->.
    by rewrite H2.
  - apply andb_true_iff in H1 as [H1 H1'], H2 as [H2 H2'].
    apply Z.eqb_eq in H1 as ->. apply Z.eqb_eq in H2 as ->.
    rewrite Z.eqb_refl, (IH b c) by done. apply orb_true_r.
Qed.

Lemma min_datetime_spec rows t :
  min_datetime rows = Some t →
  (∃ r, r ∈ rows ∧ datetime_utc r = t)
  ∧ ∀ r, r ∈ rows → datetime_leb t (datetime_utc r) = true.
Proof.
  revert t. induction rows as [|r rows IH]; intros t; [done|].
  cbn [min_datetime].
  destruct (min_datetime rows) as [t'|] eqn:Hm.
  - destruct (IH t' eq_refl) as [(r' & Hr' & Ht') Hle].
    destruct (datetime_leb (datetime_utc r) t') eqn:Hc; intros [= <-].
    + split; [exists r; split; [by left|done]|].
      intros r0 [->|Hr0]%elem_of_cons; [apply lex_leb_refl|].
      eapply lex_leb_trans; [exact Hc|]. by apply Hle.
    + split; [exists r'; split; [by right|done]|].
      intros r0 [->|Hr0]%elem_of_cons; [by apply lex_leb_total|by apply Hle].
  - intros [= <-]. destruct rows as [|r' rows].
    + split; [exists r; split; [by left|done]|].
      intros r0 [->|Hr0]%elem_of_cons; [apply lex_leb_refl|].
      by apply elem_of_nil in Hr0.
    + cbn in Hm. by destruct (min_datetime rows).
Qed.

Lemma max_datetime_spec rows t :
  max_datetime rows = Some t →
  (∃ r, r ∈ rows ∧ datetime_utc r = t)
  ∧ ∀ r, r ∈ rows → datetime_leb (datetime_utc r) t = true.
Proof.
  revert t. induction rows as [|r rows IH]; intros t; [done|].
  cbn [max_datetime].
  destruct (max_datetime rows) as [t'|] eqn:Hm.
  - destruct (IH t' eq_refl) as [(r' & Hr' & Ht') Hle].
    destruct (datetime_leb t' (datetime_utc r)) eqn:Hc; intros [= <-].
    + split; [exists r; split; [by left|done]|].
      intros r0 [->|Hr0]%elem_of_cons; [apply lex_leb_refl|].
      eapply lex_leb_trans; [|exact Hc]. by apply Hle.
    + split; [exists r'; split; [by right|done]|].
      intros r0 [->|Hr0]%elem_of_cons; [by apply lex_leb_total|by apply Hle].
  - intros [= <-]. destruct rows as [|r' rows].
    + split; [exists r; split; [by left|done]|].
      intros r0 [->|Hr0]%elem_of_cons; [apply lex_leb_refl|].
      by apply elem_of_nil in Hr0.
    + cbn in Hm. by destruct (max_datetime rows).
Qed.

(** X20. When [get_table_info] returns, the table exists and the row
    count is its length; the first and last record are absent exactly when
    the table is empty; otherwise each is the timestamp of a stored row,
    no stored row is earlier than the first and none is later than the
    last. *)
Theorem table_info_bounds s info :
  get_table_info s = Some info →
  ∃ rows,
    database s = Some (Some rows)
    ∧ row_count info = length rows
    ∧ (first_record info = None ↔ rows = [])
    ∧ (last_record info = None ↔ rows = [])
    ∧ (∀ t, first_record info = Some t →
         (∃ r, r ∈ rows ∧ datetime_utc r = t)
         ∧ ∀ r, r ∈ rows → datetime_leb t (datetime_utc r) = true)
    ∧ (∀ t, last_record info = Some t →
         (∃ r, r ∈ rows ∧ datetime_utc r = t)
         ∧ ∀ r, r ∈ rows → datetime_leb (datetime_utc r) t = true).
Proof.
  unfold get_table_info.
  destruct (get_db_connection true s); cbn [negb]; [|done].
  destruct (permits s); cbn [negb]; [|done].
  destruct (database s) as [[rows|]|]; [|done..].
  intros [= <-]. exists rows. cbn.
  split; [done|]. split; [done|]. split; [|split; [|split]].
  - destruct rows as [|r rows]; [done|]. cbn.
    split; [|done]. by destruct (min_datetime rows).
  - destruct rows as [|r rows]; [done|]. cbn.
    split; [|done]. by destruct (max_datetime rows).
  - apply min_datetime_spec.
  - apply max_datetime_spec.
Qed.

(** ** Configuration *)

Lemma from_env_collector rt env s :
  from_env rt env = Some s →
  airly_api_key (collector s) = getenv env "AIRLY_API_KEY" ""
  ∧ hsbi_api_url (collector s) = getenv env "HSBI_API_URL" ""
  ∧ enable_database (collector s) = getenv_flag env "ENABLE_DATABASE" "true"
  ∧ enable_csv (collector s) = getenv_flag env "ENABLE_CSV" "false"
  ∧ enable_hsbi (collector s) = getenv_flag env "ENABLE_HSBI_API" "false".
Proof.
  unfold from_env.
  destruct (py_int rt (getenv env "INSTALLATION_ID" "3387")); [|done].
  destruct (py_float rt (getenv env "LATITUDE" "54.3520")); [|done].
  destruct (py_float rt (getenv env "LONGITUDE" "18.6466")); [|done].
  destruct (py_int rt (getenv env "INTERVAL_SECONDS" "3600")); [|done].
  destruct (py_int rt (getenv env "DB_PORT" "3306")); [|done].
  destruct (py_int rt (getenv env "HSBI_SENSOR_ID" "1")); [|done].
  destruct (py_float rt (getenv env "HSBI_ALTITUDE" "10.0")); [|done].
  cbn. by intros [= <-].
Qed.

Lemma getenv_flag_on env k :
  getenv_flag env k "false" = true
  ↔ ∃ v, env !! k = Some v ∧ str_lower v = "true".
Proof.
  unfold getenv_flag, getenv. destruct (env !! k) as [v|]; cbn.
  - rewrite String.eqb_eq. split; [eauto|]. by intros (? & [= <-] & ?).
  - split; [done|]. by intros (? & ? & _).
Qed.

Lemma getenv_flag_off env k :
  getenv_flag env k "true" = false
  ↔ ∃ v, env !! k = Some v ∧ str_lower v ≠ "true".
Proof.
  unfold getenv_flag, getenv. destruct (env !! k) as [v|]; cbn.
  - rewrite String.eqb_neq. split; [eauto|]. by intros (? & [= <-] & ?).
  - split; [done|]. by intros (? & ? & _).
Qed.

(** X21. What a configuration loaded from the environment does with
    settings that are left out.  The store is enabled unless
    ENABLE_DATABASE is set to something other than "true" in any casing,
    while the file sink and the forwarding sink are enabled only when
    their variable is set to "true" in some casing.  Without
    AIRLY_API_KEY, or with an empty one, every one-shot run exits with
    status 1 and invokes no sink.  Without HSBI_API_URL the forwarding sink
    returns [False] for every measurement, also for one whose payload could
    not be built. *)
Theorem from_env_left_out_settings rt env s :
  from_env rt env = Some s →
  (enable_database (collector s) = false
   ↔ ∃ v, env !! "ENABLE_DATABASE" = Some v ∧ str_lower v ≠ "true")
  ∧ (enable_csv (collector s) = true
     ↔ ∃ v, env !! "ENABLE_CSV" = Some v ∧ str_lower v = "true")
  ∧ (enable_hsbi (collector s) = true
     ↔ ∃ v, env !! "ENABLE_HSBI_API" = Some v ∧ str_lower v = "true")
  ∧ (env !! "AIRLY_API_KEY" = None ∨ env !! "AIRLY_API_KEY" = Some "" →
     ∀ w, main_once rt (collector s) w = 1
          ∧ calls (collect_once rt (collector s) w) = []
          ∧ file_after (collect_once rt (collector s) w) = csv_on_disk w)
  ∧ (env !! "HSBI_API_URL" = None →
     ∀ post m, send_to_hsbi rt (collector s) post m = Val false).
Proof.
  intros (Hk & Hu & Hd & Hc & Hh)%from_env_collector.
  rewrite Hd, Hc, Hh.
  split; [apply getenv_flag_off|]. split; [apply getenv_flag_on|].
  split; [apply getenv_flag_on|]. split.
  - intros He w.
    assert (Hk' : airly_api_key (collector s) = "").
    { rewrite Hk. unfold getenv. by destruct He as [-> | ->]. }
    unfold main_once, collect_once, fetch_from_airly. by rewrite Hk'.
  - intros He post m. unfold send_to_hsbi. rewrite Hu. unfold getenv.
    by rewrite He.
Qed.

(** ** Order of the checks in the migration loop *)

(** X22. The duplicate check comes before the values are parsed.  A row
    whose key is stored and whose values do not parse is counted as a
    duplicate when detection is on, and as skipped when it is off; the
    store is the same either way. *)
Theorem duplicate_check_precedes_parsing rt srv dflt db hdr raw dt c :
  connect_ok srv = true → link_budget srv = None →
  raw ≠ [] →
  parse_key rt (zip_row hdr raw ∅) = Some (dt, c) →
  has_key srv db dt c = true →
  parse_values rt dflt (zip_row hdr raw ∅) dt c = None →
  migrate_csv rt srv dflt db (Some [hdr; raw]) true
  = mkMigration (Val true) (Some (mkCounts 0 1 0)) db
  ∧ migrate_csv rt srv dflt db (Some [hdr; raw]) false
    = mkMigration (Val true) (Some (mkCounts 0 0 1)) db.
Proof.
  intros Hc Hl Hraw Hk Hh Hv. rewrite !migrate_csv_commits by done.
  assert (DictReader [hdr; raw] = [zip_row hdr raw ∅]) as ->.
  { unfold DictReader. by rewrite filter_cons_True by done. }
  cbn [foldl]. unfold migrate_row. rewrite Hk.
  cbn [execute budget table]. by rewrite Hh, Hv.
Qed.

(** ** Worked examples of the further properties *)

Lemma sinks_attempted_independently_witness :
  calls (collect_once Reference.runtime Example.config Example.world)
  = [ToRelational Example.measurement] ++ []
    ++ [ToForwarding Example.measurement].
Proof.
  refine (proj1 (proj2 (proj2 (sinks_attempted_independently
                                 Reference.runtime Example.config
                                 Example.world Example.measurement _ _)))
            true true _ _).
  - vm_compute. reflexivity.
  - vm_compute. reflexivity.
  - reflexivity.
  - reflexivity.
Defined.

Lemma cycle_propagates_exceptions_witness :
  returned (collect_once Reference.runtime Scenario.all_sinks Scenario.text_world)
  = Raise TypeError
  ∧ calls (collect_once Reference.runtime Scenario.all_sinks Scenario.text_world)
    = [ToRelational Scenario.text_measurement; ToFile Scenario.text_measurement;
       ToForwarding Scenario.text_measurement].
Proof.
  destruct (cycle_propagates_exceptions Reference.runtime Scenario.all_sinks
              Scenario.text_world TypeError) as [_ H].
  - vm_compute. reflexivity.
  - destruct (H Scenario.text_measurement true true) as (Hr & Hc & _).
    + vm_compute. reflexivity.
    + reflexivity.
    + vm_compute. reflexivity.
    + reflexivity.
    + discriminate.
    + vm_compute. reflexivity.
    + split; [exact Hr|exact Hc].
Defined.

Lemma normalizer_stamps_configuration_witness :
  m_timestamp Example.measurement = Example.now
  ∧ m_station_id Example.measurement = Some 3387.
Proof.
  destruct (normalizer_stamps_configuration Example.config Example.now
              (VDict Example.payload) Example.measurement)
    as (Ht & _ & _ & _ & Hs & _).
  - vm_compute. reflexivity.
  - split; [exact Ht|exact Hs].
Defined.

Lemma history_beyond_first_is_ignored_witness :
  select_source (VDict Scenario.history_only) = Val Example.old.
Proof.
  refine (proj1 (history_beyond_first_is_ignored Example.config Example.now
                   Scenario.history_only Example.old [Scenario.older] [] _ _)).
  - vm_compute. reflexivity.
  - vm_compute. reflexivity.
Defined.

Lemma source_without_values_is_data_witness :
  parse_measurement Example.config Example.now
    (http_get Scenario.without_values)
  = Val (Some (mkMeasurement Example.now "Gdansk" 54.375%float 18.625%float
                 VNone VNone VNone VNone VNone (VFloat 35.25%float)
                 (Some 3387))).
Proof.
  refine (source_without_values_is_data Example.config Example.now
            (http_get Scenario.without_values) Scenario.indexes_only
            _ _ _ _ _).
  - vm_compute. reflexivity.
  - vm_compute. reflexivity.
  - apply insert_non_empty.
  - left. vm_compute. reflexivity.
  - vm_compute. reflexivity.
Defined.

Lemma entry_without_value_raises_witness :
  returned (collect_once Reference.runtime Example.config Scenario.broken)
  = Raise KeyError.
Proof.
  refine (proj1 (proj2 (entry_without_value_raises Reference.runtime
                          Example.config Scenario.broken
                          Scenario.broken_entry Scenario.nameless
                          [Example.entry "PM25" (VFloat 10%float)]
                          [("PM25", VFloat 10%float)]
                          [Example.entry "PM10" (VFloat 20.5%float)]
                          _ _ _ _ _))).
  - vm_compute. reflexivity.
  - vm_compute. reflexivity.
  - vm_compute. reflexivity.
  - vm_compute. reflexivity.
  - left. vm_compute. reflexivity.
Defined.

Lemma forwarding_payload_has_no_null_witness :
  ∃ p, hsbi_payload Reference.runtime Example.config Example.bare = Val p
       ∧ map_Forall (λ _ v, v ≠ VNone) p.
Proof.
  destruct (hsbi_payload Reference.runtime Example.config Example.bare)
    as [p|e] eqn:Hp.
  - exists p. split; [reflexivity|].
    exact (proj2 (forwarding_payload_has_no_null Reference.runtime
                    Example.config Example.bare p Hp)).
  - vm_compute in Hp. discriminate Hp.
Defined.

Lemma migration_without_detection_witness :
  stored (migrate_csv Reference.runtime Reference.server 3387 []
            Example.repeated_file false)
  = omap (insertable Reference.runtime Reference.server 3387)
      (DictReader [CSV_HEADERS; Example.row_a; Example.row_b]).
Proof.
  destruct (migration_without_detection Reference.runtime Reference.server
              3387 [] [CSV_HEADERS; Example.row_a; Example.row_b])
    as (c & H & _).
  - reflexivity.
  - reflexivity.
  - unfold Example.repeated_file. rewrite H. reflexivity.
Defined.

Lemma migration_without_key_columns_witness :
  migrate_csv Reference.runtime Reference.server 3387 [Example.stored_a]
    (Some Scenario.cityless) true
  = mkMigration (Val true) (Some (mkCounts 0 0 2)) [Example.stored_a].
Proof.
  refine (migration_without_key_columns Reference.runtime Reference.server
            3387 [Example.stored_a] ["datetime_utc"; "lat"; "lon"]
            (tail Scenario.cityless) true _ _ _).
  - right. intros H.
    repeat (apply elem_of_cons in H as [H|H]; [discriminate H|]).
    by apply elem_of_nil in H.
  - reflexivity.
  - discriminate.
Defined.

Lemma station_column_is_honoured_witness :
  ∃ v, parse_values Reference.runtime 3387 Scenario.stationed
         (mkDatetime 2024 5 1 12 0 0 0) (Some "Gdansk") = Some v
       ∧ Reference.int_of_string "42" = Some (station_id v).
Proof.
  destruct (parse_values Reference.runtime 3387 Scenario.stationed
              (mkDatetime 2024 5 1 12 0 0 0) (Some "Gdansk")) as [v|] eqn:Hv.
  - exists v. split; [reflexivity|].
    refine (proj2 (station_column_is_honoured Reference.runtime
                     Reference.server 3387 Scenario.stationed
                     (mkDatetime 2024 5 1 12 0 0 0) (Some "Gdansk") "42" _)
              v Hv).
    vm_compute. reflexivity.
  - vm_compute in Hv. discriminate Hv.
Defined.

Lemma table_info_bounds_witness :
  ∃ rows,
    database Scenario.mysql = Some (Some rows)
    ∧ row_count (mkTableInfo 1 (Some (datetime_utc Example.stored_a))
                   (Some (datetime_utc Example.stored_a)))
      = length rows.
Proof.
  destruct (table_info_bounds Scenario.mysql
              (mkTableInfo 1 (Some (datetime_utc Example.stored_a))
                 (Some (datetime_utc Example.stored_a))))
    as (rows & Hd & Hn & _).
  - reflexivity.
  - exists rows. split; [exact Hd|exact Hn].
Defined.

Lemma from_env_left_out_settings_witness :
  ∃ s, from_env Reference.runtime Scenario.env = Some s
       ∧ enable_csv (collector s) = true
       ∧ ∀ w, main_once Reference.runtime (collector s) w = 1.
Proof.
  destruct (from_env Reference.runtime Scenario.env) as [s|] eqn:Hs.
  - exists s. split; [reflexivity|].
    destruct (from_env_left_out_settings Reference.runtime Scenario.env s Hs)
      as (_ & Hc & _ & Hk & _).
    split.
    + apply Hc. exists "TRUE". split; vm_compute; reflexivity.
    + intros w. apply Hk. left. vm_compute. reflexivity.
  - vm_compute in Hs. discriminate Hs.
Defined.

Lemma main_once_exit_status_witness :
  main_once Reference.runtime Example.config Example.world = 0.
Proof.
  apply (proj2 (main_once_exit_status Reference.runtime Example.config
                  Example.world)).
  exists Example.measurement.
  split; [discriminate|]. split; [vm_compute; reflexivity|].
  split; [vm_compute; reflexivity|]. split; [reflexivity|].
  split; [discriminate|].
  intros _. exists false. vm_compute. reflexivity.
Defined.

Lemma migration_of_an_empty_file_witness :
  migrate_csv Reference.runtime Reference.server 3387 [Example.stored_a]
    (Some [CSV_HEADERS; []; []]) true
  = mkMigration (Val true) (Some (mkCounts 0 0 0)) [Example.stored_a].
Proof.
  refine (proj2 (proj2 (migration_of_an_empty_file Reference.runtime
                          Reference.server 3387 [Example.stored_a] true
                          CSV_HEADERS 2) _ _)).
  - reflexivity.
  - discriminate.
Defined.

Lemma migration_ignores_blank_lines_and_extra_cells_witness :
  migrate_csv Reference.runtime Reference.server 3387 []
    (Some [CSV_HEADERS; Example.row_a ++ ["42"]]) true
  = migrate_csv Reference.runtime Reference.server 3387 []
      (Some [CSV_HEADERS; Example.row_a]) true.
Proof.
  refine (proj2 (migration_ignores_blank_lines_and_extra_cells
                   Reference.runtime Reference.server 3387 [] CSV_HEADERS
                   [] Example.row_a ["42"] [] true) _ _).
  - discriminate.
  - vm_compute. lia.
Defined.


Lemma clear_table_needs_confirmation_witness :
  get_table_info (clear_table true Scenario.mysql).2
  = Some (mkTableInfo 0 None None).
Proof.
  refine (proj2 (proj1 (proj2 (clear_table_needs_confirmation Scenario.mysql))
                   [Example.stored_a] _ _ _)); reflexivity.
Defined.

Lemma duplicate_check_precedes_parsing_witness :
  reported (migrate_csv Reference.runtime Reference.server 3387
              [Example.stored_a]
              (Some [CSV_HEADERS; <[2%nat := "north"]> Example.row_a]) true)
  = Some (mkCounts 0 1 0).
Proof.
  destruct (duplicate_check_precedes_parsing Reference.runtime
              Reference.server 3387 [Example.stored_a] CSV_HEADERS
              (<[2%nat := "north"]> Example.row_a)
              (mkDatetime 2024 5 1 12 0 0 0) (Some "Gdansk")) as [H _].
  - reflexivity.
  - reflexivity.
  - discriminate.
  - vm_compute. reflexivity.
  - vm_compute. reflexivity.
  - vm_compute. reflexivity.
  - rewrite H. reflexivity.
Defined.

Lemma run_only_appends_witness :
  ∃ new,
    Forall (λ r, length r = 12%nat) new
    ∧ csv_reader <$> (AirlyCollector.run Reference.runtime
                        Scenario.store_and_file
                        [Scenario.text_world; Scenario.text_world]
                        (Some (csv_text [CSV_HEADERS]))).2
      = Some ([CSV_HEADERS] ++ new).
Proof.
  refine (proj2 (proj2 (proj2 (run_only_appends Reference.runtime
                                 Scenario.store_and_file
                                 [Scenario.text_world; Scenario.text_world]
                                 (Some (csv_text [CSV_HEADERS])))) _)
            [CSV_HEADERS] eq_refl).
  repeat constructor.
Defined.
